(** * ReDoS pipeline: extraction, classification, benchmarking

    A shallow embedding of the JavaScript sources
      - [src/quick-analysis.js]
      - [src/performance-benchmark.js]
      - [src/tool-evaluation/evaluate-tools.js] (the pattern extractor and
        project analyser it contains)
    together with the properties of the pipeline that the specification
    states about them. *)

From Stdlib Require Import List Bool Arith NArith ZArith QArith Lia Lqa.
From Stdlib Require Import Ascii String.
Import ListNotations.

Set Implicit Arguments.
Close Scope Q_scope.
Open Scope nat_scope.

(** ** JavaScript strings

    A JavaScript string is a sequence of UTF-16 code units; [length],
    [includes], [repeat] and the regular-expression engine (without the [u]
    flag) all work on code units. *)

Module JS.

Definition jsstring := list N.

(** A string literal of the source, for ASCII text. *)
Definition lit (s : string) : jsstring :=
  List.map N_of_ascii (list_ascii_of_string s).

Definition chr (a : ascii) : N := N_of_ascii a.

(** [sub] is a prefix of [s]. *)
Fixpoint startsWith (sub s : jsstring) : bool :=
  match sub, s with
  | [], _ => true
  | _ :: _, [] => false
  | x :: sub', y :: s' => N.eqb x y && startsWith sub' s'
  end.

(** [String.prototype.includes]. *)
Fixpoint includes (s sub : jsstring) : bool :=
  startsWith sub s ||
  match s with
  | [] => false
  | _ :: s' => includes s' sub
  end.

(** [String.prototype.repeat] *)
Definition repeat (s : jsstring) (n : nat) : jsstring :=
  List.concat (List.repeat s n).

(** Membership of a code unit in the characters of a literal. *)
Definition oneOf (cs : string) (c : N) : bool :=
  List.existsb (N.eqb c) (lit cs).

Definition noneOf (cs : string) (c : N) : bool := negb (oneOf cs c).

(** A completion of a JavaScript evaluation: a value, or a thrown error
    carrying its [message]. *)
Inductive completion (A : Type) : Type :=
| Normal (a : A)
| Throw (message : jsstring).
Arguments Normal {A} a.
Arguments Throw {A} message.

End JS.
Import JS.

(** ** The regular-expression engine

    The extractors are written with regular expressions; the fragment of the
    ECMAScript backtracking matcher that they use is embedded here: single
    code-unit atoms, sequence, ordered alternation, greedy star, capture
    groups, negative lookahead and the two anchors (no [m], [s], [i] or [u]
    flag appears on any of the source's own expressions). *)

Module Regex.

Inductive regex : Type :=
| Empty
| Chr (p : N -> bool)
| Seq (a b : regex)
| Alt (a b : regex)
| Star (a : regex)
| Group (i : nat) (a : regex)
| NotAhead (a : regex)
| Bol
| Eol.

(** Captures, most recent binding first. *)
Definition caps := list (nat * jsstring).

Fixpoint capture (i : nat) (c : caps) : option jsstring :=
  match c with
  | [] => None
  | (j, v) :: c' => if Nat.eqb i j then Some v else capture i c'
  end.

(** The matcher state is the remaining input together with a flag telling
    whether the position is the start of the whole input (for [^]). *)
Definition result := (jsstring * caps)%type.
Definition cont := bool -> jsstring -> caps -> option result.
Definition matcher := bool -> jsstring -> caps -> cont -> option result.

(** Greedy iteration.  As in ECMAScript an iteration that consumes nothing
    is rejected, so [length s] iterations are always enough. *)
Fixpoint star_loop (step : matcher) (fuel : nat) : matcher :=
  fun b s c k =>
    match fuel with
    | O => k b s c
    | S fuel' =>
        match step b s c
                (fun b' s' c' =>
                   if Nat.ltb (List.length s') (List.length s)
                   then star_loop step fuel' b' s' c' k
                   else None) with
        | Some r => Some r
        | None => k b s c
        end
    end.

Definition accept : cont := fun _ s c => Some (s, c).

Fixpoint rmatch (r : regex) : matcher :=
  fun b s c k =>
    match r with
    | Empty => k b s c
    | Chr p =>
        match s with
        | x :: s' => if p x then k false s' c else None
        | [] => None
        end
    | Seq r1 r2 => rmatch r1 b s c (fun b' s' c' => rmatch r2 b' s' c' k)
    | Alt r1 r2 =>
        match rmatch r1 b s c k with
        | Some res => Some res
        | None => rmatch r2 b s c k
        end
    | Star r1 => star_loop (rmatch r1) (List.length s) b s c k
    | Group i r1 =>
        rmatch r1 b s c
          (fun b' s' c' =>
             k b' s' ((i, firstn (List.length s - List.length s') s) :: c'))
    | NotAhead r1 =>
        match rmatch r1 b s c accept with
        | Some _ => None
        | None => k b s c
        end
    | Bol => if b then k b s c else None
    | Eol => match s with [] => k b s c | _ :: _ => None end
    end.

(** One successful match: the matched text, the input after it, the
    captures. *)
Record found := { matched : jsstring; rest : jsstring; groups : caps }.

Definition match_here (r : regex) (b : bool) (s : jsstring) : option found :=
  match rmatch r b s [] accept with
  | Some (s', c) =>
      Some {| matched := firstn (List.length s - List.length s') s;
              rest := s'; groups := c |}
  | None => None
  end.

(** Leftmost match, as [RegExp.prototype.exec] finds it. *)
Fixpoint search (r : regex) (b : bool) (s : jsstring) : option found :=
  match match_here r b s with
  | Some f => Some f
  | None =>
      match s with
      | [] => None
      | _ :: s' => search r false s'
      end
  end.

(** [String.prototype.match] with a non-global expression: [null] or the
    match with its groups. *)
Definition match_first (r : regex) (s : jsstring) : option found :=
  search r true s.

(** [String.prototype.match] with a [g] expression, followed by [|| []]:
    the texts of all successive matches.  After an empty match the engine
    advances by one code unit. *)
Fixpoint match_all_from (r : regex) (fuel : nat) (b : bool) (s : jsstring)
  : list jsstring :=
  match fuel with
  | O => []
  | S fuel' =>
      match search r b s with
      | None => []
      | Some f =>
          matched f ::
          match matched f, rest f with
          | [], [] => []
          | [], _ :: s' => match_all_from r fuel' false s'
          | _ :: _, s' => match_all_from r fuel' false s'
          end
      end
  end.

Definition match_all (r : regex) (s : jsstring) : list jsstring :=
  match_all_from r (S (List.length s)) true s.

(** Abbreviations for the surface syntax. *)
Definition c1 (a : ascii) : regex := Chr (N.eqb (chr a)).
Definition plus (r : regex) : regex := Seq r (Star r).
Definition opt (r : regex) : regex := Alt r Empty.
Fixpoint word (cs : list N) : regex :=
  match cs with
  | [] => Empty
  | x :: cs' => Seq (Chr (N.eqb x)) (word cs')
  end.

(** [.] without the [s] flag: anything but a line terminator. *)
Definition isLineTerminator (c : N) : bool :=
  N.eqb c 10 || N.eqb c 13 || N.eqb c 8232 || N.eqb c 8233.
Definition dot : regex := Chr (fun c => negb (isLineTerminator c)).

(** [\s]: white space and line terminators. *)
Definition isSpace (c : N) : bool :=
  (N.leb 9 c && N.leb c 13) || N.eqb c 32 || N.eqb c 160 || N.eqb c 5760
  || (N.leb 8192 c && N.leb c 8202) || N.eqb c 8232 || N.eqb c 8233
  || N.eqb c 8239 || N.eqb c 8287 || N.eqb c 12288 || N.eqb c 65279.
Definition space : regex := Chr isSpace.

(** *** The texts of an expression

    The vocabulary in which the properties of a match are stated. *)

(** The texts an expression can match; the zero-width assertions are
    over-approximated by the empty text. *)
Fixpoint denote (r : regex) (w : jsstring) : Prop :=
  match r with
  | Empty => w = []
  | Chr p => exists x, w = [x] /\ p x = true
  | Seq a b => exists u v, w = u ++ v /\ denote a u /\ denote b v
  | Alt a b => denote a w \/ denote b w
  | Star a => exists ws, w = List.concat ws /\ Forall (denote a) ws
  | Group _ a => denote a w
  | NotAhead _ => w = []
  | Bol => w = []
  | Eol => w = []
  end.

(** A successful run of a matcher consumed a text of [L] and then ran its
    continuation. *)
Definition sound (m : matcher) (L : jsstring -> Prop) : Prop :=
  forall b s c k res,
    m b s c k = Some res ->
    exists w s' b' c', s = w ++ s' /\ L w /\ k b' s' c' = Some res.

End Regex.
Import Regex.

(** ** Pattern extraction  (evaluate-tools.js, [extractRegexFromFile]) *)

(** The file system as the scripts see it. *)
Record filesystem := {
  existsSync : jsstring -> bool;
  readFileSync : jsstring -> completion jsstring
}.

(** The answer of the detector's [isSafe]: [{ safe, score: { infinite,
    value } }]. *)
Module Detector.

Record Score := { infinite : bool; value : Z }.

Record analysisResult := { safe : bool; score : Score }.

End Detector.

Definition flagChar : N -> bool := oneOf "gimsuvy".

Module Extractor.

Inductive patternType := literal | constructor.

(** The objects pushed on [patterns]; [analysis] and [error] are the
    properties that [analyzeProject] adds later. *)
Record patternInfo := {
  type : patternType;
  pattern : jsstring;
  flags : jsstring;
  full : jsstring;
  file : jsstring;
  analysis : option Detector.analysisResult;
  error : option jsstring
}.

Definition with_analysis (p : patternInfo) (a : Detector.analysisResult) : patternInfo :=
  {| type := type p; pattern := pattern p; flags := flags p; full := full p;
     file := file p; analysis := Some a; error := error p |}.

Definition with_error (p : patternInfo) (msg : jsstring) : patternInfo :=
  {| type := type p; pattern := pattern p; flags := flags p; full := full p;
     file := file p; analysis := analysis p; error := Some msg |}.

(** [regexPatterns[0]]:
    [/\/(?![*\/])([^\/\n\r\\]|\\[^*]|\\.)*\/[gimsuvy]*/g] *)
Definition literalRegex : regex :=
  Seq (c1 "/")
 (Seq (NotAhead (Chr (oneOf "*/")))
 (Seq (Star (Group 1
         (Alt (Chr (fun c => negb (N.eqb c 47 || N.eqb c 10 || N.eqb c 13
                                   || N.eqb c 92)))
         (Alt (Seq (c1 "\") (Chr (fun c => negb (N.eqb c 42))))
              (Seq (c1 "\") dot)))))
 (Seq (c1 "/") (Star (Chr flagChar))))).

(** In the comments below [Q] stands for the two-character class of the
    single and the double quote, and a blank inside an expression is only
    there to keep the comment well formed. *)
Definition quote : regex := Chr (fun c => N.eqb c 39 || N.eqb c 34).

(** The common head [new\s+RegExp\s*\(\s*] of the constructor
    expressions. *)
Definition constructorHead (r : regex) : regex :=
  Seq (word (lit "new")) (Seq (plus space) (Seq (word (lit "RegExp"))
 (Seq (Star space) (Seq (c1 "(") (Seq (Star space) r))))).

(** [regexPatterns[1]]:
    [/new\s+RegExp\s*\(\s*Q((?:[^Q\\\n\r]|\\.)* )Q(?:\s*,\s*Q[gimsuvy]*Q)?\s*\)/g] *)
Definition constructorRegex : regex :=
  constructorHead
   (Seq quote
   (Seq (Group 1 (Star
           (Alt (Chr (fun c => negb (N.eqb c 39 || N.eqb c 34 || N.eqb c 92
                                     || N.eqb c 10 || N.eqb c 13)))
                (Seq (c1 "\") dot))))
   (Seq quote
   (Seq (opt (Seq (Star space) (Seq (c1 ",") (Seq (Star space)
             (Seq quote (Seq (Star (Chr flagChar)) quote))))))
   (Seq (Star space) (c1 ")")))))).

Definition identStart (c : N) : bool :=
  (N.leb 97 c && N.leb c 122) || (N.leb 65 c && N.leb c 90)
  || N.eqb c 95 || N.eqb c 36.
Definition identPart (c : N) : bool :=
  identStart c || (N.leb 48 c && N.leb c 57).

(** [regexPatterns[2]]:
    [/new\s+RegExp\s*\(\s*[a-zA-Z_$][a-zA-Z0-9_$]*(?:\s*,\s*Q[gimsuvy]*Q)?\s*\)/g] *)
Definition variableRegex : regex :=
  constructorHead
   (Seq (Chr identStart)
   (Seq (Star (Chr identPart))
   (Seq (opt (Seq (Star space) (Seq (c1 ",") (Seq (Star space)
             (Seq quote (Seq (Star (Chr flagChar)) quote))))))
   (Seq (Star space) (c1 ")"))))).

Definition regexPatterns : list regex :=
  [literalRegex; constructorRegex; variableRegex].

(** [/^\/(.* )\/([gimsuvy]* )$/] *)
Definition splitLiteral : regex :=
  Seq Bol (Seq (c1 "/") (Seq (Group 1 (Star dot)) (Seq (c1 "/")
 (Seq (Group 2 (Star (Chr flagChar))) Eol)))).

(** [/new\s+RegExp\s*\(\s*Q([^Q]* )Q/] *)
Definition splitConstructor : regex :=
  constructorHead
   (Seq quote
   (Seq (Group 1 (Star (Chr (fun c => negb (N.eqb c 39 || N.eqb c 34)))))
        quote)).

(** *** The unfiltered extractor  (evaluate-tools.js, lines 524-576)

    The variant of [extractRegexFromFile] that pushes every recognised
    occurrence. *)

Module Unfiltered.

Definition literalEntry (filePath m : jsstring) : list patternInfo :=
  match match_first splitLiteral m with
  | Some f =>
      match capture 1 (groups f), capture 2 (groups f) with
      | Some pat, Some fl =>
          [ {| type := literal; pattern := pat; flags := fl; full := m;
               file := filePath; analysis := None; error := None |} ]
      | _, _ => []
      end
  | None => []
  end.

Definition constructorEntry (filePath m : jsstring) : list patternInfo :=
  match match_first splitConstructor m with
  | Some f =>
      match capture 1 (groups f) with
      | Some pat =>
          [ {| type := constructor; pattern := pat; flags := [];
               full := m; file := filePath; analysis := None;
               error := None |} ]
      | None => []
      end
  | None => []
  end.

Definition extractRegexFromFile (fs : filesystem) (filePath : jsstring)
  : list patternInfo :=
  match readFileSync fs filePath with
  | Normal content =>
      flat_map (literalEntry filePath)
               (match_all (nth 0 regexPatterns Empty) content)
      ++ flat_map (constructorEntry filePath)
           (match_all (nth 1 regexPatterns Empty) content)
  | Throw _ => []
  end.

(** [for (const file of jsFiles) allPatterns.push(...patterns)]
    (lines 617-624) *)
Definition collect (fs : filesystem) (jsFiles : list jsstring)
  : list patternInfo :=
  fold_left (fun allPatterns f => allPatterns ++ extractRegexFromFile fs f)
            jsFiles [].

End Unfiltered.

(** *** The extractor  (evaluate-tools.js, lines 200-262) *)

(** The test both loops apply before pushing:
    [pattern.length > 5 && pattern.length < 500 &&
     !pattern.includes('\\n') && !pattern.includes('\\r')] *)
Definition meaningful (pattern : jsstring) : bool :=
  Nat.ltb 5 (List.length pattern) && Nat.ltb (List.length pattern) 500
  && negb (includes pattern (lit "\n")) && negb (includes pattern (lit "\r")).

(** Body of [literalMatches.forEach]: what one match contributes. *)
Definition literalEntry (filePath m : jsstring) : list patternInfo :=
  match match_first splitLiteral m with
  | Some f =>
      match capture 1 (groups f), capture 2 (groups f) with
      | Some pat, Some fl =>
          if meaningful pat
          then [ {| type := literal; pattern := pat; flags := fl; full := m;
                    file := filePath; analysis := None; error := None |} ]
          else []
      | _, _ => []
      end
  | None => []
  end.

(** Body of [constructorMatches.forEach]. *)
Definition constructorEntry (filePath m : jsstring) : list patternInfo :=
  match match_first splitConstructor m with
  | Some f =>
      match capture 1 (groups f) with
      | Some pat =>
          if meaningful pat
          then [ {| type := constructor; pattern := pat; flags := [];
                    full := m; file := filePath; analysis := None;
                    error := None |} ]
          else []
      | None => []
      end
  | None => []
  end.

Definition extractRegexFromFile (fs : filesystem) (filePath : jsstring)
  : list patternInfo :=
  match readFileSync fs filePath with
  | Normal content =>
      flat_map (literalEntry filePath)
               (match_all (nth 0 regexPatterns Empty) content)
      ++ flat_map (constructorEntry filePath)
           (match_all (nth 1 regexPatterns Empty) content)
  | Throw _ => []
  end.

(** The vocabulary for the shape of the recorded entries. *)
Definition spaces (w : jsstring) : Prop := Forall (fun x => isSpace x = true) w.

Definition isQuote (q : N) : Prop := q = 39%N \/ q = 34%N.

Definition noLineEscape (pat : jsstring) : Prop :=
  includes pat (lit "\n") = false /\ includes pat (lit "\r") = false.

(** *** Project analysis  (evaluate-tools.js, [analyzeProject], lines 292-424)

    The detector library and the engine's [RegExp] constructor are not part
    of the repository: they are parameters.  So is [toLowerCase], whose
    Unicode tables are the engine's. *)

Section Analysis.

Variable RegExp : Type.
(** [new RegExp(pattern, flags)] *)
Variable RegExp_new : jsstring -> jsstring -> completion RegExp.
(** [isSafe(regexObj)] of redos-detector *)
Variable isSafe : RegExp -> completion Detector.analysisResult.
Variable toLowerCase : jsstring -> jsstring.

Definition silentErrors : list jsstring :=
  [ lit "Internal error"; lit "caseInsensitive"; lit "unicode";
    lit "expected codepoint"; lit "Invalid regular expression";
    lit "memory"; lit "heap" ].

Definition shouldSkipSilently (errorMsg : jsstring) : bool :=
  existsb (fun silentError =>
             includes (toLowerCase errorMsg) (toLowerCase silentError))
          silentErrors.

(** [flags.includes('u') && flags.includes('i')] *)
Definition unicodeInsensitive (fl : jsstring) : bool :=
  includes fl (lit "u") && includes fl (lit "i").

(** [pattern.includes('\u0000') || pattern.includes('\uFFFD') ||
     pattern.length > 300] *)
Definition problematic (pat : jsstring) : bool :=
  includes pat [0%N] || includes pat [65533%N]
  || Nat.ltb 300 (List.length pat).

Record buckets := {
  vulnerablePatterns : list patternInfo;
  safePatterns : list patternInfo;
  errorPatterns : list patternInfo
}.

Definition noBuckets : buckets :=
  {| vulnerablePatterns := []; safePatterns := []; errorPatterns := [] |}.

(** What one turn of the [for] loop does with its candidate. *)
Inductive outcome :=
| Skip
| ToSafe (p : patternInfo)
| ToVulnerable (p : patternInfo)
| ToError (p : patternInfo).

(** The [try] block up to the answer of the detector; [Normal None] is a
    [continue]. *)
Definition tryAnalyze (p : patternInfo) : completion (option Detector.analysisResult) :=
  if unicodeInsensitive (flags p) then Normal None
  else if problematic (pattern p) then Normal None
  else
    match RegExp_new (pattern p) (flags p) with
    | Throw msg => Throw msg
    | Normal regexObj =>
        match isSafe regexObj with
        | Throw msg => Throw msg
        | Normal a => Normal (Some a)
        end
    end.

Definition classifyOne (p : patternInfo) : outcome :=
  match tryAnalyze p with
  | Normal None => Skip
  | Normal (Some a) =>
      if Detector.safe a then ToSafe (with_analysis p a)
      else ToVulnerable (with_analysis p a)
  | Throw errorMsg =>
      if negb (shouldSkipSilently errorMsg)
      then ToError (with_error p errorMsg)
      else Skip
  end.

Definition push (b : buckets) (o : outcome) : buckets :=
  match o with
  | Skip => b
  | ToSafe p =>
      {| vulnerablePatterns := vulnerablePatterns b;
         safePatterns := safePatterns b ++ [p];
         errorPatterns := errorPatterns b |}
  | ToVulnerable p =>
      {| vulnerablePatterns := vulnerablePatterns b ++ [p];
         safePatterns := safePatterns b;
         errorPatterns := errorPatterns b |}
  | ToError p =>
      {| vulnerablePatterns := vulnerablePatterns b;
         safePatterns := safePatterns b;
         errorPatterns := errorPatterns b ++ [p] |}
  end.

(** [for (const file of jsFiles) allPatterns.push(...extractRegexFromFile(file))] *)
Definition collect (fs : filesystem) (jsFiles : list jsstring)
  : list patternInfo :=
  fold_left (fun allPatterns f => allPatterns ++ extractRegexFromFile fs f)
            jsFiles [].

(** [allPatterns.slice(0, Math.min(100, allPatterns.length))] *)
Definition patternsToAnalyze (allPatterns : list patternInfo)
  : list patternInfo :=
  firstn (Nat.min 100 (List.length allPatterns)) allPatterns.

Definition analysisLoop (ps : list patternInfo) : buckets :=
  fold_left (fun b p => push b (classifyOne p)) ps noBuckets.

(** The object [results]: its [summary] holds the counts
    ([safePatterns], [vulnerablePatterns] and [errorPatterns] there are
    lengths), and its sequences carry the names of the loop's arrays, here
    prefixed with [report]. *)
Record summary := {
  totalFiles : nat;
  totalPatterns : nat;
  safeCount : nat;
  vulnerableCount : nat;
  errorCount : nat
}.

Record results := {
  summary_of : summary;
  reportVulnerable : list patternInfo;
  reportSafe : list patternInfo;
  reportError : list patternInfo
}.

(** [jsFiles] is the answer of [findJavaScriptFiles(projectPath)]. *)
Definition analyzeProject (fs : filesystem) (jsFiles : list jsstring)
  : results :=
  let allPatterns := collect fs jsFiles in
  let b := analysisLoop (patternsToAnalyze allPatterns) in
  {| summary_of :=
       {| totalFiles := List.length jsFiles;
          totalPatterns := List.length allPatterns;
          safeCount := List.length (safePatterns b);
          vulnerableCount := List.length (vulnerablePatterns b);
          errorCount := List.length (errorPatterns b) |};
     reportVulnerable := vulnerablePatterns b;
     reportSafe := firstn 10 (safePatterns b);
     reportError := errorPatterns b |}.

(** The entries one candidate adds to each sequence. *)
Definition toVulnerable (o : outcome) : list patternInfo :=
  match o with ToVulnerable q => [q] | _ => [] end.
Definition toSafe (o : outcome) : list patternInfo :=
  match o with ToSafe q => [q] | _ => [] end.
Definition toError (o : outcome) : list patternInfo :=
  match o with ToError q => [q] | _ => [] end.

(** The candidate leaves the loop without a verdict. *)
Definition unverdicted (p : patternInfo) : bool :=
  match classifyOne p with Skip => true | _ => false end.

Definition entries (b : buckets) : list patternInfo :=
  vulnerablePatterns b ++ safePatterns b ++ errorPatterns b.

End Analysis.

End Extractor.

(** ** Quick analysis  (quick-analysis.js) *)

Module Quick.

(** The objects of [patterns], and of [vulnerable] once [score] and
    [infinite] are added. *)
Record entry := {
  pattern : jsstring;
  flags : jsstring;
  file : jsstring;
  score : option Detector.Score;
  infinite : option bool
}.

(** Body of [literalMatches.forEach]:
    [patternMatch && patternMatch[1].length > 5]. *)
Definition literalEntry (filePath m : jsstring) : list entry :=
  match match_first Extractor.splitLiteral m with
  | Some f =>
      match capture 1 (groups f), capture 2 (groups f) with
      | Some pat, Some fl =>
          if Nat.ltb 5 (List.length pat)
          then [ {| pattern := pat; flags := fl; file := filePath;
                    score := None; infinite := None |} ]
          else []
      | _, _ => []
      end
  | None => []
  end.

(** The two expressions of [quickExtract] are those of the extractor. *)
Definition quickExtract (fs : filesystem) (filePath : jsstring) : list entry :=
  match readFileSync fs filePath with
  | Normal content =>
      flat_map (literalEntry filePath)
               (match_all Extractor.literalRegex content)
  | Throw _ => []
  end.

Record analysed := { vulnerable : list entry; safe : list entry }.

Section Analysis.

Variable RegExp : Type.
Variable RegExp_new : jsstring -> jsstring -> completion RegExp.
Variable isSafe : RegExp -> completion Detector.analysisResult.

Inductive outcome := Skip | ToSafe (p : entry) | ToVulnerable (p : entry).

(** Body of [patterns.forEach] in [analyzePatterns]; the [catch] block only
    logs. *)
Definition classifyOne (p : entry) : outcome :=
  if includes (flags p) (lit "u") && includes (flags p) (lit "i") then Skip
  else
    match RegExp_new (pattern p) (flags p) with
    | Throw _ => Skip
    | Normal regexObj =>
        match isSafe regexObj with
        | Throw _ => Skip
        | Normal a =>
            if negb (Detector.safe a)
            then ToVulnerable
                   {| pattern := pattern p; flags := flags p; file := file p;
                      score := Some (Detector.score a);
                      infinite := Some (Detector.infinite (Detector.score a)) |}
            else ToSafe p
        end
    end.

Definition push (r : analysed) (o : outcome) : analysed :=
  match o with
  | Skip => r
  | ToSafe p => {| vulnerable := vulnerable r; safe := safe r ++ [p] |}
  | ToVulnerable p => {| vulnerable := vulnerable r ++ [p]; safe := safe r |}
  end.

Definition analyzePatterns (patterns : list entry) : analysed :=
  fold_left (fun r p => push r (classifyOne p)) patterns
            {| vulnerable := []; safe := [] |}.

(** [file.includes('validator') ? 'validator.js' :
     file.includes('moment') ? 'moment.js' : 'chalk'] *)
Definition projectNameOf (f : jsstring) : jsstring :=
  if includes f (lit "validator") then lit "validator.js"
  else if includes f (lit "moment") then lit "moment.js"
  else lit "chalk".

(** [allResults]: an object used as a map from project name to its two
    sequences; its keys are kept in insertion order, which is the order
    [Object.keys] enumerates them. *)
Definition allResults := list (jsstring * analysed).

Definition jsstring_eqb (a b : jsstring) : bool :=
  if list_eq_dec N.eq_dec a b then true else false.

Fixpoint lookup (k : jsstring) (m : allResults) : option analysed :=
  match m with
  | [] => None
  | (k', v) :: m' => if jsstring_eqb k k' then Some v else lookup k m'
  end.

(** [allResults[k].vulnerable.push(...); allResults[k].safe.push(...)],
    after [allResults[k]] was created when absent. *)
Fixpoint extend (k : jsstring) (r : analysed) (m : allResults) : allResults :=
  match m with
  | [] => [(k, {| vulnerable := vulnerable r; safe := safe r |})]
  | (k', v) :: m' =>
      if jsstring_eqb k k'
      then (k', {| vulnerable := vulnerable v ++ vulnerable r;
                   safe := safe v ++ safe r |}) :: m'
      else (k', v) :: extend k r m'
  end.

(** Body of [targetFiles.forEach] in [main]. *)
Definition visit (fs : filesystem) (acc : allResults) (f : jsstring)
  : allResults :=
  if existsSync fs f then
    let patterns := quickExtract fs f in
    if Nat.ltb 0 (List.length patterns)
    then extend (projectNameOf f) (analyzePatterns patterns) acc
    else acc
  else acc.

(** The aggregation of [main] (lines 87-107) over its [targetFiles]. *)
Definition aggregate (fs : filesystem) (targetFiles : list jsstring)
  : allResults :=
  fold_left (visit fs) targetFiles [].

(** The entries one candidate adds to each sequence, and the candidates
    that leave the loop without a verdict. *)
Definition toVulnerable (o : outcome) : list entry :=
  match o with ToVulnerable q => [q] | _ => [] end.
Definition toSafe (o : outcome) : list entry :=
  match o with ToSafe q => [q] | _ => [] end.

Definition unverdicted (p : entry) : bool :=
  match classifyOne p with Skip => true | _ => false end.

(** The sequences of a project in [allResults], empty when the project is
    absent. *)
Definition vulnerableOf (project : jsstring) (m : allResults) : list entry :=
  match lookup project m with Some r => vulnerable r | None => [] end.

Definition safeOf (project : jsstring) (m : allResults) : list entry :=
  match lookup project m with Some r => safe r | None => [] end.

(** The verdict entries of one file. *)
Definition analysedFile (fs : filesystem) (f : jsstring) : analysed :=
  analyzePatterns (quickExtract fs f).

(** The file exists and belongs to the project. *)
Definition contributes (fs : filesystem) (project f : jsstring) : bool :=
  existsSync fs f && jsstring_eqb project (projectNameOf f).

End Analysis.

(** [generateTestInputs] *)
Definition generateTestInputs (pat : jsstring) : list jsstring :=
  let inputs := [] in
  let inputs :=
    if includes pat (lit "+") && (includes pat (lit "*") || includes pat (lit "+"))
    then inputs ++ [JS.repeat (lit "a") 20 ++ lit "x"] else inputs in
  let inputs :=
    if includes pat (lit "|")
    then inputs ++ [JS.repeat (lit "a") 10 ++ JS.repeat (lit "b") 10 ++ lit "x"]
    else inputs in
  let inputs :=
    if includes pat (lit "@") || includes pat (lit "\.")
    then inputs ++ [JS.repeat (lit "a") 50 ++ lit "@" ++ JS.repeat (lit "b") 50
                    ++ lit ".com"]
    else inputs in
  let inputs :=
    if includes pat (lit "http") || includes pat (lit "://")
    then inputs ++ [lit "http://" ++ JS.repeat (lit "a") 100 ++ lit ".com"]
    else inputs in
  inputs ++ [JS.repeat (lit "a") 100 ++ lit "x"].

End Quick.

(** ** Performance benchmark  (performance-benchmark.js) *)

Module Benchmark.

(** *** The runtime: clock, timers and the event loop

    [benchmarkPattern] arms a timer around every engine call.  A timer's
    callback is a task of the event loop: it runs only when the call stack is
    empty, never in the middle of synchronous code.  The runtime keeps the
    high-resolution clock (nanoseconds), the armed timers and the [timedOut]
    variables captured by the callbacks. *)

Inductive callback := SetTimedOut (cell : nat).

Record timer := { timerId : nat; due : Z; action : callback }.

Record runtime := {
  clock : Z;
  timers : list timer;
  nextTimerId : nat;
  cells : list bool
}.

Definition startRuntime : runtime :=
  {| clock := 0; timers := []; nextTimerId := 0; cells := [] |}.

(** [let timedOut = false] *)
Definition declare (rt : runtime) : nat * runtime :=
  (List.length (cells rt),
   {| clock := clock rt; timers := timers rt; nextTimerId := nextTimerId rt;
      cells := cells rt ++ [false] |}).

Definition readCell (cell : nat) (rt : runtime) : bool :=
  nth cell (cells rt) false.

Fixpoint setNth (i : nat) (v : bool) (l : list bool) : list bool :=
  match l, i with
  | [], _ => []
  | _ :: l', O => v :: l'
  | x :: l', S i' => x :: setNth i' v l'
  end.

(** [setTimeout(cb, ms)] *)
Definition setTimeout (cb : callback) (ms : Z) (rt : runtime) : nat * runtime :=
  (nextTimerId rt,
   {| clock := clock rt;
      timers := timers rt ++ [ {| timerId := nextTimerId rt;
                                  due := clock rt + ms * 1000000;
                                  action := cb |} ];
      nextTimerId := S (nextTimerId rt);
      cells := cells rt |}).

(** [clearTimeout(id)] *)
Definition clearTimeout (id : nat) (rt : runtime) : runtime :=
  {| clock := clock rt;
     timers := filter (fun t => negb (Nat.eqb (timerId t) id)) (timers rt);
     nextTimerId := nextTimerId rt;
     cells := cells rt |}.

(** Synchronous code that takes [ns] nanoseconds: the clock moves, no task
    runs. *)
Definition elapse (ns : Z) (rt : runtime) : runtime :=
  {| clock := clock rt + ns; timers := timers rt;
     nextTimerId := nextTimerId rt; cells := cells rt |}.

Definition runCallback (cb : callback) (cs : list bool) : list bool :=
  match cb with SetTimedOut cell => setNth cell true cs end.

(** A turn of the event loop, once the script has returned: the timers that
    are due fire. *)
Definition eventLoop (rt : runtime) : runtime :=
  {| clock := clock rt;
     timers := filter (fun t => Z.ltb (clock rt) (due t)) (timers rt);
     nextTimerId := nextTimerId rt;
     cells := fold_left (fun cs t => runCallback (action t) cs)
                (filter (fun t => Z.leb (due t) (clock rt)) (timers rt))
                (cells rt) |}.

(** *** Samples *)

Inductive resultValue := Bool (b : bool) | Text (s : jsstring).

(** The objects pushed on [results]; an error sample has no [timeout]
    property and only it has an [error] one. *)
Record sample := {
  inputLength : nat;
  duration : Q;
  result : resultValue;
  timeout : option bool;
  error : option jsstring
}.

Inductive status := LOW | MEDIUM | HIGH | CRITICAL.

(** What [Math.max] returns: [-Infinity] on no argument. *)
Inductive number := NegInfinity | Finite (q : Q).

Definition mathMax (xs : list Q) : number :=
  fold_left (fun m x =>
               match m with
               | NegInfinity => Finite x
               | Finite y => if Qle_bool x y then Finite y else Finite x
               end) xs NegInfinity.

(** [m > t] *)
Definition exceeds (m : number) (t : Q) : bool :=
  match m with
  | NegInfinity => false
  | Finite q => negb (Qle_bool q t)
  end.

(** Truthiness of the [timeout] property. *)
Definition truthy (t : option bool) : bool :=
  match t with Some true => true | _ => false end.

(** The severity printed by the summary loop of [main] (lines 160-168). *)
Definition statusOf (results : list sample) : status :=
  let maxTime :=
    mathMax (List.map duration
               (filter (fun r => negb (truthy (timeout r))) results)) in
  let hasTimeout := existsb (fun r => truthy (timeout r)) results in
  if hasTimeout then CRITICAL
  else if exceeds maxTime 1000 then HIGH
  else if exceeds maxTime 100 then MEDIUM
  else LOW.

(** The vocabulary of the severity rule. *)
(** Some sample that did not time out took more than [t] milliseconds. *)
Definition slowSample (t : Q) (rs : list sample) : Prop :=
  exists r, In r rs /\ timeout r <> Some true /\ (t < duration r)%Q.

Definition timedOutSample (rs : list sample) : Prop :=
  exists r, In r rs /\ timeout r = Some true.

(** The rule as the specification words it, for comparison: the elapsed
    time of the sample with the largest input decides between HIGH, MEDIUM
    and LOW. *)
Definition largestInput (rs : list sample) : option sample :=
  fold_left (fun best r =>
               match best with
               | None => Some r
               | Some b => if Nat.ltb (inputLength b) (inputLength r)
                           then Some r else Some b
               end) rs None.

Definition severityByLargestInput (rs : list sample) : status :=
  if existsb (fun r => truthy (timeout r)) rs then CRITICAL
  else match largestInput rs with
       | Some r =>
           if negb (Qle_bool (duration r) 1000) then HIGH
           else if negb (Qle_bool (duration r) 100) then MEDIUM
           else LOW
       | None => LOW
       end.

(** *** [generateReDoSInputs] *)

Definition triple (pre unit post : string) : list jsstring :=
  [ lit pre ++ JS.repeat (lit unit) 20 ++ lit post;
    lit pre ++ JS.repeat (lit unit) 50 ++ lit post;
    lit pre ++ JS.repeat (lit unit) 100 ++ lit post ].

Definition generateReDoSInputs (pat : jsstring) : list jsstring :=
  let inputs := [] in
  let inputs :=
    if includes pat (lit "5[1-5]") || includes pat (lit "222")
    then inputs ++ triple "5" "1" "x" else inputs in
  let inputs :=
    if includes pat (lit "a-z") && includes pat (lit "{2,}")
    then inputs ++ triple "" "a" "x" else inputs in
  let inputs :=
    if includes pat (lit "hsla?")
    then inputs ++ triple "hsl(" "1." "x" else inputs in
  let inputs :=
    if includes pat (lit "Mon|Tue|Wed")
    then inputs ++ triple "Mon, " "1" " Jan" else inputs in
  let inputs :=
    if includes pat (lit "\[") && includes pat (lit "MM?M?M?")
    then inputs ++ triple "[" "M" "x" else inputs in
  let inputs :=
    if includes pat (lit "\s\s*")
    then inputs ++ triple "" " " "x" else inputs in
  if Nat.eqb (List.length inputs) 0
  then inputs ++ triple "" "a" "x"
  else inputs.

(** The lengths come in consecutive triples, each strictly ascending. *)
Fixpoint ascendingTriples (ls : list nat) : Prop :=
  match ls with
  | [] => True
  | a :: b :: c :: ls' => a < b /\ b < c /\ ascendingTriples ls'
  | _ => False
  end.

(** *** [benchmarkPattern] and [main]

    The executing engine is a parameter: construction may throw; a call of
    [test] answers or throws, may update the expression object ([lastIndex])
    and takes some time. *)

Record testRun (RegExp : Type) := {
  after : RegExp;
  answer : completion bool;
  nanoseconds : Z
}.

Section Engine.

Variable RegExp : Type.
Variable RegExp_new : jsstring -> jsstring -> completion RegExp.
Variable test : RegExp -> jsstring -> testRun RegExp.

Record loopState := {
  regex_of : RegExp;
  runtime_of : runtime;
  results_of : list sample
}.

(** Body of [testInputs.forEach]. *)
Definition runSample (st : loopState) (input : jsstring) : loopState :=
  let rt := runtime_of st in
  let start := clock rt in
  let (timedOut, rt) := declare rt in
  let (timeoutId, rt) := setTimeout (SetTimedOut timedOut) 5000 rt in
  let run := test (regex_of st) input in
  let rt := elapse (nanoseconds run) rt in
  match answer run with
  | Normal res =>
      let rt := clearTimeout timeoutId rt in
      if negb (readCell timedOut rt) then
        let end_ := clock rt in
        {| regex_of := after run; runtime_of := rt;
           results_of := results_of st ++
             [ {| inputLength := List.length input;
                  duration := Qmake (end_ - start) 1000000;
                  result := Bool res;
                  timeout := Some false;
                  error := None |} ] |}
      else
        {| regex_of := after run; runtime_of := rt;
           results_of := results_of st ++
             [ {| inputLength := List.length input;
                  duration := 5000;
                  result := Text (lit "timeout");
                  timeout := Some true;
                  error := None |} ] |}
  | Throw message =>
      let rt := clearTimeout timeoutId rt in
      {| regex_of := after run; runtime_of := rt;
         results_of := results_of st ++
           [ {| inputLength := List.length input;
                duration := 0;
                result := Text (lit "error");
                timeout := None;
                error := Some message |} ] |}
  end.

(** [new RegExp] is evaluated before the loop and outside its [try]: when it
    throws, so does [benchmarkPattern]. *)
Definition benchmarkPattern (pat fl : jsstring) (testInputs : list jsstring)
    (rt : runtime) : completion (list sample * runtime) :=
  match RegExp_new pat fl with
  | Throw message => Throw message
  | Normal regex =>
      let st := fold_left runSample testInputs
                  {| regex_of := regex; runtime_of := rt; results_of := [] |} in
      Normal (results_of st, runtime_of st)
  end.

(** An element of [allBenchmarks[project]]. *)
Record benchmark := {
  pattern : jsstring;
  file : jsstring;
  results : list sample
}.

(** [vulnerablePatterns.slice(0, 3).forEach] *)
Fixpoint benchmarkEach (vulns : list Quick.entry) (done : list benchmark)
    (rt : runtime) : completion (list benchmark * runtime) :=
  match vulns with
  | [] => Normal (done, rt)
  | vuln :: vulns' =>
      let testInputs := generateReDoSInputs (Quick.pattern vuln) in
      match benchmarkPattern (Quick.pattern vuln) (Quick.flags vuln)
                             testInputs rt with
      | Throw message => Throw message
      | Normal (benchmarkResults, rt') =>
          benchmarkEach vulns'
            (done ++ [ {| pattern := Quick.pattern vuln;
                          file := Quick.file vuln;
                          results := benchmarkResults |} ]) rt'
      end
  end.

(** [Object.keys(analysisResults.results).forEach]: the first loop of
    [main], over the projects of quick-analysis.json. *)
Fixpoint benchmarkProjects (projects : Quick.allResults)
    (allBenchmarks : list (jsstring * list benchmark)) (rt : runtime)
  : completion (list (jsstring * list benchmark) * runtime) :=
  match projects with
  | [] => Normal (allBenchmarks, rt)
  | (project, r) :: projects' =>
      let vulnerablePatterns := Quick.vulnerable r in
      if Nat.ltb 0 (List.length vulnerablePatterns) then
        match benchmarkEach (firstn 3 vulnerablePatterns) [] rt with
        | Throw message => Throw message
        | Normal (bs, rt') =>
            benchmarkProjects projects' (allBenchmarks ++ [(project, bs)]) rt'
        end
      else benchmarkProjects projects' allBenchmarks rt
  end.

(** The severities of the summary loop, per project and benchmark. *)
Definition summarize (allBenchmarks : list (jsstring * list benchmark))
  : list (jsstring * list status) :=
  List.map (fun pb => (fst pb, List.map (fun b => statusOf (results b)) (snd pb)))
           allBenchmarks.

End Engine.

End Benchmark.

(** ** Concrete engines and files

    Instances of the parameters, on which the functions above can be run. *)

Module Fixtures.

(** An expression object: its source, its flags and [lastIndex]. *)
Record regexObject := {
  source : jsstring;
  flagsOf : jsstring;
  lastIndex : nat
}.

(** An engine that predates the [v] flag: it rejects it, and accepts
    everything else. *)
Definition RegExp_new (pat fl : jsstring) : completion regexObject :=
  if includes fl (lit "v")
  then Throw (lit "Invalid flags supplied to RegExp constructor 'v'")
  else Normal {| source := pat; flagsOf := fl; lastIndex := 0 |}.

(** A detector that flags a quantified group under a quantifier. *)
Definition isSafe (re : regexObject)
  : completion Detector.analysisResult :=
  if includes (source re) (lit "+)+")
  then Normal {| Detector.safe := false;
                 Detector.score := {| Detector.infinite := true;
                                      Detector.value := 0 |} |}
  else Normal {| Detector.safe := true;
                 Detector.score := {| Detector.infinite := false;
                                      Detector.value := 1 |} |}.

(** Lower case of the ASCII letters. *)
Definition toLowerCase (s : jsstring) : jsstring :=
  List.map (fun c => if N.leb 65 c && N.leb c 90 then (c + 32)%N else c) s.

(** A [test] that fails to match after [ms] milliseconds. *)
Definition testTaking (ms : Z) (re : regexObject) (input : jsstring)
  : Benchmark.testRun regexObject :=
  {| Benchmark.after := re;
     Benchmark.answer := Normal false;
     Benchmark.nanoseconds := ms * 1000000 |}.

(** A file system made of the listed files. *)
Definition named (name content : string) : jsstring * jsstring :=
  (lit name, lit content).

Definition files (l : list (jsstring * jsstring)) : filesystem :=
  let find (p : jsstring) :=
    List.find (fun kv => Quick.jsstring_eqb p (fst kv)) l in
  {| existsSync := fun p => match find p with Some _ => true | None => false end;
     readFileSync := fun p =>
       match find p with
       | Some kv => Normal (snd kv)
       | None => Throw (lit "ENOENT: no such file or directory")
       end |}.

End Fixtures.

(** Sample sequences and patterns for the benchmark. *)

Module BenchmarkCases.
Import Benchmark.

(** Three samples as the shipped results have them: the smallest input is
    the slowest. *)
Definition warmup : list sample :=
  [ {| inputLength := 22; duration := 1500; result := Bool false;
       timeout := Some false; error := None |};
    {| inputLength := 52; duration := 3; result := Bool false;
       timeout := Some false; error := None |};
    {| inputLength := 102; duration := 2; result := Bool false;
       timeout := Some false; error := None |} ].

(** A pattern that triggers two of the generator's heuristics. *)
Definition cardAndHsl : jsstring := lit "5[1-5]hsla?".

(** The nested-quantifier pattern, and two entries of the vulnerable
    sequence of quick-analysis.json: the first carries the [v] flag. *)
Definition nested : jsstring := lit "^(a+)+$".


Definition nestedEntry : Quick.entry :=
  {| Quick.pattern := nested; Quick.flags := [];
     Quick.file := lit "lib/check.js";
     Quick.score := None; Quick.infinite := None |}.

End BenchmarkCases.

(** Source files and candidates for extraction and analysis. *)

Module ExtractionCases.
Import Extractor.

(** A source file whose only expression is built from a variable. *)
Definition fromVariable : filesystem :=
  Fixtures.files [Fixtures.named "a.js" "const re = new RegExp(userInput, 'g');"].

(** A source file whose only expression is built from a quoted string, and
    the entry extraction records for it. *)
Definition fromString : filesystem :=
  Fixtures.files [Fixtures.named "b.js" "const re = new RegExp('^(a+)+$', 'g');"].

Definition fromStringEntry : patternInfo :=
  {| type := constructor; pattern := lit "^(a+)+$"; flags := [];
     full := lit "new RegExp('^(a+)+$', 'g')"; file := lit "b.js";
     analysis := None; error := None |}.

(** A file holding one literal whose pattern is [n] times the letter a. *)
Definition literalOf (n : nat) : filesystem :=
  {| existsSync := fun _ => true;
     readFileSync := fun _ =>
       Normal (lit "/" ++ JS.repeat (lit "a") n ++ lit "/") |}.

(** A file whose only expression carries the flags u and i. *)
Definition unicodeFile : filesystem :=
  Fixtures.files [Fixtures.named "src/lib/slug.js" "const re = /^(a+)+$/ui;"].

(** A candidate of [analyzePatterns] with the flags i and u. *)
Definition unicodeEntry : Quick.entry :=
  {| Quick.pattern := lit "^(\w+\s?)+$"; Quick.flags := lit "iu";
     Quick.file := lit "src/lib/words.js";
     Quick.score := None; Quick.infinite := None |}.

(** A literal within the length bounds that holds the escape
    backslash-n. *)
Definition newlineFile : filesystem :=
  Fixtures.files [Fixtures.named "src/lines.js" "text.split(/(\s+\n)+$/g);"].

(** Two files of one project that hold the same literal. *)
Definition twins : filesystem :=
  Fixtures.files
    [ Fixtures.named "analysis/projects/validator.js/src/lib/isA.js"
                     "export default /^(a+)+$/i;";
      Fixtures.named "analysis/projects/validator.js/src/lib/isB.js"
                     "const check = /^(a+)+$/i;" ].

End ExtractionCases.

(** ** The rest of the analysers  (evaluate-tools.js) *)

(** *** The unfiltered analyser  (lines 606-680)

    The variant of [analyzeProject] that goes with the unfiltered
    extractor: no limit, no guard, and every error is recorded. *)

Module Plain.
Import Extractor.

Section Analysis.

Variable RegExp : Type.
Variable RegExp_new : jsstring -> jsstring -> completion RegExp.
Variable isSafe : RegExp -> completion Detector.analysisResult.

(** Body of [for (const patternInfo of allPatterns)]. *)
Definition classifyOne (p : patternInfo) : outcome :=
  match RegExp_new (pattern p) (flags p) with
  | Throw message => ToError (with_error p message)
  | Normal regexObj =>
      match isSafe regexObj with
      | Throw message => ToError (with_error p message)
      | Normal a =>
          if Detector.safe a then ToSafe (with_analysis p a)
          else ToVulnerable (with_analysis p a)
      end
  end.

Definition analysisLoop (ps : list patternInfo) : buckets :=
  fold_left (fun b p => push b (classifyOne p)) ps noBuckets.

Definition analyzeProject (fs : filesystem) (jsFiles : list jsstring)
  : results :=
  let allPatterns := Unfiltered.collect fs jsFiles in
  let b := analysisLoop allPatterns in
  {| summary_of :=
       {| totalFiles := List.length jsFiles;
          totalPatterns := List.length allPatterns;
          safeCount := List.length (safePatterns b);
          vulnerableCount := List.length (vulnerablePatterns b);
          errorCount := List.length (errorPatterns b) |};
     reportVulnerable := vulnerablePatterns b;
     reportSafe := firstn 10 (safePatterns b);
     reportError := errorPatterns b |}.

End Analysis.

End Plain.

(** *** [main] of the extractor scripts  (lines 426-497 and 682-748)

    The three projects are analysed when their directory exists, and the
    totals are summed over the projects analysed.  The rate
    [vulnerabilityRate] is a formatted floating-point number and is left
    out. *)

Module Driver.
Import Extractor.

Record project := { path : jsstring; name : jsstring }.

Definition projects : list project :=
  [ {| path := lit "analysis/projects/validator.js"; name := lit "validator.js" |};
    {| path := lit "analysis/projects/moment"; name := lit "moment.js" |};
    {| path := lit "analysis/projects/chalk"; name := lit "chalk" |} ].

Record totals := {
  totalPatterns_ : nat;
  totalVulnerable : nat;
  totalSafe : nat
}.

Section Main.

(** [analyzeProject(project.path, project.name)], either variant, with the
    directory walk it starts with. *)
Variable analyze : project -> results.
Variable fs : filesystem.

(** [for (const project of projects)] *)
Definition analyseAll (ps : list project) : list results :=
  fold_left (fun allResults p =>
               if existsSync fs (path p) then allResults ++ [analyze p]
               else allResults) ps [].

(** [allResults.forEach(result => { totalPatterns += ...; ... })] *)
Definition sumUp (allResults : list results) : totals :=
  fold_left (fun t result =>
               {| totalPatterns_ :=
                    totalPatterns_ t + totalPatterns (summary_of result);
                  totalVulnerable :=
                    totalVulnerable t + vulnerableCount (summary_of result);
                  totalSafe := totalSafe t + safeCount (summary_of result) |})
            allResults
            {| totalPatterns_ := 0; totalVulnerable := 0; totalSafe := 0 |}.

Definition main : list summary * totals :=
  let allResults := analyseAll projects in
  (List.map summary_of allResults, sumUp allResults).

End Main.

End Driver.

(** ** The engine calls of a benchmark

    The vocabulary for what [benchmarkPattern] records: the calls of [test]
    it makes, each on the expression object the previous call left, and the
    sample a call is recorded as. *)

Module Calls.
Import Benchmark.

Section Engine.

Variable RegExp : Type.
Variable test : RegExp -> jsstring -> testRun RegExp.

Fixpoint trace (regex : RegExp) (inputs : list jsstring)
  : list (jsstring * testRun RegExp) :=
  match inputs with
  | [] => []
  | input :: inputs' =>
      let run := test regex input in
      (input, run) :: trace (after run) inputs'
  end.

Definition sampleOf (call : jsstring * testRun RegExp) : sample :=
  let (input, run) := call in
  match answer run with
  | Normal res =>
      {| inputLength := List.length input;
         duration := Qmake (nanoseconds run) 1000000;
         result := Bool res; timeout := Some false; error := None |}
  | Throw message =>
      {| inputLength := List.length input; duration := 0;
         result := Text (lit "error"); timeout := None;
         error := Some message |}
  end.

(** The call returned, and took more than [ns] nanoseconds. *)
Definition slowCall (ns : Z) (calls : list (jsstring * testRun RegExp)) : Prop :=
  exists call res,
    In call calls /\ answer (snd call) = Normal res /\
    (ns < nanoseconds (snd call))%Z.

End Engine.

(** The engine accepts the pattern and flags of the entry. *)
Definition compiles (RegExp : Type)
    (RegExp_new : jsstring -> jsstring -> completion RegExp)
    (v : Quick.entry) : Prop :=
  exists regex, RegExp_new (Quick.pattern v) (Quick.flags v) = Normal regex.

(** What a benchmark keeps of the entry it was made for. *)
Definition labelOf (v : Quick.entry) : jsstring * jsstring :=
  (Quick.pattern v, Quick.file v).

(** The projects of quick-analysis.json that list a vulnerable pattern. *)
Definition benchmarked (projects : Quick.allResults) : Quick.allResults :=
  filter (fun pr => Nat.ltb 0 (List.length (Quick.vulnerable (snd pr))))
         projects.

(** The timers of a runtime carry identifiers already handed out. *)
Definition wellFormed (rt : runtime) : Prop :=
  Forall (fun t => timerId t < nextTimerId rt) (timers rt).

End Calls.

(** ** Comparison of the detection tools  (evaluate-tools.js, lines 1-179) *)

Module Tools.

(** The statuses are the strings ['SAFE'], ['VULNERABLE'] and ['ERROR']. *)
Definition SAFE : jsstring := lit "SAFE".
Definition VULNERABLE : jsstring := lit "VULNERABLE".
Definition ERROR : jsstring := lit "ERROR".

Record testCase := {
  pattern : jsstring;
  description : jsstring;
  expected : jsstring;
  source : jsstring
}.

Definition testCases : list testCase :=
  [ {| pattern := lit "^(a+)+$";
       description := lit "Classic nested quantifier - vulnerable";
       expected := VULNERABLE; source := lit "OWASP ReDoS examples" |};
    {| pattern := lit "^(a|a)*$";
       description := lit "Alternation with overlap - vulnerable";
       expected := VULNERABLE; source := lit "Known ReDoS pattern" |};
    {| pattern := lit "(a+)+b";
       description := lit "Nested quantifiers - vulnerable";
       expected := VULNERABLE; source := lit "Classic ReDoS example" |};
    {| pattern := lit "^([a-zA-Z0-9])(([\.\-])?([a-zA-Z0-9]+))*([a-zA-Z0-9])@([a-zA-Z0-9])(([\.\-])?([a-zA-Z0-9]+))*([a-zA-Z0-9])\.[a-zA-Z]{2,4}$";
       description := lit "Complex email validation - potentially vulnerable";
       expected := VULNERABLE; source := lit "Real-world email regex" |};
    {| pattern := lit "^[a-zA-Z0-9]+$";
       description := lit "Simple character class - safe";
       expected := SAFE; source := lit "Basic validation" |};
    {| pattern := lit "\d{3}-\d{2}-\d{4}";
       description := lit "Fixed length pattern - safe";
       expected := SAFE; source := lit "SSN format" |};
    {| pattern := lit "^[a-z]+@[a-z]+\.[a-z]{2,4}$";
       description := lit "Simple email - safe";
       expected := SAFE; source := lit "Basic email validation" |} ].

(** The objects pushed on [details]; only the detector's carry a score. *)
Record detail := {
  pattern_ : jsstring;
  expected_ : jsstring;
  actual : jsstring;
  correct_ : bool;
  score : option Detector.Score
}.

(** [{ correct, total, details }] *)
Record tally := { correct : nat; total : nat; details : list detail }.

(** [results]: the tally of 'safe-regex' and that of 'redos-detector', in
    the order of its keys. *)
Record results := { safe_regex : tally; redos_detector : tally }.

Definition count (t : tally) (d : detail) : tally :=
  {| correct := if correct_ d then S (correct t) else correct t;
     total := S (total t);
     details := details t ++ [d] |}.

Section Tools.

Variable RegExp : Type.
(** [safeRegex(pattern)] of safe-regex *)
Variable safeRegex : jsstring -> completion bool.
(** [new RegExp(pattern)] *)
Variable RegExp_new : jsstring -> completion RegExp.
(** [isSafe] of redos-detector, on an expression object or on a string *)
Variable isSafe : RegExp + jsstring -> completion Detector.analysisResult.

(** The first [try] of the loop body. *)
Definition withSafeRegex (testCase : testCase) : detail :=
  match safeRegex (pattern testCase) with
  | Normal safeResult =>
      let safeStatus := if safeResult then SAFE else VULNERABLE in
      let safeCorrect := Quick.jsstring_eqb safeStatus (expected testCase) in
      {| pattern_ := pattern testCase; expected_ := expected testCase;
         actual := safeStatus; correct_ := safeCorrect; score := None |}
  | Throw _ =>
      {| pattern_ := pattern testCase; expected_ := expected testCase;
         actual := ERROR; correct_ := false; score := None |}
  end.

(** The second [try] of the loop body. *)
Definition withRedosDetector (testCase : testCase) : detail :=
  let regexPattern :=
    match RegExp_new (pattern testCase) with
    | Normal regex => inl regex
    | Throw _ => inr (pattern testCase)
    end in
  match isSafe regexPattern with
  | Normal redosResult =>
      let redosStatus :=
        if Detector.safe redosResult then SAFE else VULNERABLE in
      let redosCorrect := Quick.jsstring_eqb redosStatus (expected testCase) in
      {| pattern_ := pattern testCase; expected_ := expected testCase;
         actual := redosStatus; correct_ := redosCorrect;
         score := Some (Detector.score redosResult) |}
  | Throw _ =>
      {| pattern_ := pattern testCase; expected_ := expected testCase;
         actual := ERROR; correct_ := false; score := None |}
  end.

(** [testCases.forEach] *)
Definition evaluate (cases : list testCase) : results :=
  fold_left (fun r testCase =>
               {| safe_regex := count (safe_regex r) (withSafeRegex testCase);
                  redos_detector :=
                    count (redos_detector r) (withRedosDetector testCase) |})
            cases
            {| safe_regex := {| correct := 0; total := 0; details := [] |};
               redos_detector := {| correct := 0; total := 0; details := [] |} |}.

Definition evaluateTools : results := evaluate testCases.

(** [total > 0 ? correct / total : 0]: a ratio of two small integers. *)
Definition accuracy (t : tally) : Q :=
  if Nat.ltb 0 (total t)
  then Qmake (Z.of_nat (correct t)) (Pos.of_nat (total t))
  else 0%Q.

(** [Object.keys(results).reduce((best, current) => ...)] *)
Definition bestTool (r : results) : jsstring :=
  let best := lit "safe-regex" in
  let current := lit "redos-detector" in
  let bestAccuracy := accuracy (safe_regex r) in
  let currentAccuracy := accuracy (redos_detector r) in
  if negb (Qle_bool currentAccuracy bestAccuracy) then current else best.

End Tools.

(** The details that are marked correct. *)
Definition marked (ds : list detail) : nat :=
  List.length (filter correct_ ds).

End Tools.

(** ** The directory walk  (evaluate-tools.js, [findJavaScriptFiles]) *)

Module Walk.

(** What [readdirSync] and [statSync] show of a directory: its items by
    name, each a file, a directory or something else. *)
#[warnings="-register-all"]
Inductive node :=
| File
| Directory (items : list (jsstring * node))
| Other.

Definition skippedNames : list jsstring :=
  [ lit "node_modules"; lit ".git"; lit "coverage"; lit "dist"; lit "build";
    lit "test"; lit "tests"; lit "__tests__" ].

Definition defaultExtensions : list jsstring :=
  [ lit ".js"; lit ".ts"; lit ".jsx"; lit ".tsx" ].

(** [list.includes(x)] on an array of strings *)
Definition includesName (l : list jsstring) (x : jsstring) : bool :=
  existsb (Quick.jsstring_eqb x) l.

Section Path.

(** [path.join] and [path.extname] of the platform *)
Variable join : jsstring -> jsstring -> jsstring.
Variable extname : jsstring -> jsstring.
Variable extensions : list jsstring.

(** One turn of the loop of [walkDir], on the item [item] of full path
    [fullPath]. *)
Fixpoint walkItem (fullPath item : jsstring) (n : node) (files : list jsstring)
  {struct n} : list jsstring :=
  match n with
  | Directory items =>
      if negb (includesName skippedNames item)
      then (fix walkDir (items : list (jsstring * node))
                (files : list jsstring) {struct items} : list jsstring :=
              match items with
              | [] => files
              | (it, n') :: rest =>
                  walkDir rest (walkItem (join fullPath it) it n' files)
              end) items files
      else files
  | File =>
      if includesName extensions (extname item)
      then files ++ [fullPath]
      else files
  | Other => files
  end.

Fixpoint walkDir (currentDir : jsstring) (items : list (jsstring * node))
    (files : list jsstring) : list jsstring :=
  match items with
  | [] => files
  | (it, n) :: rest =>
      walkDir currentDir rest (walkItem (join currentDir it) it n files)
  end.

(** [findJavaScriptFiles(dir, extensions)], where [items] is the content of
    [dir]. *)
Definition findJavaScriptFiles (dir : jsstring)
    (items : list (jsstring * node)) : list jsstring :=
  walkDir dir items [].

End Path.

(** A file named [f] lies in the tree under the directories [names]. *)
Fixpoint located (items : list (jsstring * node)) (names : list jsstring)
    (f : jsstring) : Prop :=
  match names with
  | [] => In (f, File) items
  | d :: names' =>
      exists sub, In (d, Directory sub) items /\ located sub names' f
  end.

(** The directories [names] are walked into and the extension of [f] is
    one of those looked for. *)
Definition kept (extname : jsstring -> jsstring) (extensions : list jsstring)
    (names : list jsstring) (f : jsstring) : Prop :=
  Forall (fun d => includesName skippedNames d = false) names /\
  includesName extensions (extname f) = true.

Section Contribution.

Variable join : jsstring -> jsstring -> jsstring.
Variable extname : jsstring -> jsstring.
Variable extensions : list jsstring.

(** What one item contributes. *)
Definition contribution (fullPath item : jsstring) (n : node) (p : jsstring)
  : Prop :=
  match n with
  | File => includesName extensions (extname item) = true /\ p = fullPath
  | Directory items =>
      includesName skippedNames item = false /\
      exists names f,
        located items names f /\ kept extname extensions names f /\
        p = fold_left join (names ++ [f]) fullPath
  | Other => False
  end.

Definition faithful (n : node) : Prop :=
  forall fullPath item,
    (forall files,
       walkItem join extname extensions fullPath item n files = files ++ walkItem join extname extensions fullPath item n [])
    /\ forall p, In p (walkItem join extname extensions fullPath item n [])
                 <-> contribution fullPath item n p.

End Contribution.

End Walk.

(** ** Vocabulary for the texts that extraction records *)

Module Shapes.

(** The expression holds no capture group. *)
Fixpoint groupless (r : regex) : bool :=
  match r with
  | Seq a b | Alt a b => groupless a && groupless b
  | Star a | NotAhead a => groupless a
  | Group _ _ => false
  | Empty | Chr _ | Bol | Eol => true
  end.

(** [m] occurs in [s]. *)
Definition slice (s m : jsstring) : Prop :=
  exists pre post, s = pre ++ m ++ post.

Definition flagText (fl : jsstring) : Prop :=
  Forall (fun c => flagChar c = true) fl.

Definition oneLine (pat : jsstring) : Prop :=
  Forall (fun c => isLineTerminator c = false) pat.

Definition quoteFree (pat : jsstring) : Prop :=
  Forall (fun c => c <> 39%N /\ c <> 34%N) pat.

(** The text of a literal: a slash, a pattern that opens with neither a
    star nor a slash, a slash, flags. *)
Definition literalText (m pat fl : jsstring) : Prop :=
  m = 47%N :: pat ++ 47%N :: fl /\
  flagText fl /\ oneLine pat /\
  exists x t, pat = x :: t /\ x <> 42%N /\ x <> 47%N.

(** The text of a constructor call as extraction reads it: somewhere in
    it the keyword, the name, the parenthesis, then the pattern between
    two quote characters. *)
Definition constructorText (m pat : jsstring) : Prop :=
  exists pre sp1 sp2 sp3 q q' post,
    m = pre ++ lit "new" ++ sp1 ++ lit "RegExp" ++ sp2 ++ lit "(" ++ sp3
        ++ q :: pat ++ q' :: post /\
    Extractor.spaces sp1 /\ Extractor.spaces sp2 /\ Extractor.spaces sp3 /\ Extractor.isQuote q /\ Extractor.isQuote q' /\
    quoteFree pat.

(** Like [sound], for a matcher that leaves the captures as they are. *)
Definition steady (m : matcher) (L : jsstring -> Prop) : Prop :=
  forall b s c k res,
    m b s c k = Some res ->
    exists w s' b', s = w ++ s' /\ L w /\ k b' s' c = Some res.

(** The body of a literal as [regexPatterns[0]] reads it: code units other
    than slash, line feed, carriage return and backslash, and backslash
    pairs. *)
Fixpoint wellEscaped (s : jsstring) : bool :=
  match s with
  | [] => true
  | x :: s' =>
      if N.eqb x 92
      then match s' with
           | [] => false
           | _ :: s'' => wellEscaped s''
           end
      else negb (N.eqb x 47 || N.eqb x 10 || N.eqb x 13) && wellEscaped s'
  end.

(** A pattern that both expressions of the literal loop read whole. *)
Definition readable (pat : jsstring) : bool :=
  match pat with
  | [] => false
  | x :: _ => negb (N.eqb x 42)
  end
  && wellEscaped pat
  && forallb (fun c => negb (isLineTerminator c)) pat.

Definition slashFree (pre : jsstring) : bool :=
  forallb (fun c => negb (N.eqb c 47)) pre.

(** The text after a literal does not go on with a flag letter. *)
Definition stops (post : jsstring) : bool :=
  match post with
  | [] => true
  | y :: _ => negb (flagChar y)
  end.

Definition literalOf (filePath pat fl : jsstring) : Extractor.patternInfo :=
  {| Extractor.type := Extractor.literal; Extractor.pattern := pat;
     Extractor.flags := fl;
     Extractor.full := 47%N :: pat ++ 47%N :: fl;
     Extractor.file := filePath;
     Extractor.analysis := None; Extractor.error := None |}.

Definition quickOf (filePath pat fl : jsstring) : Quick.entry :=
  {| Quick.pattern := pat; Quick.flags := fl; Quick.file := filePath;
     Quick.score := None; Quick.infinite := None |}.

(** The entry is a literal. *)
Definition isLiteral (p : Extractor.patternInfo) : bool :=
  match Extractor.type p with
  | Extractor.literal => true
  | Extractor.constructor => false
  end.

(** What the quick extraction keeps of an occurrence. *)
Definition quickEntry (p : Extractor.patternInfo) : Quick.entry :=
  {| Quick.pattern := Extractor.pattern p; Quick.flags := Extractor.flags p;
     Quick.file := Extractor.file p;
     Quick.score := None; Quick.infinite := None |}.

(** The units of a well escaped text. *)
Definition bodyUnit (tok : jsstring) : Prop :=
  (exists x, tok = [x] /\
             negb (N.eqb x 47 || N.eqb x 10 || N.eqb x 13 || N.eqb x 92) = true)
  \/ (exists y, tok = [92%N; y]).

End Shapes.

(** ** Which files of the quick analysis count *)

Module Projects.

(** The file is read and yields a pattern. *)
Definition productive (fs : filesystem) (f : jsstring) : Prop :=
  existsSync fs f = true /\ Quick.quickExtract fs f <> [].

End Projects.

(** ** Sample files for the texts *)

Module ShapeCases.
Import Extractor.
(** A source file with one literal and one constructor call. *)
Definition mixed : filesystem :=
  Fixtures.files
    [Fixtures.named "src/lib/isHex.js"
       "const hex = /^[0-9a-fA-F]+$/i; const ab = new RegExp('^(a|b)+$', 'g');"].

Definition hexEntry : patternInfo :=
  {| type := literal; pattern := lit "^[0-9a-fA-F]+$"; flags := lit "i";
     full := lit "/^[0-9a-fA-F]+$/i"; file := lit "src/lib/isHex.js";
     analysis := None; error := None |}.

Definition hexQuick : Quick.entry :=
  {| Quick.pattern := lit "^[0-9a-fA-F]+$"; Quick.flags := lit "i";
     Quick.file := lit "src/lib/isHex.js";
     Quick.score := None; Quick.infinite := None |}.

Definition abEntry : patternInfo :=
  {| type := constructor; pattern := lit "^(a|b)+$"; flags := [];
     full := lit "new RegExp('^(a|b)+$', 'g')"; file := lit "src/lib/isHex.js";
     analysis := None; error := None |}.

(** The parts of the content of [mixed] around its literal. *)
Definition hexBefore : jsstring := lit "const hex = ".
Definition hexPattern : jsstring := lit "^[0-9a-fA-F]+$".
Definition hexFlags : jsstring := lit "i".
Definition hexAfter : jsstring :=
  lit "; const ab = new RegExp('^(a|b)+$', 'g');".

(** A source file whose literal holds backslash pairs, and its parts. *)
Definition decimal : filesystem :=
  Fixtures.files
    [Fixtures.named "src/lib/isDecimal.js" "export default /^\d+(\.\d+)?$/g;"].

Definition decimalBefore : jsstring := lit "export default ".
Definition decimalPattern : jsstring := lit "^\d+(\.\d+)?$".
Definition decimalFlags : jsstring := lit "g".
Definition decimalAfter : jsstring := lit ";".
End ShapeCases.

(** * Properties *)

(** ** Severity of a benchmarked pattern *)

Module SeverityFacts.
Import Benchmark BenchmarkCases.

Local Open Scope Q_scope.

Lemma Qle_bool_false (x y : Q) : Qle_bool x y = false -> y < x.
Proof.
  intro H. apply Qnot_le_lt. intro Hle. apply Qle_bool_iff in Hle. congruence.
Qed.

Lemma exceeds_fold (t : Q) (xs : list Q) (m : number) :
  exceeds
    (fold_left (fun m x =>
                  match m with
                  | NegInfinity => Finite x
                  | Finite y => if Qle_bool x y then Finite y else Finite x
                  end) xs m) t
  = exceeds m t || existsb (fun x => negb (Qle_bool x t)) xs.
Proof.
  revert m. induction xs as [|x xs IH]; intro m; simpl.
  - now rewrite orb_false_r.
  - rewrite IH. destruct m as [|y]; simpl; [reflexivity|].
    destruct (Qle_bool x y) eqn:Hxy, (Qle_bool x t) eqn:Hxt,
             (Qle_bool y t) eqn:Hyt; simpl; rewrite ?Hxt, ?Hyt; simpl;
      try reflexivity; exfalso;
      repeat match goal with
             | H : Qle_bool _ _ = true |- _ => apply Qle_bool_iff in H
             | H : Qle_bool _ _ = false |- _ => apply Qle_bool_false in H
             end; lra.
Qed.

(** [Math.max(...xs) > t] holds exactly when some argument exceeds [t]. *)
Lemma exceeds_mathMax (t : Q) (xs : list Q) :
  exceeds (mathMax xs) t = existsb (fun x => negb (Qle_bool x t)) xs.
Proof. unfold mathMax. now rewrite exceeds_fold. Qed.

Lemma gt_iff (q t : Q) : negb (Qle_bool q t) = true <-> t < q.
Proof.
  rewrite negb_true_iff. split; intro H.
  - now apply Qle_bool_false.
  - destruct (Qle_bool q t) eqn:E; [|reflexivity].
    apply Qle_bool_iff in E. exfalso. eapply Qlt_not_le; eassumption.
Qed.

Lemma truthy_iff (o : option bool) : truthy o = true <-> o = Some true.
Proof. destruct o as [[|]|]; simpl; split; congruence. Qed.

Lemma hasTimeout_iff (rs : list sample) :
  existsb (fun r => truthy (timeout r)) rs = true <-> timedOutSample rs.
Proof.
  rewrite existsb_exists. unfold timedOutSample.
  split; intros [r [Hin H]]; exists r; split; auto; now apply truthy_iff.
Qed.

Lemma maxTime_exceeds_iff (t : Q) (rs : list sample) :
  exceeds (mathMax (List.map duration
             (filter (fun r => negb (truthy (timeout r))) rs))) t = true
  <-> slowSample t rs.
Proof.
  rewrite exceeds_mathMax, existsb_exists. unfold slowSample. split.
  - intros [x [Hin Hx]]. apply in_map_iff in Hin.
    destruct Hin as [r [Hr Hin]]. apply filter_In in Hin.
    destruct Hin as [Hin Hnt]. exists r. subst x. repeat split; auto.
    + intro E. apply truthy_iff in E. rewrite E in Hnt. discriminate.
    + now apply gt_iff.
  - intros [r [Hin [Hnt Hlt]]]. exists (duration r). split.
    + apply in_map. apply filter_In. split; auto.
      destruct (truthy (timeout r)) eqn:E; [|reflexivity].
      apply truthy_iff in E. contradiction.
    + now apply gt_iff.
Qed.

(** C2, as stated, fails: no sample timed out and the largest input (102
    characters) took 2 ms, so the stated rule gives LOW, but the code
    reports HIGH because the 22-character input took 1500 ms. *)
Lemma C2_largest_input_counterexample :
  existsb (fun r => truthy (timeout r)) warmup = false /\
  (exists r, largestInput warmup = Some r /\ inputLength r = 102%nat
             /\ duration r = 2) /\
  severityByLargestInput warmup = LOW /\
  statusOf warmup = HIGH.
Proof.
  split; [reflexivity|]. split.
  - eexists. split; [reflexivity|]. split; reflexivity.
  - split; reflexivity.
Qed.

(** C2 (amended): the severity is CRITICAL if some sample has its timeout
    flag set; otherwise HIGH if the largest elapsed time over all samples
    (whatever their input length) exceeds 1000 ms; otherwise MEDIUM if it
    exceeds 100 ms; otherwise LOW. *)
Theorem C2_status_by_maximum (rs : list sample) :
  (statusOf rs = CRITICAL <-> timedOutSample rs) /\
  (statusOf rs = HIGH <-> ~ timedOutSample rs /\ slowSample 1000 rs) /\
  (statusOf rs = MEDIUM <->
     ~ timedOutSample rs /\ ~ slowSample 1000 rs /\ slowSample 100 rs) /\
  (statusOf rs = LOW <->
     ~ timedOutSample rs /\ ~ slowSample 1000 rs /\ ~ slowSample 100 rs).
Proof.
  pose proof (hasTimeout_iff rs) as HT.
  pose proof (maxTime_exceeds_iff 1000 rs) as HH.
  pose proof (maxTime_exceeds_iff 100 rs) as HM.
  unfold statusOf.
  destruct (existsb (fun r => truthy (timeout r)) rs);
    [| destruct (exceeds _ 1000); [| destruct (exceeds _ 100)]].
  all: repeat split; try discriminate; try tauto.
  all: try (intros [? ?]; exfalso; intuition congruence).
  all: try (intro; exfalso; intuition congruence).
  all: intuition congruence.
Qed.

End SeverityFacts.

(** ** The adversarial inputs and the order of the samples *)

Module InputFacts.
Import Benchmark BenchmarkCases.

Lemma ascendingTriples_ge3 (ls : list nat) :
  ls <> [] -> ascendingTriples ls -> 3 <= List.length ls.
Proof.
  destruct ls as [|a [|b [|c ls']]]; simpl; intros Hne H;
    try contradiction; try congruence; lia.
Qed.

Lemma generateReDoSInputs_lengths (pat : jsstring) :
  let ls := List.map (@List.length N) (generateReDoSInputs pat) in
  ls <> [] /\ ascendingTriples ls.
Proof.
  unfold generateReDoSInputs.
  destruct (includes pat (lit "5[1-5]") || includes pat (lit "222"));
  destruct (includes pat (lit "a-z") && includes pat (lit "{2,}"));
  destruct (includes pat (lit "hsla?"));
  destruct (includes pat (lit "Mon|Tue|Wed"));
  destruct (includes pat (lit "\[") && includes pat (lit "MM?M?M?"));
  destruct (includes pat (lit "\s\s*"));
  vm_compute; (split; [discriminate | repeat split; lia]).
Qed.

Section Samples.

Variable RegExp : Type.
Variable RegExp_new : jsstring -> jsstring -> completion RegExp.
Variable test : RegExp -> jsstring -> testRun RegExp.

Lemma runSample_results (st : loopState RegExp) (input : jsstring) :
  List.map inputLength (results_of (runSample test st input))
  = List.map inputLength (results_of st) ++ [List.length input].
Proof.
  unfold runSample. simpl.
  destruct (answer (test (regex_of st) input));
    [destruct (negb (readCell _ _))|]; simpl;
    now rewrite List.map_app.
Qed.

Lemma fold_runSample_lengths (inputs : list jsstring) (st : loopState RegExp) :
  List.map inputLength (results_of (fold_left (runSample test) inputs st))
  = List.map inputLength (results_of st) ++ List.map (@List.length N) inputs.
Proof.
  revert st. induction inputs as [|i inputs IH]; intro st; simpl.
  - now rewrite app_nil_r.
  - rewrite IH, runSample_results, <- app_assoc. reflexivity.
Qed.

(** Once the expression compiles, there is one sample per input, in the
    order of the inputs. *)
Lemma benchmarkPattern_lengths (pat fl : jsstring) (inputs : list jsstring)
    (rt : runtime) (regex : RegExp) :
  RegExp_new pat fl = Normal regex ->
  exists rs rt',
    benchmarkPattern RegExp_new test pat fl inputs rt = Normal (rs, rt') /\
    List.map inputLength rs = List.map (@List.length N) inputs.
Proof.
  intro Hnew. unfold benchmarkPattern. rewrite Hnew.
  eexists. eexists. split; [reflexivity|].
  now rewrite fold_runSample_lengths.
Qed.

End Samples.

(** [generateTestInputs] always ends with its default input and never
    returns more than five. *)
Lemma generateTestInputs_length (pat : jsstring) :
  1 <= List.length (Quick.generateTestInputs pat) <= 5.
Proof.
  unfold Quick.generateTestInputs.
  destruct (includes pat (lit "+")
            && (includes pat (lit "*") || includes pat (lit "+")));
  destruct (includes pat (lit "|"));
  destruct (includes pat (lit "@") || includes pat (lit "\."));
  destruct (includes pat (lit "http") || includes pat (lit "://"));
  simpl; lia.
Qed.

(** C9, as stated, fails: for this pattern the generator yields six inputs
    whose lengths are not in ascending order (102 is followed by 45); and
    the generator of quick-analysis.js yields a single input for a pattern
    that triggers none of its heuristics. *)
Lemma C9_not_ascending_counterexample :
  List.map (@List.length N) (generateReDoSInputs cardAndHsl)
  = [22; 52; 102; 45; 105; 205] /\
  List.map (@List.length N) (Quick.generateTestInputs (lit "[0-9]{4}")) = [101].
Proof. split; vm_compute; reflexivity. Qed.

End InputFacts.

(** ** The deadline and engine errors in [benchmarkPattern] *)

Module BenchmarkFacts.
Import Benchmark BenchmarkCases.

Section Engine.

Variable RegExp : Type.
Variable RegExp_new : jsstring -> jsstring -> completion RegExp.
Variable test : RegExp -> jsstring -> testRun RegExp.

Lemma nth_fresh (cs : list bool) : nth (List.length cs) (cs ++ [false]) false = false.
Proof. induction cs; simpl; auto. Qed.

(** When the engine call returns, the callback of the timer armed before it
    has not run: the [timedOut] variable still holds [false]. *)
Lemma timedOut_still_false (rt : runtime) (ns : Z) :
  let (timedOut, rt1) := declare rt in
  let (timeoutId, rt2) := setTimeout (SetTimedOut timedOut) 5000 rt1 in
  readCell timedOut (clearTimeout timeoutId (elapse ns rt2)) = false.
Proof. unfold readCell. simpl. apply nth_fresh. Qed.

Lemma runSample_no_timeout (st : loopState RegExp) (input : jsstring) :
  exists r,
    results_of (runSample test st input) = results_of st ++ [r] /\
    timeout r <> Some true.
Proof.
  unfold runSample. simpl.
  pose proof (timedOut_still_false (runtime_of st)
                (nanoseconds (test (regex_of st) input))) as Hcell.
  simpl in Hcell. unfold readCell in *. simpl in *.
  destruct (answer (test (regex_of st) input)).
  - rewrite Hcell. simpl. eexists. split; [reflexivity|]. simpl. discriminate.
  - eexists. split; [reflexivity|]. simpl. discriminate.
Qed.

Lemma fold_runSample_no_timeout (inputs : list jsstring) (st : loopState RegExp) :
  Forall (fun r => timeout r <> Some true) (results_of st) ->
  Forall (fun r => timeout r <> Some true)
         (results_of (fold_left (runSample test) inputs st)).
Proof.
  revert st. induction inputs as [|i inputs IH]; intros st H; simpl; auto.
  apply IH. destruct (runSample_no_timeout st i) as [r [Hr Ht]].
  rewrite Hr. apply Forall_app. split; auto.
Qed.

(** Whatever the engine does and however long it takes, no sample of
    [benchmarkPattern] carries the timeout flag. *)
Lemma benchmarkPattern_no_timeout (pat fl : jsstring) (inputs : list jsstring)
    (rt : runtime) (rs : list sample) (rt' : runtime) :
  benchmarkPattern RegExp_new test pat fl inputs rt = Normal (rs, rt') ->
  Forall (fun r => timeout r <> Some true) rs.
Proof.
  unfold benchmarkPattern. destruct (RegExp_new pat fl); [|discriminate].
  intro H. inversion H; subst. apply fold_runSample_no_timeout. constructor.
Qed.

(** A sample whose [test] call throws is recorded as an error, after the
    samples already taken. *)
Lemma runSample_error (st : loopState RegExp) (input message : jsstring) :
  answer (test (regex_of st) input) = Throw message ->
  results_of (runSample test st input)
  = results_of st ++
    [ {| inputLength := List.length input; duration := 0;
         result := Text (lit "error"); timeout := None;
         error := Some message |} ].
Proof. intro H. unfold runSample. simpl. now rewrite H. Qed.


End Engine.

(** C1 (code evaluated at the failing input): an engine call that takes
    6000 ms, beyond the 5000 ms deadline, is recorded with its duration and
    [timeout: false]; the timedOut branch is not taken, the timer is cleared
    and a later turn of the event loop changes nothing.  More generally,
    whatever the engine and the durations of its calls, no sample carries
    the timeout flag. *)
Theorem C1_slow_call_not_recorded_as_timeout :
  (exists r rt',
     benchmarkPattern Fixtures.RegExp_new (Fixtures.testTaking 6000)
       nested [] [JS.repeat (lit "a") 100 ++ lit "x"] startRuntime
     = Normal ([r], rt') /\
     (5000 < duration r)%Q /\
     timeout r = Some false /\
     result r = Bool false /\
     statusOf [r] = HIGH /\
     timers rt' = [] /\
     eventLoop rt' = rt') /\
  (forall (RegExp : Type)
          (RegExp_new : jsstring -> jsstring -> completion RegExp)
          (test : RegExp -> jsstring -> testRun RegExp)
          (pat fl : jsstring) (inputs : list jsstring) (rt : runtime),
     match benchmarkPattern RegExp_new test pat fl inputs rt with
     | Normal (rs, _) => Forall (fun r => timeout r <> Some true) rs
     | Throw _ => True
     end).
Proof.
  split.
  - eexists. eexists. split; [vm_compute; reflexivity|].
    repeat split; vm_compute; reflexivity.
  - intros RegExp RegExp_new test pat fl inputs rt.
    destruct (benchmarkPattern RegExp_new test pat fl inputs rt)
      as [[rs rt']|] eqn:E; [|exact I].
    eapply benchmarkPattern_no_timeout; eassumption.
Qed.


End BenchmarkFacts.

(** ** What a match of the engine looks like *)

Module RegexFacts.

Lemma star_loop_sound (step : matcher) (L : jsstring -> Prop) :
  sound step L ->
  forall fuel,
    sound (star_loop step fuel)
          (fun w => exists ws, w = List.concat ws /\ Forall L ws).
Proof.
  intros Hstep fuel. induction fuel as [|fuel IH]; intros b s c k res H.
  - simpl in H. exists [], s, b, c. repeat split; auto.
    exists []. split; auto.
  - simpl in H.
    destruct (step b s c _) as [r0|] eqn:E.
    + inversion H; subst r0; clear H.
      apply Hstep in E. destruct E as [w1 [s1 [b1 [c1 [Hs [Hw Hk]]]]]].
      destruct (Nat.ltb (List.length s1) (List.length s)); [|discriminate].
      apply IH in Hk. destruct Hk as [w2 [s2 [b2 [c2 [Hs2 [[ws [Hw2 Hws]] Hk]]]]]].
      exists (w1 ++ w2), s2, b2, c2. repeat split; auto.
      * rewrite Hs, Hs2. now rewrite app_assoc.
      * exists (w1 :: ws). split; [simpl; now rewrite Hw2 | now constructor].
    + exists [], s, b, c. repeat split; auto. exists []. split; auto.
Qed.

Lemma rmatch_sound (r : regex) : sound (rmatch r) (denote r).
Proof.
  induction r as [|p|r1 IH1 r2 IH2|r1 IH1 r2 IH2|r1 IH1|i r1 IH1|r1 IH1| |];
    intros b s c k res H; simpl in H.
  - exists [], s, b, c. simpl. auto.
  - destruct s as [|x s']; [discriminate|].
    destruct (p x) eqn:Hp; [|discriminate].
    exists [x], s', false, c. simpl. repeat split; auto. now exists x.
  - apply IH1 in H. destruct H as [w1 [s1 [b1 [c1 [Hs [Hw H]]]]]].
    apply IH2 in H. destruct H as [w2 [s2 [b2 [c2 [Hs2 [Hw2 H]]]]]].
    exists (w1 ++ w2), s2, b2, c2. repeat split; auto.
    + rewrite Hs, Hs2. now rewrite app_assoc.
    + simpl. now exists w1, w2.
  - destruct (rmatch r1 b s c k) as [r0|] eqn:E.
    + inversion H; subst r0. apply IH1 in E.
      destruct E as [w [s' [b' [c' [Hs [Hw Hk]]]]]].
      exists w, s', b', c'. simpl. auto.
    + apply IH2 in H. destruct H as [w [s' [b' [c' [Hs [Hw Hk]]]]]].
      exists w, s', b', c'. simpl. auto.
  - apply (star_loop_sound IH1) in H. exact H.
  - apply IH1 in H. destruct H as [w [s' [b' [c' [Hs [Hw Hk]]]]]].
    exists w, s', b'. eexists. simpl. repeat split; eauto.
  - destruct (rmatch r1 b s c accept); [discriminate|].
    exists [], s, b, c. simpl. auto.
  - destruct b; [|discriminate]. exists [], s, true, c. simpl. auto.
  - destruct s; [|discriminate]. exists [], [], b, c. simpl. auto.
Qed.

Lemma firstn_consumed (w s' : jsstring) :
  firstn (List.length (w ++ s') - List.length s') (w ++ s') = w.
Proof.
  rewrite List.length_app, Nat.add_sub.
  rewrite firstn_app, Nat.sub_diag, firstn_all. simpl. apply app_nil_r.
Qed.

(** The matched text of a match belongs to the expression's texts, and the
    input splits into it and the rest. *)
Lemma match_here_denote (r : regex) (b : bool) (s : jsstring) (f : found) :
  match_here r b s = Some f ->
  denote r (matched f) /\ s = matched f ++ rest f.
Proof.
  unfold match_here. destruct (rmatch r b s [] accept) as [[s' c]|] eqn:E;
    [|discriminate].
  intro H. inversion H; subst f; clear H. simpl.
  apply rmatch_sound in E. destruct E as [w [s1 [b1 [c1 [Hs [Hw Hk]]]]]].
  unfold accept in Hk. inversion Hk; subst s1 c1.
  subst s. rewrite firstn_consumed. auto.
Qed.

Lemma search_denote (r : regex) (s : jsstring) :
  forall b f, search r b s = Some f -> denote r (matched f).
Proof.
  induction s as [|x s IH]; intros b f H; simpl in H.
  - destruct (match_here r b []) eqn:E; [|discriminate].
    inversion H; subst. now apply match_here_denote in E.
  - destruct (match_here r b (x :: s)) eqn:E.
    + inversion H; subst. now apply match_here_denote in E.
    + eauto.
Qed.

(** Every text returned by a global match belongs to the expression's
    texts. *)
Lemma match_all_denote (r : regex) (s : jsstring) :
  Forall (denote r) (match_all r s).
Proof.
  unfold match_all. generalize (S (List.length s)) as fuel. generalize true as b.
  intros b fuel. revert b s.
  induction fuel as [|fuel IH]; intros b s; simpl; [constructor|].
  destruct (search r b s) as [f|] eqn:E; [|constructor].
  constructor; [eapply search_denote; eauto|].
  destruct (matched f); destruct (rest f); try constructor; apply IH.
Qed.

End RegexFacts.

(** ** What extraction records *)

Module ExtractionFacts.
Import RegexFacts Extractor ExtractionCases.

Lemma denote_word (cs w : jsstring) : denote (word cs) w -> w = cs.
Proof.
  revert w. induction cs as [|x cs IH]; intros w H; simpl in H; auto.
  destruct H as [u [v [Hw [[y [Hu Hy]] Hv]]]].
  apply N.eqb_eq in Hy. apply IH in Hv. subst. reflexivity.
Qed.

Lemma denote_star_chr (p : N -> bool) (w : jsstring) :
  denote (Star (Chr p)) w -> Forall (fun x => p x = true) w.
Proof.
  simpl. intros [ws [Hw Hws]]. subst w.
  induction Hws as [|u ws [x [Hu Hx]] _ IH]; simpl; [constructor|].
  subst u. simpl. now constructor.
Qed.

(** A text matched by one of the constructor expressions begins with the
    keyword, the constructor name and the opening parenthesis. *)
Lemma denote_constructorHead (r : regex) (w : jsstring) :
  denote (constructorHead r) w ->
  exists sp1 sp2 sp3 t,
    w = lit "new" ++ sp1 ++ lit "RegExp" ++ sp2 ++ lit "(" ++ sp3 ++ t /\
    spaces sp1 /\ spaces sp2 /\ spaces sp3 /\ denote r t.
Proof.
  unfold constructorHead. intro H.
  destruct H as [u1 [v1 [E1 [Hnew H]]]]. apply denote_word in Hnew.
  destruct H as [u2 [v2 [E2 [Hsp1 H]]]].
  destruct Hsp1 as [a [a' [Ea [[x [Hx Hxs]] Hsp1]]]].
  apply denote_star_chr in Hsp1.
  destruct H as [u3 [v3 [E3 [Hname H]]]]. apply denote_word in Hname.
  destruct H as [u4 [v4 [E4 [Hsp2 H]]]]. apply denote_star_chr in Hsp2.
  destruct H as [u5 [v5 [E5 [[y [Hy Hpar]] H]]]]. apply N.eqb_eq in Hpar.
  destruct H as [u6 [t [E6 [Hsp3 H]]]]. apply denote_star_chr in Hsp3.
  exists u2, u4, u6, t. subst. repeat split; auto.
  simpl. constructor; auto.
Qed.

(** A match of [regexPatterns[1]] is a constructor call whose first
    argument opens with a quote. *)
Lemma denote_constructorRegex (w : jsstring) :
  denote constructorRegex w ->
  exists sp1 sp2 sp3 q t,
    w = lit "new" ++ sp1 ++ lit "RegExp" ++ sp2 ++ lit "(" ++ sp3 ++ q :: t /\
    spaces sp1 /\ spaces sp2 /\ spaces sp3 /\ isQuote q.
Proof.
  intro H. apply denote_constructorHead in H.
  destruct H as [sp1 [sp2 [sp3 [t [Hw [H1 [H2 [H3 H]]]]]]]].
  destruct H as [u [v [Et [[q [Hu Hq]] _]]]].
  exists sp1, sp2, sp3, q, v. subst. repeat split; auto.
  apply orb_true_iff in Hq. unfold isQuote.
  destruct Hq as [Hq|Hq]; apply N.eqb_eq in Hq; auto.
Qed.

(** A match of [regexPatterns[0]] opens with a slash. *)
Lemma denote_literalRegex (w : jsstring) :
  denote literalRegex w -> exists t, w = 47%N :: t.
Proof.
  intros [u [v [Hw [[x [Hu Hx]] _]]]]. apply N.eqb_eq in Hx.
  exists v. subst. reflexivity.
Qed.

Lemma literalEntry_In (f m : jsstring) (p : patternInfo) :
  In p (literalEntry f m) ->
  type p = literal /\ full p = m /\ file p = f /\ meaningful (pattern p) = true.
Proof.
  unfold literalEntry. destruct (match_first splitLiteral m) as [fd|]; [|easy].
  destruct (capture 1 (groups fd)) as [pat|]; [|easy].
  destruct (capture 2 (groups fd)) as [fl|]; [|easy].
  destruct (meaningful pat) eqn:E; [|easy].
  intros [H|[]]. subst p. simpl. auto.
Qed.

Lemma constructorEntry_In (f m : jsstring) (p : patternInfo) :
  In p (constructorEntry f m) ->
  type p = constructor /\ full p = m /\ file p = f
  /\ meaningful (pattern p) = true.
Proof.
  unfold constructorEntry.
  destruct (match_first splitConstructor m) as [fd|]; [|easy].
  destruct (capture 1 (groups fd)) as [pat|]; [|easy].
  destruct (meaningful pat) eqn:E; [|easy].
  intros [H|[]]. subst p. simpl. auto.
Qed.

(** Where an entry of the extraction comes from. *)
Lemma extract_In (fs : filesystem) (f : jsstring) (p : patternInfo) :
  In p (extractRegexFromFile fs f) ->
  file p = f /\ meaningful (pattern p) = true /\
  ((type p = literal /\ denote literalRegex (full p)) \/
   (type p = constructor /\ denote constructorRegex (full p))).
Proof.
  unfold extractRegexFromFile.
  destruct (readFileSync fs f) as [content|]; [|easy].
  intro H. apply in_app_or in H. destruct H as [H|H];
    apply in_flat_map in H; destruct H as [m [Hm Hp]].
  - apply literalEntry_In in Hp. destruct Hp as [Ht [Hf [Hfile Hmean]]].
    repeat split; auto. left. split; auto. rewrite Hf.
    pose proof (match_all_denote literalRegex content) as HF.
    rewrite Forall_forall in HF. now apply HF.
  - apply constructorEntry_In in Hp. destruct Hp as [Ht [Hf [Hfile Hmean]]].
    repeat split; auto. right. split; auto. rewrite Hf.
    pose proof (match_all_denote constructorRegex content) as HF.
    rewrite Forall_forall in HF. now apply HF.
Qed.

(** C7, as stated, fails: the constructor call on an identifier is
    recognised by [regexPatterns[2]], yet extraction records nothing for
    it. *)
Lemma C7_variable_reference_counterexample :
  match_all variableRegex (lit "const re = new RegExp(userInput, 'g');")
    = [lit "new RegExp(userInput, 'g')"] /\
  extractRegexFromFile fromVariable (lit "a.js") = [].
Proof. split; vm_compute; reflexivity. Qed.

(** C7 (amended): extraction records no variable-pattern reference.  Every
    recorded entry is either a slash-delimited literal or a constructor call
    whose first argument opens with a quote (never with an identifier), and
    its pattern is a string of the source text. *)
Theorem C7_only_literals_and_quoted_constructors
    (fs : filesystem) (f : jsstring) (p : patternInfo) :
  In p (extractRegexFromFile fs f) ->
  (type p = literal /\ exists t, full p = 47%N :: t) \/
  (type p = constructor /\
   exists sp1 sp2 sp3 q t,
     full p = lit "new" ++ sp1 ++ lit "RegExp" ++ sp2 ++ lit "(" ++ sp3
              ++ q :: t /\
     spaces sp1 /\ spaces sp2 /\ spaces sp3 /\
     isQuote q /\ identStart q = false).
Proof.
  intro H. apply extract_In in H. destruct H as [_ [_ [[Ht Hd]|[Ht Hd]]]].
  - left. split; auto. now apply denote_literalRegex.
  - right. split; auto. apply denote_constructorRegex in Hd.
    destruct Hd as [sp1 [sp2 [sp3 [q [t [Hw [H1 [H2 [H3 Hq]]]]]]]]].
    exists sp1, sp2, sp3, q, t. repeat split; auto.
    destruct Hq; subst q; reflexivity.
Qed.

(** The theorem of C7 at a file with one quoted constructor call. *)
Lemma C7_witness :
  In fromStringEntry (extractRegexFromFile fromString (lit "b.js")) /\
  ((type fromStringEntry = literal /\
    exists t, full fromStringEntry = 47%N :: t) \/
   (type fromStringEntry = constructor /\
    exists sp1 sp2 sp3 q t,
      full fromStringEntry
      = lit "new" ++ sp1 ++ lit "RegExp" ++ sp2 ++ lit "(" ++ sp3 ++ q :: t /\
      spaces sp1 /\ spaces sp2 /\ spaces sp3 /\
      isQuote q /\ identStart q = false)).
Proof.
  assert (H : In fromStringEntry (extractRegexFromFile fromString (lit "b.js")))
    by (vm_compute; auto).
  split; [exact H|].
  exact (C7_only_literals_and_quoted_constructors fromString (lit "b.js")
           fromStringEntry H).
Defined.

End ExtractionFacts.

(** ** The filters of extraction *)

Module FilterFacts.
Import Extractor ExtractionCases.

Lemma meaningful_iff (pat : jsstring) :
  meaningful pat = true <->
  6 <= List.length pat <= 499 /\
  includes pat (lit "\n") = false /\ includes pat (lit "\r") = false.
Proof.
  unfold meaningful.
  rewrite !andb_true_iff, !negb_true_iff, !Nat.ltb_lt. split.
  - intros [[[H5 H500] Hn] Hr]. repeat split; auto; lia.
  - intros [[H6 H499] [Hn Hr]]. repeat split; auto; lia.
Qed.

Lemma filter_flat_map (A B : Type) (P : B -> bool) (g : A -> list B)
    (l : list A) :
  filter P (flat_map g l) = flat_map (fun x => filter P (g x)) l.
Proof.
  induction l as [|x l IH]; simpl; auto.
  now rewrite filter_app, IH.
Qed.

Lemma literalEntry_filter (f m : jsstring) :
  literalEntry f m
  = filter (fun p => meaningful (pattern p)) (Unfiltered.literalEntry f m).
Proof.
  unfold literalEntry, Unfiltered.literalEntry.
  destruct (match_first splitLiteral m) as [fd|]; [|reflexivity].
  destruct (capture 1 (groups fd)) as [pat|]; [|reflexivity].
  destruct (capture 2 (groups fd)) as [fl|]; [|reflexivity].
  simpl. destruct (meaningful pat); reflexivity.
Qed.

Lemma constructorEntry_filter (f m : jsstring) :
  constructorEntry f m
  = filter (fun p => meaningful (pattern p)) (Unfiltered.constructorEntry f m).
Proof.
  unfold constructorEntry, Unfiltered.constructorEntry.
  destruct (match_first splitConstructor m) as [fd|]; [|reflexivity].
  destruct (capture 1 (groups fd)) as [pat|]; [|reflexivity].
  simpl. destruct (meaningful pat); reflexivity.
Qed.

(** The extractor keeps, in order, the occurrences that its unfiltered
    variant recognises and that pass the test on the pattern. *)
Lemma extract_filter (fs : filesystem) (f : jsstring) :
  extractRegexFromFile fs f
  = filter (fun p => meaningful (pattern p))
           (Unfiltered.extractRegexFromFile fs f).
Proof.
  unfold extractRegexFromFile, Unfiltered.extractRegexFromFile.
  destruct (readFileSync fs f) as [content|]; [|reflexivity].
  rewrite filter_app, !filter_flat_map. f_equal.
  - apply flat_map_ext. intro m. apply literalEntry_filter.
  - apply flat_map_ext. intro m. apply constructorEntry_filter.
Qed.

Lemma extract_meaningful (fs : filesystem) (f : jsstring) :
  Forall (fun p => meaningful (pattern p) = true) (extractRegexFromFile fs f).
Proof.
  rewrite extract_filter. apply Forall_forall. intros p H.
  now apply filter_In in H.
Qed.

Lemma quickExtract_min (fs : filesystem) (f : jsstring) :
  Forall (fun e => 6 <= List.length (Quick.pattern e)) (Quick.quickExtract fs f).
Proof.
  unfold Quick.quickExtract.
  destruct (readFileSync fs f) as [content|]; [|constructor].
  apply Forall_forall. intros e H. apply in_flat_map in H.
  destruct H as [m [_ H]]. unfold Quick.literalEntry in H.
  destruct (match_first splitLiteral m) as [fd|]; [|easy].
  destruct (capture 1 (groups fd)) as [pat|]; [|easy].
  destruct (capture 2 (groups fd)) as [fl|]; [|easy].
  destruct (Nat.ltb 5 (List.length pat)) eqn:E; [|easy].
  destruct H as [H|[]]. subst e. simpl. apply Nat.ltb_lt in E. lia.
Qed.

(** C8, as stated, fails: a pattern of exactly 500 characters is recognised
    but dropped by [extractRegexFromFile], and a pattern of 501 characters is
    kept by [quickExtract]. *)
Lemma C8_length_500_counterexample :
  (exists p, Unfiltered.extractRegexFromFile (literalOf 500) (lit "a.js") = [p]
             /\ List.length (pattern p) = 500) /\
  extractRegexFromFile (literalOf 500) (lit "a.js") = [] /\
  (exists e, Quick.quickExtract (literalOf 501) (lit "a.js") = [e]
             /\ List.length (Quick.pattern e) = 501).
Proof.
  split; [|split].
  - eexists. split; vm_compute; reflexivity.
  - vm_compute. reflexivity.
  - eexists. split; vm_compute; reflexivity.
Qed.

(** The bounds are attained: 6 and 499 characters are kept. *)
Example extract_keeps_6_and_499 :
  List.map (fun p => List.length (pattern p))
    (extractRegexFromFile (literalOf 6) (lit "a.js")
     ++ extractRegexFromFile (literalOf 499) (lit "a.js")) = [6; 499] /\
  extractRegexFromFile (literalOf 5) (lit "a.js") = [].
Proof. split; vm_compute; reflexivity. Qed.

End FilterFacts.

(** ** Verdicts of the analysis loops *)

Module AnalysisFacts.
Import Extractor.

Section Detector.

Variable RegExp : Type.
Variable RegExp_new : jsstring -> jsstring -> completion RegExp.
Variable isSafe : RegExp -> completion Detector.analysisResult.
Variable toLowerCase : jsstring -> jsstring.

#[local] Abbreviation classifyOne := (classifyOne RegExp_new isSafe toLowerCase).
#[local] Abbreviation tryAnalyze := (tryAnalyze RegExp_new isSafe).
#[local] Abbreviation analysisLoop := (analysisLoop RegExp_new isSafe toLowerCase).
#[local] Abbreviation analyzeProject := (analyzeProject RegExp_new isSafe toLowerCase).
#[local] Abbreviation unverdicted := (unverdicted RegExp_new isSafe toLowerCase).

Lemma fold_push (ps : list patternInfo) (b : buckets) :
  let b' := fold_left (fun b p => push b (classifyOne p)) ps b in
  vulnerablePatterns b'
    = vulnerablePatterns b ++ flat_map (fun p => toVulnerable (classifyOne p)) ps
  /\ safePatterns b'
    = safePatterns b ++ flat_map (fun p => toSafe (classifyOne p)) ps
  /\ errorPatterns b'
    = errorPatterns b ++ flat_map (fun p => toError (classifyOne p)) ps.
Proof.
  revert b. induction ps as [|p ps IH]; intro b; simpl.
  - now rewrite !app_nil_r.
  - destruct (IH (push b (classifyOne p))) as [Hv [Hs He]].
    rewrite Hv, Hs, He.
    destruct (classifyOne p); simpl; rewrite <- ?app_assoc; auto.
Qed.

(** Each sequence holds, in the order of the candidates, what each
    candidate added to it. *)
Lemma analysisLoop_flat_map (ps : list patternInfo) :
  vulnerablePatterns (analysisLoop ps)
    = flat_map (fun p => toVulnerable (classifyOne p)) ps
  /\ safePatterns (analysisLoop ps)
    = flat_map (fun p => toSafe (classifyOne p)) ps
  /\ errorPatterns (analysisLoop ps)
    = flat_map (fun p => toError (classifyOne p)) ps.
Proof. exact (fold_push ps noBuckets). Qed.

Lemma firstn_In (A : Type) (n : nat) (l : list A) (x : A) :
  In x (firstn n l) -> In x l.
Proof.
  intro H. rewrite <- (firstn_skipn n l). apply in_or_app. now left.
Qed.

Lemma length_flat_map_sum (A B : Type) (g : A -> list B) (l : list A) :
  List.length (flat_map g l) = list_sum (List.map (fun x => List.length (g x)) l).
Proof.
  induction l as [|x l IH]; simpl; auto. now rewrite List.length_app, IH.
Qed.

Lemma length_filter_sum (A : Type) (P : A -> bool) (l : list A) :
  List.length (filter P l)
  = list_sum (List.map (fun x => if P x then 1 else 0) l).
Proof.
  induction l as [|x l IH]; simpl; auto.
  destruct (P x); simpl; now rewrite IH.
Qed.

(** Every candidate of the loop is counted once: in one sequence, or among
    those left without a verdict. *)
Lemma analysisLoop_count (ps : list patternInfo) :
  List.length (vulnerablePatterns (analysisLoop ps))
  + List.length (safePatterns (analysisLoop ps))
  + List.length (errorPatterns (analysisLoop ps))
  + List.length (filter unverdicted ps)
  = List.length ps.
Proof.
  destruct (analysisLoop_flat_map ps) as [Hv [Hs He]].
  rewrite Hv, Hs, He, !length_flat_map_sum, length_filter_sum.
  unfold unverdicted. clear Hv Hs He.
  induction ps as [|p ps IH]; simpl; auto.
  destruct (classifyOne p); simpl; lia.
Qed.

(** The candidates that get no verdict are those the loop skips on
    purpose. *)
Lemma unverdicted_iff (p : patternInfo) :
  unverdicted p = true <->
  unicodeInsensitive (flags p) = true \/
  problematic (pattern p) = true \/
  exists msg, tryAnalyze p = Throw msg
              /\ shouldSkipSilently toLowerCase msg = true.
Proof.
  unfold unverdicted, Extractor.classifyOne, Extractor.tryAnalyze.
  destruct (unicodeInsensitive (flags p)); [tauto|].
  destruct (problematic (pattern p)); [tauto|].
  destruct (RegExp_new (pattern p) (flags p)) as [re|msg].
  - destruct (isSafe re) as [a|msg].
    + destruct (Detector.safe a); split; try discriminate;
        intros [H|[H|[m [H _]]]]; discriminate.
    + destruct (shouldSkipSilently toLowerCase msg) eqn:E; simpl.
      * split; auto. intros _. right. right. now exists msg.
      * split; try discriminate.
        intros [H|[H|[m [H H']]]]; try discriminate.
        inversion H; subst. congruence.
  - destruct (shouldSkipSilently toLowerCase msg) eqn:E; simpl.
    + split; auto. intros _. right. right. now exists msg.
    + split; try discriminate.
      intros [H|[H|[m [H H']]]]; try discriminate.
      inversion H; subst. congruence.
Qed.

(** An entry of a sequence is a candidate of the loop, with the same
    pattern, flags and file, that was not skipped. *)
Lemma classifyOne_entry (p q : patternInfo) :
  classifyOne p = ToSafe q \/ classifyOne p = ToVulnerable q
  \/ classifyOne p = ToError q ->
  pattern q = pattern p /\ flags q = flags p /\ file q = file p /\
  unicodeInsensitive (flags p) = false.
Proof.
  unfold Extractor.classifyOne, Extractor.tryAnalyze.
  destruct (unicodeInsensitive (flags p));
    [intros [H|[H|H]]; discriminate|].
  destruct (problematic (pattern p));
    [intros [H|[H|H]]; discriminate|].
  destruct (RegExp_new (pattern p) (flags p)) as [re|msg];
    [destruct (isSafe re) as [a|msg]; [destruct (Detector.safe a)|]|];
    try destruct (negb (shouldSkipSilently toLowerCase msg));
    intros [H|[H|H]]; try discriminate; inversion H; subst; simpl; auto.
Qed.

Lemma entries_origin (ps : list patternInfo) (q : patternInfo) :
  In q (entries (analysisLoop ps)) ->
  exists p, In p ps /\
    (classifyOne p = ToSafe q \/ classifyOne p = ToVulnerable q
     \/ classifyOne p = ToError q).
Proof.
  unfold entries. destruct (analysisLoop_flat_map ps) as [Hv [Hs He]].
  rewrite Hv, Hs, He. intro H.
  apply in_app_or in H. destruct H as [H|H];
    [|apply in_app_or in H; destruct H as [H|H]];
    apply in_flat_map in H; destruct H as [p [Hp Hq]]; exists p; split; auto;
    destruct (classifyOne p); simpl in Hq; try contradiction;
    destruct Hq as [Hq|[]]; subst; auto.
Qed.

(** A property of the pattern and flags of the candidates holds of the
    entries. *)
Lemma entries_Forall (P : jsstring -> jsstring -> Prop) (ps : list patternInfo) :
  Forall (fun p => P (pattern p) (flags p)) ps ->
  Forall (fun q => P (pattern q) (flags q)
                   /\ unicodeInsensitive (flags q) = false)
         (entries (analysisLoop ps)).
Proof.
  intro H. apply Forall_forall. intros q Hq.
  apply entries_origin in Hq. destruct Hq as [p [Hp Hc]].
  apply classifyOne_entry in Hc. destruct Hc as [E1 [E2 [_ Hui]]].
  rewrite E1, E2. split; auto.
  rewrite Forall_forall in H. now apply H.
Qed.

Lemma collect_flat_map (fs : filesystem) (jsFiles : list jsstring) :
  collect fs jsFiles = flat_map (extractRegexFromFile fs) jsFiles.
Proof.
  unfold collect.
  assert (G : forall acc,
             fold_left (fun all f => all ++ extractRegexFromFile fs f)
                       jsFiles acc
             = acc ++ flat_map (extractRegexFromFile fs) jsFiles).
  { induction jsFiles as [|f l IH]; intro acc; simpl.
    - now rewrite app_nil_r.
    - now rewrite IH, app_assoc. }
  apply G.
Qed.

Lemma patternsToAnalyze_firstn (l : list patternInfo) :
  patternsToAnalyze l = firstn 100 l.
Proof.
  unfold patternsToAnalyze.
  destruct (Nat.le_ge_cases 100 (List.length l)) as [H|H].
  - now rewrite Nat.min_l.
  - rewrite Nat.min_r by assumption.
    rewrite firstn_all. symmetry. now apply firstn_all2.
Qed.

End Detector.

End AnalysisFacts.

Module QuickFacts.
Import Quick.

Section Detector.

Variable RegExp : Type.
Variable RegExp_new : jsstring -> jsstring -> completion RegExp.
Variable isSafe : RegExp -> completion Detector.analysisResult.

#[local] Abbreviation classifyOne := (classifyOne RegExp_new isSafe).
#[local] Abbreviation analyzePatterns := (analyzePatterns RegExp_new isSafe).
#[local] Abbreviation unverdicted := (unverdicted RegExp_new isSafe).

Lemma quick_fold_push (ps : list entry) (r : analysed) :
  let r' := fold_left (fun r p => push r (classifyOne p)) ps r in
  vulnerable r' = vulnerable r ++ flat_map (fun p => toVulnerable (classifyOne p)) ps
  /\ safe r' = safe r ++ flat_map (fun p => toSafe (classifyOne p)) ps.
Proof.
  revert r. induction ps as [|p ps IH]; intro r; simpl.
  - now rewrite !app_nil_r.
  - destruct (IH (push r (classifyOne p))) as [Hv Hs]. rewrite Hv, Hs.
    destruct (classifyOne p); simpl; rewrite <- ?app_assoc; auto.
Qed.

Lemma analyzePatterns_flat_map (ps : list entry) :
  vulnerable (analyzePatterns ps)
    = flat_map (fun p => toVulnerable (classifyOne p)) ps
  /\ safe (analyzePatterns ps)
    = flat_map (fun p => toSafe (classifyOne p)) ps.
Proof. exact (quick_fold_push ps {| vulnerable := []; safe := [] |}). Qed.

Lemma analyzePatterns_count (ps : list entry) :
  List.length (vulnerable (analyzePatterns ps))
  + List.length (safe (analyzePatterns ps))
  + List.length (filter unverdicted ps)
  = List.length ps.
Proof.
  destruct (analyzePatterns_flat_map ps) as [Hv Hs].
  rewrite Hv, Hs, !AnalysisFacts.length_flat_map_sum,
    AnalysisFacts.length_filter_sum.
  unfold unverdicted. clear Hv Hs.
  induction ps as [|p ps IH]; simpl; auto.
  destruct (classifyOne p); simpl; lia.
Qed.

(** [analyzePatterns] has no error sequence: a candidate whose analysis
    throws gets no verdict, like one with both flags. *)
Lemma quick_unverdicted_iff (p : entry) :
  unverdicted p = true <->
  (includes (flags p) (lit "u") && includes (flags p) (lit "i") = true) \/
  (exists msg, RegExp_new (pattern p) (flags p) = Throw msg) \/
  (exists re msg, RegExp_new (pattern p) (flags p) = Normal re
                  /\ isSafe re = Throw msg).
Proof.
  unfold unverdicted, Quick.classifyOne.
  destruct (includes (flags p) (lit "u") && includes (flags p) (lit "i"));
    [tauto|].
  destruct (RegExp_new (pattern p) (flags p)) as [re|msg].
  - destruct (isSafe re) as [a|msg] eqn:E.
    + destruct (negb (Detector.safe a)); split; try discriminate;
        intros [H|[[m H]|[re' [m [H H']]]]]; try discriminate;
        inversion H; subst; congruence.
    + split; auto. intros _. right. right. now exists re, msg.
  - split; auto. intros _. right. left. now exists msg.
Qed.

Lemma quick_classifyOne_entry (p q : entry) :
  classifyOne p = ToSafe q \/ classifyOne p = ToVulnerable q ->
  pattern q = pattern p /\ flags q = flags p /\ file q = file p /\
  includes (flags p) (lit "u") && includes (flags p) (lit "i") = false.
Proof.
  unfold Quick.classifyOne.
  destruct (includes (flags p) (lit "u") && includes (flags p) (lit "i"));
    [intros [H|H]; discriminate|].
  destruct (RegExp_new (pattern p) (flags p)) as [re|msg];
    [destruct (isSafe re) as [a|msg]; [destruct (negb (Detector.safe a))|]|];
    intros [H|H]; try discriminate; inversion H; subst; simpl; auto.
Qed.

Lemma quick_entries_origin (ps : list entry) (q : entry) :
  In q (vulnerable (analyzePatterns ps) ++ safe (analyzePatterns ps)) ->
  exists p, In p ps /\
    (classifyOne p = ToSafe q \/ classifyOne p = ToVulnerable q).
Proof.
  destruct (analyzePatterns_flat_map ps) as [Hv Hs]. rewrite Hv, Hs.
  intro H. apply in_app_or in H. destruct H as [H|H];
    apply in_flat_map in H; destruct H as [p [Hp Hq]]; exists p; split; auto;
    destruct (classifyOne p); simpl in Hq; try contradiction;
    destruct Hq as [Hq|[]]; subst; auto.
Qed.

Lemma entries_flags (ps : list entry) :
  Forall (fun q => includes (flags q) (lit "u")
                   && includes (flags q) (lit "i") = false)
         (vulnerable (analyzePatterns ps) ++ safe (analyzePatterns ps)).
Proof.
  apply Forall_forall. intros q Hq. apply quick_entries_origin in Hq.
  destruct Hq as [p [_ Hc]]. apply quick_classifyOne_entry in Hc.
  destruct Hc as [_ [E [_ H]]]. now rewrite E.
Qed.

End Detector.

End QuickFacts.

(** ** One verdict per candidate, and the candidates without one *)

Module VerdictFacts.
Import Extractor ExtractionCases.

(** C3, as stated, fails: extraction yields one candidate for this file,
    and the analysis puts it in none of the vulnerable, safe and error
    sequences. *)
Lemma C3_candidate_without_verdict_counterexample :
  List.length (collect unicodeFile [lit "src/lib/slug.js"]) = 1 /\
  analysisLoop Fixtures.RegExp_new Fixtures.isSafe Fixtures.toLowerCase
    (patternsToAnalyze (collect unicodeFile [lit "src/lib/slug.js"]))
  = noBuckets.
Proof. split; vm_compute; reflexivity. Qed.

(** C3 (amended): of the candidates of a project only the first 100 are
    analysed; each of these yields at most one verdict, that is one entry in
    exactly one of the vulnerable, safe and error sequences, and it yields
    none exactly when its flags hold both u and i, or its pattern holds
    U+0000 or U+FFFD or has more than 300 characters, or the analysis throws
    an error whose message is one of the silent ones.  In
    [analyzePatterns] every candidate yields one entry (vulnerable or safe)
    or none, and none exactly when its flags hold both u and i or the
    analysis throws. *)
Theorem C3_one_verdict_unless_skipped
    (RegExp : Type) (RegExp_new : jsstring -> jsstring -> completion RegExp)
    (isSafe : RegExp -> completion Detector.analysisResult)
    (toLowerCase : jsstring -> jsstring)
    (fs : filesystem) (jsFiles : list jsstring) (qs : list Quick.entry) :
  let allPatterns := collect fs jsFiles in
  let analysed := patternsToAnalyze allPatterns in
  let b := analysisLoop RegExp_new isSafe toLowerCase analysed in
  let r := Quick.analyzePatterns RegExp_new isSafe qs in
  analysed = firstn 100 allPatterns /\
  List.length (vulnerablePatterns b) + List.length (safePatterns b)
  + List.length (errorPatterns b)
  + List.length
      (filter (unverdicted RegExp_new isSafe toLowerCase) analysed)
  = List.length analysed /\
  (forall p,
     unverdicted RegExp_new isSafe toLowerCase p = true <->
     unicodeInsensitive (flags p) = true \/
     problematic (pattern p) = true \/
     exists msg, tryAnalyze RegExp_new isSafe p = Throw msg
                 /\ shouldSkipSilently toLowerCase msg = true) /\
  List.length (Quick.vulnerable r) + List.length (Quick.safe r)
  + List.length (filter (Quick.unverdicted RegExp_new isSafe) qs)
  = List.length qs /\
  (forall q,
     Quick.unverdicted RegExp_new isSafe q = true <->
     (includes (Quick.flags q) (lit "u")
      && includes (Quick.flags q) (lit "i") = true) \/
     (exists msg, RegExp_new (Quick.pattern q) (Quick.flags q) = Throw msg) \/
     (exists re msg, RegExp_new (Quick.pattern q) (Quick.flags q) = Normal re
                     /\ isSafe re = Throw msg)).
Proof.
  intros allPatterns analysed b r. repeat split.
  - apply AnalysisFacts.patternsToAnalyze_firstn.
  - apply AnalysisFacts.analysisLoop_count.
  - apply AnalysisFacts.unverdicted_iff.
  - apply AnalysisFacts.unverdicted_iff.
  - apply QuickFacts.analyzePatterns_count.
  - apply QuickFacts.quick_unverdicted_iff.
  - apply QuickFacts.quick_unverdicted_iff.
Qed.

(** C4, as stated, fails: the candidate with flags i and u appears in no
    sequence of the output, with no verdict at all. *)
Lemma C4_skipped_without_verdict_counterexample :
  includes (Quick.flags unicodeEntry) (lit "u")
  && includes (Quick.flags unicodeEntry) (lit "i") = true /\
  Quick.analyzePatterns Fixtures.RegExp_new Fixtures.isSafe [unicodeEntry]
  = {| Quick.vulnerable := []; Quick.safe := [] |}.
Proof. split; vm_compute; reflexivity. Qed.

(** C4 (amended): a candidate whose flags hold both u and i is skipped
    without a verdict: the loops pass over it, and no entry of the
    vulnerable, safe or error sequences has such flags. *)
Theorem C4_unicode_insensitive_skipped
    (RegExp : Type) (RegExp_new : jsstring -> jsstring -> completion RegExp)
    (isSafe : RegExp -> completion Detector.analysisResult)
    (toLowerCase : jsstring -> jsstring)
    (ps : list patternInfo) (qs : list Quick.entry) :
  let b := analysisLoop RegExp_new isSafe toLowerCase ps in
  let r := Quick.analyzePatterns RegExp_new isSafe qs in
  (forall p, unicodeInsensitive (flags p) = true ->
             classifyOne RegExp_new isSafe toLowerCase p = Skip) /\
  (forall q, unicodeInsensitive (Quick.flags q) = true ->
             Quick.classifyOne RegExp_new isSafe q = Quick.Skip) /\
  Forall (fun e => unicodeInsensitive (flags e) = false)
         (vulnerablePatterns b ++ safePatterns b ++ errorPatterns b) /\
  Forall (fun e => unicodeInsensitive (Quick.flags e) = false)
         (Quick.vulnerable r ++ Quick.safe r).
Proof.
  intros b r. repeat split.
  - intros p H. unfold classifyOne, tryAnalyze. now rewrite H.
  - intros q H. unfold Quick.classifyOne. unfold unicodeInsensitive in H.
    now rewrite H.
  - eapply Forall_impl;
      [| apply (AnalysisFacts.entries_Forall RegExp_new isSafe toLowerCase
                  (fun _ _ => True)) ].
    + intros e [_ H]. exact H.
    + apply Forall_forall. auto.
  - apply QuickFacts.entries_flags.
Qed.

Example extract_drops_newline_escape :
  List.map pattern
    (Unfiltered.extractRegexFromFile newlineFile (lit "src/lines.js"))
  = [lit "(\s+\n)+$"] /\
  extractRegexFromFile newlineFile (lit "src/lines.js") = [].
Proof. split; vm_compute; reflexivity. Qed.

(** C10: extraction excludes every literal or constructor candidate whose
    raw pattern holds the escape backslash-n or backslash-r, whatever its
    length: the output is the recognised candidates filtered by the test
    that rejects them, no entry of the output holds such an escape, and so
    no entry of the three sequences of [analyzeProject] does. *)
Theorem C10_line_escapes_excluded
    (RegExp : Type) (RegExp_new : jsstring -> jsstring -> completion RegExp)
    (isSafe : RegExp -> completion Detector.analysisResult)
    (toLowerCase : jsstring -> jsstring)
    (fs : filesystem) (f : jsstring) (jsFiles : list jsstring) :
  let r := analyzeProject RegExp_new isSafe toLowerCase fs jsFiles in
  extractRegexFromFile fs f
  = filter (fun p => Nat.ltb 5 (List.length (pattern p))
                     && Nat.ltb (List.length (pattern p)) 500
                     && negb (includes (pattern p) (lit "\n"))
                     && negb (includes (pattern p) (lit "\r")))
           (Unfiltered.extractRegexFromFile fs f) /\
  Forall (fun p => noLineEscape (pattern p)) (extractRegexFromFile fs f) /\
  Forall (fun p => noLineEscape (pattern p))
         (reportVulnerable r ++ reportSafe r ++ reportError r).
Proof.
  intro r. split; [apply FilterFacts.extract_filter|].
  assert (Hex : forall g, Forall (fun p => noLineEscape (pattern p))
                                 (extractRegexFromFile fs g)).
  { intro g. eapply Forall_impl; [|apply FilterFacts.extract_meaningful].
    intros p H. apply FilterFacts.meaningful_iff in H. exact (proj2 H). }
  split; [apply Hex|].
  assert (Hall : Forall (fun p => noLineEscape (pattern p))
                        (patternsToAnalyze (collect fs jsFiles))).
  { rewrite AnalysisFacts.patternsToAnalyze_firstn,
      AnalysisFacts.collect_flat_map.
    apply Forall_forall. intros p Hp. apply AnalysisFacts.firstn_In in Hp.
    apply in_flat_map in Hp. destruct Hp as [g [_ Hp]].
    specialize (Hex g). rewrite Forall_forall in Hex. now apply Hex. }
  pose proof (AnalysisFacts.entries_Forall RegExp_new isSafe toLowerCase
                (fun pat _ => noLineEscape pat) Hall) as HE.
  unfold entries in HE. rewrite Forall_forall in HE.
  apply Forall_forall. intros q Hq. apply HE.
  unfold r, analyzeProject in Hq.
  cbn [reportVulnerable reportSafe reportError] in Hq.
  apply in_app_or in Hq. apply in_or_app.
  destruct Hq as [Hq|Hq]; [left; exact Hq|right].
  apply in_app_or in Hq. apply in_or_app.
  destruct Hq as [Hq|Hq]; [left; now apply AnalysisFacts.firstn_In in Hq|right; exact Hq].
Qed.

End VerdictFacts.

(** ** Aggregation across files *)

Module AggregationFacts.
Import Quick ExtractionCases.

Lemma jsstring_eqb_eq (a b : jsstring) : jsstring_eqb a b = true <-> a = b.
Proof.
  unfold jsstring_eqb. destruct (list_eq_dec N.eq_dec a b); split;
    congruence.
Qed.

Lemma of_extend (k project : jsstring) (r : analysed) (m : allResults) :
  vulnerableOf project (extend k r m)
  = vulnerableOf project m
    ++ (if jsstring_eqb project k then vulnerable r else [])
  /\ safeOf project (extend k r m)
  = safeOf project m ++ (if jsstring_eqb project k then safe r else []).
Proof.
  unfold vulnerableOf, safeOf.
  induction m as [|[k' v] m IH]; simpl.
  - destruct (jsstring_eqb project k); auto.
  - destruct (jsstring_eqb k k') eqn:Ek; simpl.
    + apply jsstring_eqb_eq in Ek. subst k'.
      destruct (jsstring_eqb project k); simpl; auto.
      now rewrite !app_nil_r.
    + destruct (jsstring_eqb project k') eqn:Ep; simpl; auto.
      destruct (jsstring_eqb project k) eqn:Epk; [|now rewrite !app_nil_r].
      apply jsstring_eqb_eq in Ep, Epk. subst.
      assert (jsstring_eqb k' k' = true) by now apply jsstring_eqb_eq.
      congruence.
Qed.

Section Detector.

Variable RegExp : Type.
Variable RegExp_new : jsstring -> jsstring -> completion RegExp.
Variable isSafe : RegExp -> completion Detector.analysisResult.
Variable fs : filesystem.

#[local] Abbreviation analyzePatterns := (analyzePatterns RegExp_new isSafe).
#[local] Abbreviation visit := (visit RegExp_new isSafe fs).
#[local] Abbreviation aggregate := (aggregate RegExp_new isSafe fs).
#[local] Abbreviation analysedFile := (Quick.analysedFile RegExp_new isSafe fs).
#[local] Abbreviation contributes := (Quick.contributes fs).

Lemma of_visit (project : jsstring) (acc : allResults) (f : jsstring) :
  vulnerableOf project (visit acc f)
  = vulnerableOf project acc
    ++ (if contributes project f then vulnerable (analysedFile f) else [])
  /\ safeOf project (visit acc f)
  = safeOf project acc
    ++ (if contributes project f then safe (analysedFile f) else []).
Proof.
  unfold Quick.visit, contributes, analysedFile.
  destruct (existsSync fs f); simpl; [|now rewrite !app_nil_r].
  destruct (quickExtract fs f) as [|e es] eqn:E; simpl.
  - destruct (jsstring_eqb project (projectNameOf f)); now rewrite !app_nil_r.
  - apply of_extend.
Qed.

Lemma of_fold (project : jsstring) (files : list jsstring) (acc : allResults) :
  vulnerableOf project (fold_left visit files acc)
  = vulnerableOf project acc
    ++ flat_map (fun f => vulnerable (analysedFile f))
         (filter (contributes project) files)
  /\ safeOf project (fold_left visit files acc)
  = safeOf project acc
    ++ flat_map (fun f => safe (analysedFile f))
         (filter (contributes project) files).
Proof.
  revert acc. induction files as [|f files IH]; intro acc; simpl.
  - now rewrite !app_nil_r.
  - destruct (IH (visit acc f)) as [Hv Hs]. rewrite Hv, Hs.
    destruct (of_visit project acc f) as [Hv' Hs']. rewrite Hv', Hs'.
    destruct (contributes project f); simpl;
      rewrite <- ?app_assoc, ?app_nil_r; auto.
Qed.

Lemma quickExtract_file (f : jsstring) :
  Forall (fun e => file e = f) (quickExtract fs f).
Proof.
  unfold quickExtract.
  destruct (readFileSync fs f) as [content|]; [|constructor].
  apply Forall_forall. intros e H. apply in_flat_map in H.
  destruct H as [m [_ H]]. unfold literalEntry in H.
  destruct (match_first Extractor.splitLiteral m) as [fd|]; [|easy].
  destruct (capture 1 (groups fd)) as [pat|]; [|easy].
  destruct (capture 2 (groups fd)) as [fl|]; [|easy].
  destruct (Nat.ltb 5 (List.length pat)); [|easy].
  destruct H as [H|[]]. now subst e.
Qed.

(** Every verdict entry of a file names that file, and only it, as its
    origin. *)
Lemma analysedFile_file (f : jsstring) :
  Forall (fun e => file e = f)
         (vulnerable (analysedFile f) ++ safe (analysedFile f)).
Proof.
  apply Forall_forall. intros q Hq. apply QuickFacts.quick_entries_origin in Hq.
  destruct Hq as [p [Hp Hc]]. apply QuickFacts.quick_classifyOne_entry in Hc.
  destruct Hc as [_ [_ [E _]]]. rewrite E.
  pose proof (quickExtract_file f) as HF. rewrite Forall_forall in HF.
  now apply HF.
Qed.

End Detector.

Lemma unfiltered_collect_flat_map (fs : filesystem) (jsFiles : list jsstring) :
  Extractor.Unfiltered.collect fs jsFiles
  = flat_map (Extractor.Unfiltered.extractRegexFromFile fs) jsFiles.
Proof.
  unfold Extractor.Unfiltered.collect.
  assert (G : forall acc,
             fold_left (fun all g =>
                          all ++ Extractor.Unfiltered.extractRegexFromFile fs g)
                       jsFiles acc
             = acc ++ flat_map (Extractor.Unfiltered.extractRegexFromFile fs)
                               jsFiles).
  { induction jsFiles as [|g l IH]; intro acc; simpl.
    - now rewrite app_nil_r.
    - now rewrite IH, app_assoc. }
  apply G.
Qed.

(** C6, as stated, fails: the same (pattern, flags) extracted from two
    files yields two entries of the project's vulnerable sequence, one per
    file. *)
Lemma C6_no_deduplication_counterexample :
  exists e1 e2,
    vulnerableOf (lit "validator.js")
      (aggregate Fixtures.RegExp_new Fixtures.isSafe twins
         [ lit "analysis/projects/validator.js/src/lib/isA.js";
           lit "analysis/projects/validator.js/src/lib/isB.js" ])
    = [e1; e2] /\
    pattern e1 = pattern e2 /\ flags e1 = flags e2 /\
    file e1 = lit "analysis/projects/validator.js/src/lib/isA.js" /\
    file e2 = lit "analysis/projects/validator.js/src/lib/isB.js".
Proof.
  eexists. eexists. split; [vm_compute; reflexivity|].
  repeat split.
Qed.

(** C6 (amended): aggregation does not deduplicate.  The vulnerable and
    safe sequences of a project are the concatenation, file after file, of
    the verdict entries of its files, so candidates with identical (pattern,
    flags) from different files produce one entry each; every entry carries
    the single file it was extracted from.  Likewise [analyzeProject]
    collects the candidates of all files by concatenation. *)
Theorem C6_aggregation_concatenates
    (RegExp : Type) (RegExp_new : jsstring -> jsstring -> completion RegExp)
    (isSafe : RegExp -> completion Detector.analysisResult)
    (fs : filesystem) (targetFiles : list jsstring) (project f : jsstring) :
  let m := aggregate RegExp_new isSafe fs targetFiles in
  let mine := filter (Quick.contributes fs project) targetFiles in
  vulnerableOf project m
  = flat_map (fun g => vulnerable (Quick.analysedFile RegExp_new isSafe fs g)) mine /\
  safeOf project m
  = flat_map (fun g => safe (Quick.analysedFile RegExp_new isSafe fs g)) mine /\
  Forall (fun e => file e = f)
         (vulnerable (Quick.analysedFile RegExp_new isSafe fs f)
          ++ safe (Quick.analysedFile RegExp_new isSafe fs f)) /\
  Extractor.Unfiltered.collect fs targetFiles
  = flat_map (Extractor.Unfiltered.extractRegexFromFile fs) targetFiles.
Proof.
  intros m mine.
  destruct (of_fold RegExp_new isSafe fs project targetFiles []) as [Hv Hs].
  repeat split.
  - exact Hv.
  - exact Hs.
  - apply analysedFile_file.
  - apply unfiltered_collect_flat_map.
Qed.

End AggregationFacts.

(** * Further properties of the code *)

(** ** The two analysers and their reports *)

Module ReportFacts.
Import Extractor.

(** The sequences filled by any loop that pushes one outcome per
    candidate. *)
Lemma push_fold (classify : patternInfo -> outcome) (ps : list patternInfo)
    (b : buckets) :
  let b' := fold_left (fun b p => push b (classify p)) ps b in
  vulnerablePatterns b'
    = vulnerablePatterns b ++ flat_map (fun p => toVulnerable (classify p)) ps
  /\ safePatterns b'
    = safePatterns b ++ flat_map (fun p => toSafe (classify p)) ps
  /\ errorPatterns b'
    = errorPatterns b ++ flat_map (fun p => toError (classify p)) ps.
Proof.
  revert b. induction ps as [|p ps IH]; intro b; simpl.
  - now rewrite !app_nil_r.
  - destruct (IH (push b (classify p))) as [Hv [Hs He]].
    rewrite Hv, Hs, He.
    destruct (classify p); simpl; rewrite <- ?app_assoc; auto.
Qed.

Lemma extracted_fresh (fs : filesystem) (f : jsstring) :
  Forall (fun p => analysis p = None /\ error p = None /\ file p = f)
         (extractRegexFromFile fs f).
Proof.
  apply Forall_forall. intros p H.
  unfold extractRegexFromFile in H.
  destruct (readFileSync fs f) as [content|]; [|easy].
  apply in_app_or in H. destruct H as [H|H];
    apply in_flat_map in H; destruct H as [m [_ H]].
  - unfold literalEntry in H.
    destruct (match_first splitLiteral m) as [fd|]; [|easy].
    destruct (capture 1 (groups fd)); [|easy].
    destruct (capture 2 (groups fd)); [|easy].
    destruct (meaningful _); [|easy].
    destruct H as [H|[]]. subst p. simpl. auto.
  - unfold constructorEntry in H.
    destruct (match_first splitConstructor m) as [fd|]; [|easy].
    destruct (capture 1 (groups fd)); [|easy].
    destruct (meaningful _); [|easy].
    destruct H as [H|[]]. subst p. simpl. auto.
Qed.

Section Detector.

Variable RegExp : Type.
Variable RegExp_new : jsstring -> jsstring -> completion RegExp.
Variable isSafe : RegExp -> completion Detector.analysisResult.
Variable toLowerCase : jsstring -> jsstring.

#[local] Abbreviation classifyOne := (classifyOne RegExp_new isSafe toLowerCase).
#[local] Abbreviation analysisLoop := (analysisLoop RegExp_new isSafe toLowerCase).
#[local] Abbreviation analyzeProject := (analyzeProject RegExp_new isSafe toLowerCase).

(** What the loop body guarantees of the entry it pushes. *)
Lemma classifyOne_fields (p q : patternInfo) :
  analysis p = None -> error p = None ->
  (classifyOne p = ToSafe q ->
   exists a, analysis q = Some a /\ Detector.safe a = true /\ error q = None) /\
  (classifyOne p = ToVulnerable q ->
   exists a, analysis q = Some a /\ Detector.safe a = false /\ error q = None) /\
  (classifyOne p = ToError q ->
   exists msg, error q = Some msg /\ analysis q = None
               /\ shouldSkipSilently toLowerCase msg = false).
Proof.
  intros Ha He. unfold Extractor.classifyOne, Extractor.tryAnalyze.
  destruct (unicodeInsensitive (flags p)); [repeat split; discriminate|].
  destruct (problematic (pattern p)); [repeat split; discriminate|].
  destruct (RegExp_new (pattern p) (flags p)) as [re|msg].
  - destruct (isSafe re) as [a|msg].
    + destruct (Detector.safe a) eqn:Es; repeat split; try discriminate;
        intro H; inversion H; subst; simpl; exists a; auto.
    + destruct (shouldSkipSilently toLowerCase msg) eqn:E; simpl;
        repeat split; try discriminate.
      intro H; inversion H; subst; simpl. exists msg. auto.
  - destruct (shouldSkipSilently toLowerCase msg) eqn:E; simpl;
      repeat split; try discriminate.
    intro H; inversion H; subst; simpl. exists msg. auto.
Qed.

Lemma classifyOne_bounds (p q : patternInfo) :
  classifyOne p = ToSafe q \/ classifyOne p = ToVulnerable q
  \/ classifyOne p = ToError q ->
  List.length (pattern p) <= 300 /\
  includes (pattern p) [0%N] = false /\
  includes (pattern p) [65533%N] = false.
Proof.
  unfold Extractor.classifyOne, Extractor.tryAnalyze.
  destruct (unicodeInsensitive (flags p));
    [intros [H|[H|H]]; discriminate|].
  destruct (problematic (pattern p)) eqn:E;
    [intros [H|[H|H]]; discriminate|].
  intros _. unfold problematic in E.
  apply orb_false_iff in E. destruct E as [E E3].
  apply orb_false_iff in E. destruct E as [E1 E2].
  apply Nat.ltb_ge in E3. auto.
Qed.

Lemma analysed_candidates (fs : filesystem) (jsFiles : list jsstring)
    (p : patternInfo) :
  In p (patternsToAnalyze (collect fs jsFiles)) ->
  exists f, In f jsFiles /\ In p (extractRegexFromFile fs f).
Proof.
  rewrite AnalysisFacts.patternsToAnalyze_firstn,
    AnalysisFacts.collect_flat_map.
  intro H. apply AnalysisFacts.firstn_In in H.
  apply in_flat_map in H. exact H.
Qed.

(** X1: in the report of [analyzeProject] every vulnerable entry carries
    an analysis that says unsafe, every safe entry one that says safe, and
    every error entry the message of an error that is not one of the silent
    ones; each entry names one of the files of the project. *)
Theorem analyzeProject_entries_consistent
    (fs : filesystem) (jsFiles : list jsstring) :
  let r := analyzeProject fs jsFiles in
  Forall (fun e => (exists a, analysis e = Some a /\ Detector.safe a = false
                              /\ error e = None)
                   /\ In (file e) jsFiles)
         (reportVulnerable r) /\
  Forall (fun e => (exists a, analysis e = Some a /\ Detector.safe a = true
                              /\ error e = None)
                   /\ In (file e) jsFiles)
         (reportSafe r) /\
  Forall (fun e => (exists msg, error e = Some msg /\ analysis e = None
                                /\ shouldSkipSilently toLowerCase msg = false)
                   /\ In (file e) jsFiles)
         (reportError r).
Proof.
  intro r. unfold r, Extractor.analyzeProject.
  cbn [reportVulnerable reportSafe reportError].
  destruct (AnalysisFacts.analysisLoop_flat_map RegExp_new isSafe toLowerCase
              (patternsToAnalyze (collect fs jsFiles))) as [Hv [Hs He]].
  assert (Horigin : forall p, In p (patternsToAnalyze (collect fs jsFiles)) ->
            analysis p = None /\ error p = None /\ In (file p) jsFiles).
  { intros p Hp. apply analysed_candidates in Hp.
    destruct Hp as [f [Hf Hp]].
    pose proof (extracted_fresh fs f) as HF. rewrite Forall_forall in HF.
    destruct (HF p Hp) as [H1 [H2 H3]]. rewrite H3. auto. }
  repeat split; apply Forall_forall; intros e Hin.
  - rewrite Hv in Hin. apply in_flat_map in Hin.
    destruct Hin as [p [Hp Hq]]. destruct (Horigin p Hp) as [H1 [H2 H3]].
    destruct (classifyOne p) eqn:E; simpl in Hq; try contradiction.
    destruct Hq as [Hq|[]]. subst.
    split.
    + now apply (classifyOne_fields p e H1 H2).
    + destruct (AnalysisFacts.classifyOne_entry RegExp_new isSafe toLowerCase
                  p (q:=e)) as [_ [_ [Hf _]]]; [auto|]. now rewrite Hf.
  - apply AnalysisFacts.firstn_In in Hin.
    rewrite Hs in Hin. apply in_flat_map in Hin.
    destruct Hin as [p [Hp Hq]]. destruct (Horigin p Hp) as [H1 [H2 H3]].
    destruct (classifyOne p) eqn:E; simpl in Hq; try contradiction.
    destruct Hq as [Hq|[]]. subst.
    split.
    + now apply (classifyOne_fields p e H1 H2).
    + destruct (AnalysisFacts.classifyOne_entry RegExp_new isSafe toLowerCase
                  p (q:=e)) as [_ [_ [Hf _]]]; [auto|]. now rewrite Hf.
  - rewrite He in Hin. apply in_flat_map in Hin.
    destruct Hin as [p [Hp Hq]]. destruct (Horigin p Hp) as [H1 [H2 H3]].
    destruct (classifyOne p) eqn:E; simpl in Hq; try contradiction.
    destruct Hq as [Hq|[]]. subst.
    split.
    + now apply (classifyOne_fields p e H1 H2).
    + destruct (AnalysisFacts.classifyOne_entry RegExp_new isSafe toLowerCase
                  p (q:=e)) as [_ [_ [Hf _]]]; [auto|]. now rewrite Hf.
Qed.

(** X2: a pattern gets a verdict from [analyzeProject] only if it has
    between 6 and 300 characters and holds neither U+0000 nor U+FFFD,
    although extraction keeps patterns of up to 499 characters. *)
Theorem analyzeProject_verdict_bounds
    (fs : filesystem) (jsFiles : list jsstring) :
  let r := analyzeProject fs jsFiles in
  Forall (fun e => 6 <= List.length (pattern e) <= 300 /\
                   includes (pattern e) [0%N] = false /\
                   includes (pattern e) [65533%N] = false)
         (reportVulnerable r ++ reportSafe r ++ reportError r).
Proof.
  intro r. apply Forall_forall. intros e Hin.
  assert (Hin' : In e (entries (analysisLoop
                          (patternsToAnalyze (collect fs jsFiles))))).
  { unfold r, Extractor.analyzeProject in Hin.
    cbn [reportVulnerable reportSafe reportError] in Hin.
    unfold entries. apply in_app_or in Hin. apply in_or_app.
    destruct Hin as [H|H]; [now left|right].
    apply in_app_or in H. apply in_or_app.
    destruct H as [H|H]; [left; now apply AnalysisFacts.firstn_In in H|now right]. }
  apply AnalysisFacts.entries_origin in Hin'.
  destruct Hin' as [p [Hp Hc]].
  pose proof (classifyOne_bounds p Hc) as [H300 [H0 HF]].
  apply AnalysisFacts.classifyOne_entry in Hc. destruct Hc as [E [_ _]].
  rewrite E. apply analysed_candidates in Hp. destruct Hp as [f [_ Hp]].
  pose proof (FilterFacts.extract_meaningful fs f) as HM.
  rewrite Forall_forall in HM. apply HM in Hp.
  apply FilterFacts.meaningful_iff in Hp. repeat split; auto; lia.
Qed.

Lemma analyzeProject_counts_le (fs : filesystem) (jsFiles : list jsstring) :
  let s := summary_of (analyzeProject fs jsFiles) in
  vulnerableCount s + safeCount s + errorCount s
  <= Nat.min 100 (totalPatterns s).
Proof.
  intro s. unfold s, Extractor.analyzeProject.
  cbn [summary_of vulnerableCount errorCount safeCount totalPatterns].
  set (all := collect fs jsFiles).
  pose proof (AnalysisFacts.analysisLoop_count RegExp_new isSafe toLowerCase
                (patternsToAnalyze all)) as Hc.
  assert (Hl : List.length (patternsToAnalyze all)
               = Nat.min 100 (List.length all)).
  { rewrite AnalysisFacts.patternsToAnalyze_firstn. apply List.length_firstn. }
  lia.
Qed.

(** X3: the counts of the summary of [analyzeProject] are the lengths of
    its three sequences, except that the report lists the first ten safe
    entries only; together they never exceed 100, nor the number of
    patterns found. *)
Theorem analyzeProject_summary_consistent
    (fs : filesystem) (jsFiles : list jsstring) :
  let r := analyzeProject fs jsFiles in
  let s := summary_of r in
  vulnerableCount s = List.length (reportVulnerable r) /\
  errorCount s = List.length (reportError r) /\
  List.length (reportSafe r) = Nat.min 10 (safeCount s) /\
  (exists more,
     safePatterns (analysisLoop (patternsToAnalyze (collect fs jsFiles)))
     = reportSafe r ++ more /\
     List.length more = safeCount s - 10) /\
  vulnerableCount s + safeCount s + errorCount s
    <= Nat.min 100 (totalPatterns s) /\
  totalFiles s = List.length jsFiles.
Proof.
  intros r s. unfold s, r, Extractor.analyzeProject.
  cbn [summary_of reportVulnerable reportSafe reportError vulnerableCount
       errorCount safeCount totalPatterns totalFiles].
  set (all := collect fs jsFiles).
  set (b := analysisLoop (patternsToAnalyze all)).
  repeat split.
  - apply List.length_firstn.
  - exists (skipn 10 (safePatterns b)). split.
    + symmetry. apply firstn_skipn.
    + apply List.length_skipn.
  - exact (analyzeProject_counts_le fs jsFiles).
Qed.

End Detector.

Section PlainDetector.

Variable RegExp : Type.
Variable RegExp_new : jsstring -> jsstring -> completion RegExp.
Variable isSafe : RegExp -> completion Detector.analysisResult.

Lemma plain_count (ps : list patternInfo) :
  List.length (flat_map (fun p => toVulnerable
                                    (Plain.classifyOne RegExp_new isSafe p)) ps)
  + List.length (flat_map (fun p => toSafe
                                      (Plain.classifyOne RegExp_new isSafe p)) ps)
  + List.length (flat_map (fun p => toError
                                      (Plain.classifyOne RegExp_new isSafe p)) ps)
  = List.length ps.
Proof.
  induction ps as [|p ps IH]; simpl; auto.
  rewrite !List.length_app.
  assert (H : List.length (toVulnerable (Plain.classifyOne RegExp_new isSafe p))
              + List.length (toSafe (Plain.classifyOne RegExp_new isSafe p))
              + List.length (toError (Plain.classifyOne RegExp_new isSafe p))
              = 1).
  { unfold Plain.classifyOne.
    destruct (RegExp_new (pattern p) (flags p)) as [re|msg];
      [destruct (isSafe re) as [a|msg]; [destruct (Detector.safe a)|]|];
      reflexivity. }
  lia.
Qed.

(** X4: the unfiltered [analyzeProject] gives every extracted candidate
    exactly one verdict: the three counts of its summary add up to the
    number of patterns found, whatever the detector answers or throws. *)
Theorem plain_analyzeProject_classifies_all
    (fs : filesystem) (jsFiles : list jsstring) :
  let s := summary_of (Plain.analyzeProject RegExp_new isSafe fs jsFiles) in
  vulnerableCount s + safeCount s + errorCount s = totalPatterns s /\
  totalPatterns s
  = list_sum (List.map (fun f => List.length
                                   (Unfiltered.extractRegexFromFile fs f))
                       jsFiles).
Proof.
  intro s. unfold s, Plain.analyzeProject.
  cbn [summary_of vulnerableCount safeCount errorCount totalPatterns].
  set (all := Unfiltered.collect fs jsFiles).
  destruct (push_fold (Plain.classifyOne RegExp_new isSafe) all noBuckets)
    as [Hv [Hs He]].
  unfold Plain.analysisLoop. simpl in Hv, Hs, He. rewrite Hv, Hs, He.
  split.
  - apply plain_count.
  - unfold all. rewrite AggregationFacts.unfiltered_collect_flat_map.
    apply AnalysisFacts.length_flat_map_sum.
Qed.

End PlainDetector.

(** The totals are the sums of the summaries. *)
Lemma sumUp_sums (rs : list results) (t : Driver.totals) :
  let t' := fold_left
      (fun t result =>
         {| Driver.totalPatterns_ :=
              Driver.totalPatterns_ t + totalPatterns (summary_of result);
            Driver.totalVulnerable :=
              Driver.totalVulnerable t + vulnerableCount (summary_of result);
            Driver.totalSafe :=
              Driver.totalSafe t + safeCount (summary_of result) |}) rs t in
  Driver.totalPatterns_ t'
  = Driver.totalPatterns_ t
    + list_sum (List.map (fun r => totalPatterns (summary_of r)) rs) /\
  Driver.totalVulnerable t'
  = Driver.totalVulnerable t
    + list_sum (List.map (fun r => vulnerableCount (summary_of r)) rs) /\
  Driver.totalSafe t'
  = Driver.totalSafe t
    + list_sum (List.map (fun r => safeCount (summary_of r)) rs).
Proof.
  revert t. induction rs as [|r rs IH]; intro t; simpl.
  - lia.
  - destruct (IH {| Driver.totalPatterns_ :=
                      Driver.totalPatterns_ t + totalPatterns (summary_of r);
                    Driver.totalVulnerable :=
                      Driver.totalVulnerable t + vulnerableCount (summary_of r);
                    Driver.totalSafe :=
                      Driver.totalSafe t + safeCount (summary_of r) |})
      as [H1 [H2 H3]].
    rewrite H1, H2, H3. simpl. lia.
Qed.

Lemma analyseAll_filter (analyze : Driver.project -> results)
    (fs : filesystem) (ps : list Driver.project) :
  Driver.analyseAll analyze fs ps
  = List.map analyze (filter (fun p => existsSync fs (Driver.path p)) ps).
Proof.
  unfold Driver.analyseAll.
  assert (G : forall acc,
            fold_left (fun all p =>
                         if existsSync fs (Driver.path p)
                         then all ++ [analyze p] else all) ps acc
            = acc ++ List.map analyze
                       (filter (fun p => existsSync fs (Driver.path p)) ps)).
  { induction ps as [|p ps IH]; intro acc; simpl.
    - now rewrite app_nil_r.
    - rewrite IH. destruct (existsSync fs (Driver.path p)); simpl; auto.
      now rewrite <- app_assoc. }
  apply G.
Qed.

(** X5: [main] reports one summary per project whose directory exists,
    at most three, in the order validator.js, moment.js, chalk; its totals
    are the sums of the summaries, and the vulnerable and safe totals
    together never exceed the total of patterns. *)
Theorem main_totals_consistent
    (RegExp : Type) (RegExp_new : jsstring -> jsstring -> completion RegExp)
    (isSafe : RegExp -> completion Detector.analysisResult)
    (toLowerCase : jsstring -> jsstring)
    (fs : filesystem) (findJavaScriptFiles : jsstring -> list jsstring) :
  let analyze := fun p =>
    analyzeProject RegExp_new isSafe toLowerCase fs
      (findJavaScriptFiles (Driver.path p)) in
  let summaries := fst (Driver.main analyze fs) in
  let t := snd (Driver.main analyze fs) in
  summaries
  = List.map (fun p => summary_of (analyze p))
      (filter (fun p => existsSync fs (Driver.path p)) Driver.projects) /\
  List.length summaries <= 3 /\
  Driver.totalPatterns_ t = list_sum (List.map totalPatterns summaries) /\
  Driver.totalVulnerable t = list_sum (List.map vulnerableCount summaries) /\
  Driver.totalSafe t = list_sum (List.map safeCount summaries) /\
  Driver.totalVulnerable t + Driver.totalSafe t <= Driver.totalPatterns_ t.
Proof.
  intros analyze summaries t. unfold summaries, t, Driver.main.
  cbn [fst snd]. rewrite analyseAll_filter.
  set (rs := List.map analyze _).
  destruct (sumUp_sums rs {| Driver.totalPatterns_ := 0;
                             Driver.totalVulnerable := 0;
                             Driver.totalSafe := 0 |}) as [H1 [H2 H3]].
  unfold Driver.sumUp. rewrite H1, H2, H3. cbn [Driver.totalPatterns_
    Driver.totalVulnerable Driver.totalSafe]. rewrite !List.map_map.
  assert (Hper : forall r, In r rs ->
            vulnerableCount (summary_of r) + safeCount (summary_of r)
            <= totalPatterns (summary_of r)).
  { intros r Hr. unfold rs in Hr. apply in_map_iff in Hr.
    destruct Hr as [p [Hp _]]. subst r.
    pose proof (analyzeProject_counts_le RegExp_new isSafe
                  toLowerCase fs (findJavaScriptFiles (Driver.path p))) as H.
    cbv zeta in H. fold (analyze p) in H. lia. }
  repeat split; auto.
  - unfold rs. now rewrite List.map_map.
  - unfold rs. rewrite !List.length_map.
    etransitivity; [apply List.filter_length_le|]. simpl. lia.
  - clear H1 H2 H3. induction rs as [|r rs' IH]; simpl; [lia|].
    assert (Hr := Hper r (or_introl eq_refl)).
    assert (IH' : forall r0, In r0 rs' ->
              vulnerableCount (summary_of r0) + safeCount (summary_of r0)
              <= totalPatterns (summary_of r0)).
    { intros r0 H0. apply Hper. now right. }
    specialize (IH IH'). lia.
Qed.

End ReportFacts.

(** ** What a benchmark records *)

Module CallFacts.
Import Benchmark Calls.

Section Engine.

Variable RegExp : Type.
Variable RegExp_new : jsstring -> jsstring -> completion RegExp.
Variable test : RegExp -> jsstring -> testRun RegExp.

Lemma filter_fresh (ts : list timer) (id : nat) (t : timer) :
  Forall (fun t => timerId t < id) ts -> timerId t = id ->
  filter (fun t => negb (Nat.eqb (timerId t) id)) (ts ++ [t]) = ts.
Proof.
  intros H Ht. rewrite filter_app. simpl. rewrite Ht, Nat.eqb_refl. simpl.
  rewrite app_nil_r. induction H as [|x l Hx _ IH]; simpl; auto.
  assert (E : Nat.eqb (timerId x) id = false) by (apply Nat.eqb_neq; lia).
  rewrite E. simpl. now rewrite IH.
Qed.

(** One turn of the loop: the sample of the call is appended, the clock
    moves by the duration of the call, and the timer armed is cleared. *)
Lemma runSample_step (st : loopState RegExp) (input : jsstring) :
  wellFormed (runtime_of st) ->
  let run := test (regex_of st) input in
  let st' := runSample test st input in
  regex_of st' = after run /\
  results_of st' = results_of st ++ [sampleOf (input, run)] /\
  clock (runtime_of st') = (clock (runtime_of st) + nanoseconds run)%Z /\
  timers (runtime_of st') = timers (runtime_of st) /\
  nextTimerId (runtime_of st') = S (nextTimerId (runtime_of st)) /\
  cells (runtime_of st') = cells (runtime_of st) ++ [false].
Proof.
  intro Hwf. unfold runSample, sampleOf. simpl.
  pose proof (BenchmarkFacts.timedOut_still_false (runtime_of st)
                (nanoseconds (test (regex_of st) input))) as Hcell.
  simpl in Hcell. unfold readCell in *. simpl in *.
  destruct (answer (test (regex_of st) input)) as [res|message].
  - rewrite Hcell. simpl.
    match goal with
    | |- context [filter ?f ?l] =>
        replace (filter f l) with (timers (runtime_of st))
          by (symmetry; apply filter_fresh; auto)
    end.
    repeat split; auto.
    repeat f_equal. lia.
  - simpl.
    match goal with
    | |- context [filter ?f ?l] =>
        replace (filter f l) with (timers (runtime_of st))
          by (symmetry; apply filter_fresh; auto)
    end.
    repeat split; auto.
Qed.

Lemma runSample_wellFormed (st : loopState RegExp) (input : jsstring) :
  wellFormed (runtime_of st) ->
  wellFormed (runtime_of (runSample test st input)).
Proof.
  intro Hwf. destruct (runSample_step st input Hwf) as [_ [_ [_ [Ht [Hn _]]]]].
  unfold wellFormed. rewrite Ht, Hn.
  eapply Forall_impl; [|exact Hwf]. simpl. intros; lia.
Qed.

Lemma fold_runSample (inputs : list jsstring) (st : loopState RegExp) :
  wellFormed (runtime_of st) ->
  let calls := trace test (regex_of st) inputs in
  let st' := fold_left (runSample test) inputs st in
  results_of st' = results_of st ++ List.map (@sampleOf RegExp) calls /\
  clock (runtime_of st')
  = (clock (runtime_of st)
     + fold_right Z.add 0%Z (List.map (fun c => nanoseconds (snd c)) calls))%Z /\
  timers (runtime_of st') = timers (runtime_of st) /\
  nextTimerId (runtime_of st') = nextTimerId (runtime_of st) + List.length inputs.
Proof.
  revert st. induction inputs as [|i inputs IH]; intros st Hwf; simpl.
  - rewrite app_nil_r. repeat split; auto; lia.
  - destruct (runSample_step st i Hwf) as [Hr [Hres [Hc [Ht [Hn _]]]]].
    destruct (IH (runSample test st i) (runSample_wellFormed st i Hwf))
      as [H1 [H2 [H3 H4]]].
    rewrite H1, H2, H3, H4, Hr, Hres, Hc, Ht, Hn.
    rewrite <- app_assoc. simpl. repeat split; auto; lia.
Qed.

(** X6: when the pattern compiles, [benchmarkPattern] makes one call of
    [test] per input, in order, each on the expression object the previous
    call left, and records it as one sample: the elapsed milliseconds and
    the answer when the call returns, duration 0 and the message when it
    throws.  It moves the clock by the sum of the durations of the calls and
    leaves no timer armed. *)
Theorem benchmarkPattern_records_calls
    (pat fl : jsstring) (inputs : list jsstring) (rt : runtime)
    (regex : RegExp) :
  RegExp_new pat fl = Normal regex ->
  wellFormed rt ->
  let calls := trace test regex inputs in
  exists rt',
    benchmarkPattern RegExp_new test pat fl inputs rt
    = Normal (List.map (@sampleOf RegExp) calls, rt') /\
    List.map fst calls = inputs /\
    clock rt'
    = (clock rt
       + fold_right Z.add 0%Z (List.map (fun c => nanoseconds (snd c)) calls))%Z /\
    timers rt' = timers rt /\
    wellFormed rt'.
Proof.
  intros Hnew Hwf calls. unfold benchmarkPattern. rewrite Hnew.
  set (st0 := {| regex_of := regex; runtime_of := rt; results_of := [] |}).
  destruct (fold_runSample inputs st0 Hwf) as [H1 [H2 [H3 H4]]].
  simpl in H1, H2, H3, H4.
  eexists. split; [rewrite H1; reflexivity|].
  repeat split; auto.
  - unfold calls. clear. revert regex.
    induction inputs as [|i l IH]; intro regex; simpl; auto. now rewrite IH.
  - unfold wellFormed. rewrite H3, H4.
    eapply Forall_impl; [|exact Hwf]. simpl. intros; lia.
Qed.

End Engine.

(** The theorem at the nested-quantifier pattern, on the fresh runtime. *)
Lemma benchmarkPattern_records_calls_witness :
  Fixtures.RegExp_new (lit "^(a+)+$") []
  = Normal {| Fixtures.source := lit "^(a+)+$"; Fixtures.flagsOf := [];
              Fixtures.lastIndex := 0 |} /\
  wellFormed startRuntime /\
  exists rt',
    benchmarkPattern Fixtures.RegExp_new (Fixtures.testTaking 7)
      (lit "^(a+)+$") [] [lit "aaax"; lit "aaaaaax"] startRuntime
    = Normal (List.map (@sampleOf Fixtures.regexObject)
                (trace (Fixtures.testTaking 7)
                   {| Fixtures.source := lit "^(a+)+$"; Fixtures.flagsOf := [];
                      Fixtures.lastIndex := 0 |}
                   [lit "aaax"; lit "aaaaaax"]), rt') /\
    List.map fst
      (trace (Fixtures.testTaking 7)
         {| Fixtures.source := lit "^(a+)+$"; Fixtures.flagsOf := [];
            Fixtures.lastIndex := 0 |}
         [lit "aaax"; lit "aaaaaax"]) = [lit "aaax"; lit "aaaaaax"] /\
    clock rt'
    = (clock startRuntime
       + fold_right Z.add 0%Z
           (List.map (fun c => nanoseconds (snd c))
              (trace (Fixtures.testTaking 7)
                 {| Fixtures.source := lit "^(a+)+$"; Fixtures.flagsOf := [];
                    Fixtures.lastIndex := 0 |}
                 [lit "aaax"; lit "aaaaaax"])))%Z /\
    timers rt' = timers startRuntime /\
    wellFormed rt'.
Proof.
  assert (H1 : Fixtures.RegExp_new (lit "^(a+)+$") []
               = Normal {| Fixtures.source := lit "^(a+)+$";
                           Fixtures.flagsOf := [];
                           Fixtures.lastIndex := 0 |}) by reflexivity.
  assert (H2 : wellFormed startRuntime) by (unfold wellFormed; simpl; constructor).
  split; [exact H1|]. split; [exact H2|].
  exact (benchmarkPattern_records_calls Fixtures.RegExp_new
           (Fixtures.testTaking 7) (lit "^(a+)+$") []
           [lit "aaax"; lit "aaaaaax"] H1 H2).
Defined.

End CallFacts.

(** ** Severity and extent of a benchmark run *)

Module RunFacts.
Import Benchmark Calls.

Lemma generateReDoSInputs_bounds (pat : jsstring) :
  3 <= List.length (generateReDoSInputs pat) <= 18 /\
  Forall (fun input => 21 <= List.length input <= 205)
         (generateReDoSInputs pat).
Proof.
  unfold generateReDoSInputs.
  destruct (includes pat (lit "5[1-5]") || includes pat (lit "222"));
  destruct (includes pat (lit "a-z") && includes pat (lit "{2,}"));
  destruct (includes pat (lit "hsla?"));
  destruct (includes pat (lit "Mon|Tue|Wed"));
  destruct (includes pat (lit "\[") && includes pat (lit "MM?M?M?"));
  destruct (includes pat (lit "\s\s*"));
  (split; [vm_compute; lia|]);
  repeat (constructor; [vm_compute; lia|]);
  constructor.
Qed.

Section Engine.

Variable RegExp : Type.
Variable RegExp_new : jsstring -> jsstring -> completion RegExp.
Variable test : RegExp -> jsstring -> testRun RegExp.

Lemma runSample_sample (st : loopState RegExp) (input : jsstring) :
  regex_of (runSample test st input) = after (test (regex_of st) input) /\
  results_of (runSample test st input)
  = results_of st ++ [sampleOf (input, test (regex_of st) input)].
Proof.
  unfold runSample, sampleOf. simpl.
  pose proof (BenchmarkFacts.timedOut_still_false (runtime_of st)
                (nanoseconds (test (regex_of st) input))) as Hcell.
  simpl in Hcell. unfold readCell in *. simpl in *.
  destruct (answer (test (regex_of st) input)) as [res|message].
  - rewrite Hcell. simpl. split; auto. repeat f_equal. lia.
  - simpl. auto.
Qed.

Lemma fold_runSample_samples (inputs : list jsstring) (st : loopState RegExp) :
  results_of (fold_left (runSample test) inputs st)
  = results_of st
    ++ List.map (@sampleOf RegExp) (trace test (regex_of st) inputs).
Proof.
  revert st. induction inputs as [|i inputs IH]; intro st; simpl.
  - now rewrite app_nil_r.
  - destruct (runSample_sample st i) as [Hr Hs].
    rewrite IH, Hr, Hs, <- app_assoc. reflexivity.
Qed.

Lemma benchmarkPattern_samples (pat fl : jsstring) (inputs : list jsstring)
    (rt : runtime) (regex : RegExp) :
  RegExp_new pat fl = Normal regex ->
  exists rt',
    benchmarkPattern RegExp_new test pat fl inputs rt
    = Normal (List.map (@sampleOf RegExp) (trace test regex inputs), rt').
Proof.
  intro Hnew. unfold benchmarkPattern. rewrite Hnew.
  eexists. rewrite fold_runSample_samples. reflexivity.
Qed.

Lemma trace_length (regex : RegExp) (inputs : list jsstring) :
  List.length (trace test regex inputs) = List.length inputs.
Proof.
  revert regex. induction inputs as [|i l IH]; intro regex; simpl; auto.
Qed.

Lemma no_timedOutSample (calls : list (jsstring * testRun RegExp)) :
  ~ timedOutSample (List.map (@sampleOf RegExp) calls).
Proof.
  intros [r [Hin Ht]]. apply in_map_iff in Hin.
  destruct Hin as [[input run] [Hr _]]. subst r. unfold sampleOf in Ht.
  destruct (answer run); discriminate.
Qed.

(** A sample is slower than [ms] milliseconds exactly when its call
    returned after more than [ms] million nanoseconds. *)
Lemma slowSample_slowCall (ms : Z) (calls : list (jsstring * testRun RegExp)) :
  (0 <= ms)%Z ->
  slowSample (inject_Z ms) (List.map (@sampleOf RegExp) calls)
  <-> slowCall (ms * 1000000) calls.
Proof.
  intro Hms. unfold slowSample, slowCall. split.
  - intros [r [Hin [_ Hlt]]]. apply in_map_iff in Hin.
    destruct Hin as [[input run] [Hr Hin]]. subst r.
    unfold sampleOf in Hlt. destruct (answer run) as [res|m] eqn:E.
    + exists (input, run), res. simpl. repeat split; auto.
      simpl in Hlt. unfold Qlt in Hlt. simpl in Hlt. lia.
    + simpl in Hlt. unfold Qlt in Hlt. simpl in Hlt. lia.
  - intros [[input run] [res [Hin [Ha Hlt]]]]. simpl in Ha, Hlt.
    exists (sampleOf (input, run)). split; [now apply in_map|].
    unfold sampleOf. rewrite Ha. simpl. split; [discriminate|].
    unfold Qlt. simpl. lia.
Qed.

(** X7: the severity that [main] prints for a pattern it has just
    benchmarked depends only on the calls that returned: HIGH when one of
    them took more than 1000 ms, else MEDIUM when one took more than 100 ms,
    else LOW (so also when every call threw); it is never CRITICAL. *)
Theorem severity_of_benchmark
    (pat fl : jsstring) (inputs : list jsstring) (rt : runtime)
    (regex : RegExp) :
  RegExp_new pat fl = Normal regex ->
  let calls := trace test regex inputs in
  exists rs rt',
    benchmarkPattern RegExp_new test pat fl inputs rt = Normal (rs, rt') /\
    (statusOf rs = HIGH <-> slowCall 1000000000 calls) /\
    (statusOf rs = MEDIUM <->
       ~ slowCall 1000000000 calls /\ slowCall 100000000 calls) /\
    (statusOf rs = LOW <-> ~ slowCall 100000000 calls) /\
    (statusOf rs = HIGH \/ statusOf rs = MEDIUM \/ statusOf rs = LOW).
Proof.
  intros Hnew calls.
  destruct (benchmarkPattern_samples inputs rt Hnew) as [rt' Hrun].
  exists (List.map (@sampleOf RegExp) calls), rt'. split; [exact Hrun|].
  set (rs := List.map (@sampleOf RegExp) calls).
  pose proof (no_timedOutSample calls) as HnT. fold rs in HnT.
  pose proof (SeverityFacts.hasTimeout_iff rs) as HT.
  pose proof (SeverityFacts.maxTime_exceeds_iff 1000 rs) as HH.
  pose proof (SeverityFacts.maxTime_exceeds_iff 100 rs) as HM.
  assert (H1000 : slowSample 1000 rs <-> slowCall 1000000000 calls)
    by (apply (slowSample_slowCall (ms:=1000%Z) calls); lia).
  assert (H100 : slowSample 100 rs <-> slowCall 100000000 calls)
    by (apply (slowSample_slowCall (ms:=100%Z) calls); lia).
  unfold statusOf.
  destruct (existsb (fun r => truthy (timeout r)) rs);
    [exfalso; apply HnT; now apply HT|].
  destruct (exceeds _ 1000) eqn:E1.
  - assert (S1 : slowCall 1000000000 calls) by (apply H1000, HH; reflexivity).
    repeat split; auto; try discriminate; try tauto.
    intro Hn. exfalso. apply Hn.
    destruct S1 as [c [res [Hin [Ha Hlt]]]]. exists c, res.
    repeat split; auto; lia.
  - assert (N1 : ~ slowCall 1000000000 calls).
    { intro S1. apply H1000, HH in S1. congruence. }
    destruct (exceeds _ 100) eqn:E2.
    + assert (S2 : slowCall 100000000 calls) by (apply H100, HM; reflexivity).
      repeat split; auto; try discriminate; try tauto.
    + assert (N2 : ~ slowCall 100000000 calls).
      { intro S2. apply H100, HM in S2. congruence. }
      repeat split; auto; try discriminate; try tauto.
Qed.

#[local] Abbreviation compiles := (compiles RegExp_new).

Lemma benchmarkEach_all (vulns : list Quick.entry) :
  Forall compiles vulns ->
  forall done rt,
  exists bs rt',
    benchmarkEach RegExp_new test vulns done rt = Normal (done ++ bs, rt') /\
    List.map (fun b => (pattern b, file b)) bs = List.map labelOf vulns /\
    Forall (fun b => 3 <= List.length (results b) <= 18 /\
                     Forall (fun r => 21 <= inputLength r <= 205) (results b))
           bs.
Proof.
  induction 1 as [|v vulns [regex Hv] _ IH]; intros done rt; simpl.
  - exists [], rt. rewrite app_nil_r. repeat split; auto.
  - destruct (benchmarkPattern_samples
                (generateReDoSInputs (Quick.pattern v)) rt Hv) as [rt1 Hrun].
    rewrite Hrun.
    set (b := {| pattern := Quick.pattern v; file := Quick.file v;
                 results := _ |}).
    destruct (IH (done ++ [b]) rt1) as [bs [rt' [Hbs [Hlab Hall]]]].
    exists (b :: bs), rt'. split; [|split].
    + rewrite Hbs, <- app_assoc. reflexivity.
    + simpl. now rewrite Hlab.
    + constructor; [|exact Hall]. unfold b. simpl.
      destruct (generateReDoSInputs_bounds (Quick.pattern v)) as [Hn Hl].
      rewrite List.length_map, trace_length. split; [exact Hn|].
      apply Forall_forall. intros r Hr. apply in_map_iff in Hr.
      destruct Hr as [[input run] [Hr Hin]]. subst r.
      assert (Hi : In input (generateReDoSInputs (Quick.pattern v))).
      { clear -Hin. revert regex Hin.
        induction (generateReDoSInputs (Quick.pattern v)) as [|i l IHl];
          intros regex Hin; simpl in Hin; [contradiction|].
        destruct Hin as [Hin|Hin]; [inversion Hin; now left|right; eauto]. }
      rewrite Forall_forall in Hl. specialize (Hl input Hi).
      unfold sampleOf. destruct (answer run); simpl; exact Hl.
Qed.

(** X8: when the first three vulnerable patterns of every project
    compile, the first loop of [main] completes; it benchmarks the projects
    that list a vulnerable pattern, in order, and of each its first three
    vulnerable patterns only, each on between 3 and 18 inputs of 21 to 205
    characters. *)
Theorem benchmarkProjects_extent (projects : Quick.allResults) (rt : runtime) :
  Forall (fun pr => Forall compiles (firstn 3 (Quick.vulnerable (snd pr))))
         projects ->
  exists allBenchmarks rt',
    benchmarkProjects RegExp_new test projects [] rt
    = Normal (allBenchmarks, rt') /\
    List.map (fun pb => (fst pb,
                         List.map (fun b => (pattern b, file b)) (snd pb)))
             allBenchmarks
    = List.map (fun pr => (fst pr,
                           List.map labelOf
                             (firstn 3 (Quick.vulnerable (snd pr)))))
               (benchmarked projects) /\
    Forall (fun pb =>
              1 <= List.length (snd pb) <= 3 /\
              Forall (fun b => 3 <= List.length (results b) <= 18 /\
                               Forall (fun r => 21 <= inputLength r <= 205)
                                      (results b))
                     (snd pb))
           allBenchmarks.
Proof.
  intro Hall.
  assert (G : forall acc rt0,
            exists bs rt',
              benchmarkProjects RegExp_new test projects acc rt0
              = Normal (acc ++ bs, rt') /\
              List.map (fun pb => (fst pb,
                          List.map (fun b => (pattern b, file b)) (snd pb))) bs
              = List.map (fun pr => (fst pr,
                            List.map labelOf
                              (firstn 3 (Quick.vulnerable (snd pr)))))
                         (benchmarked projects) /\
              Forall (fun pb =>
                        1 <= List.length (snd pb) <= 3 /\
                        Forall (fun b => 3 <= List.length (results b) <= 18 /\
                                  Forall (fun r => 21 <= inputLength r <= 205)
                                         (results b))
                               (snd pb)) bs).
  { induction Hall as [|[project r] projects Hpr _ IH]; intros acc rt0; simpl.
    - exists [], rt0. rewrite app_nil_r. repeat split; auto.
    - simpl in Hpr.
      destruct (Nat.ltb 0 (List.length (Quick.vulnerable r))) eqn:E; simpl.
      + destruct (benchmarkEach_all Hpr [] rt0) as [bs [rt1 [Hbs [Hlab Hb]]]].
        rewrite Hbs. simpl.
        destruct (IH (acc ++ [(project, bs)]) rt1) as [rest [rt' [H1 [H2 H3]]]].
        exists ((project, bs) :: rest), rt'. split; [|split].
        * rewrite H1, <- app_assoc. reflexivity.
        * simpl. now rewrite Hlab, H2.
        * constructor; [|exact H3]. simpl. split; [|exact Hb].
          assert (Hl : List.length bs
                       = List.length (firstn 3 (Quick.vulnerable r))).
          { rewrite <- (List.length_map (fun b => (pattern b, file b))), Hlab.
            apply List.length_map. }
          rewrite Hl, List.length_firstn. apply Nat.ltb_lt in E. lia.
      + apply IH. }
  destruct (G [] rt) as [bs [rt' [H1 [H2 H3]]]].
  exists bs, rt'. auto.
Qed.

End Engine.

(** The theorem of X7 at the nested-quantifier pattern, on an engine that
    compiles it. *)
Lemma severity_of_benchmark_witness :
  Fixtures.RegExp_new (lit "^(a+)+$") []
  = Normal {| Fixtures.source := lit "^(a+)+$"; Fixtures.flagsOf := [];
              Fixtures.lastIndex := 0 |} /\
  exists rs rt',
    benchmarkPattern Fixtures.RegExp_new (Fixtures.testTaking 1500)
      (lit "^(a+)+$") [] [lit "aaax"] startRuntime = Normal (rs, rt') /\
    (statusOf rs = HIGH <->
     slowCall 1000000000
       (trace (Fixtures.testTaking 1500)
          {| Fixtures.source := lit "^(a+)+$"; Fixtures.flagsOf := [];
             Fixtures.lastIndex := 0 |} [lit "aaax"])) /\
    (statusOf rs = MEDIUM <->
     ~ slowCall 1000000000
         (trace (Fixtures.testTaking 1500)
            {| Fixtures.source := lit "^(a+)+$"; Fixtures.flagsOf := [];
               Fixtures.lastIndex := 0 |} [lit "aaax"]) /\
     slowCall 100000000
       (trace (Fixtures.testTaking 1500)
          {| Fixtures.source := lit "^(a+)+$"; Fixtures.flagsOf := [];
             Fixtures.lastIndex := 0 |} [lit "aaax"])) /\
    (statusOf rs = LOW <->
     ~ slowCall 100000000
         (trace (Fixtures.testTaking 1500)
            {| Fixtures.source := lit "^(a+)+$"; Fixtures.flagsOf := [];
               Fixtures.lastIndex := 0 |} [lit "aaax"])) /\
    (statusOf rs = HIGH \/ statusOf rs = MEDIUM \/ statusOf rs = LOW).
Proof.
  assert (H1 : Fixtures.RegExp_new (lit "^(a+)+$") []
               = Normal {| Fixtures.source := lit "^(a+)+$";
                           Fixtures.flagsOf := [];
                           Fixtures.lastIndex := 0 |}) by reflexivity.
  split; [exact H1|].
  exact (severity_of_benchmark Fixtures.RegExp_new (Fixtures.testTaking 1500)
           (lit "^(a+)+$") [] [lit "aaax"] startRuntime H1).
Defined.

(** The theorem of X8 at a file of results with one project and one
    pattern. *)
Lemma benchmarkProjects_extent_witness :
  Forall (fun pr => Forall (compiles Fixtures.RegExp_new)
                           (firstn 3 (Quick.vulnerable (snd pr))))
         [ (lit "moment.js",
            {| Quick.vulnerable := [BenchmarkCases.nestedEntry];
               Quick.safe := [] |}) ] /\
  exists allBenchmarks rt',
    benchmarkProjects Fixtures.RegExp_new (Fixtures.testTaking 1)
      [ (lit "moment.js",
         {| Quick.vulnerable := [BenchmarkCases.nestedEntry];
            Quick.safe := [] |}) ] [] startRuntime
    = Normal (allBenchmarks, rt') /\
    List.map (fun pb => (fst pb,
                         List.map (fun b => (pattern b, file b)) (snd pb)))
             allBenchmarks
    = List.map (fun pr => (fst pr,
                           List.map labelOf
                             (firstn 3 (Quick.vulnerable (snd pr)))))
               (benchmarked
                  [ (lit "moment.js",
                     {| Quick.vulnerable := [BenchmarkCases.nestedEntry];
                        Quick.safe := [] |}) ]) /\
    Forall (fun pb =>
              1 <= List.length (snd pb) <= 3 /\
              Forall (fun b => 3 <= List.length (results b) <= 18 /\
                               Forall (fun r => 21 <= inputLength r <= 205)
                                      (results b))
                     (snd pb))
           allBenchmarks.
Proof.
  assert (H : Forall (fun pr => Forall (compiles Fixtures.RegExp_new)
                                  (firstn 3 (Quick.vulnerable (snd pr))))
                [ (lit "moment.js",
                   {| Quick.vulnerable := [BenchmarkCases.nestedEntry];
                      Quick.safe := [] |}) ]).
  { repeat constructor. eexists. reflexivity. }
  split; [exact H|].
  exact (benchmarkProjects_extent (Fixtures.testTaking 1) startRuntime H).
Defined.

End RunFacts.

(** ** The projects of the quick analysis *)

Module ProjectFacts.
Import Quick.

Lemma keys_extend (k : jsstring) (r : analysed) (m : allResults) :
  List.map fst (extend k r m)
  = if existsb (jsstring_eqb k) (List.map fst m)
    then List.map fst m else List.map fst m ++ [k].
Proof.
  induction m as [|[k' v] m IH]; simpl; auto.
  destruct (jsstring_eqb k k') eqn:E; simpl; auto.
  rewrite IH. destruct (existsb (jsstring_eqb k) (List.map fst m)); auto.
Qed.

Lemma existsb_key (k : jsstring) (ks : list jsstring) :
  existsb (jsstring_eqb k) ks = true <-> In k ks.
Proof.
  rewrite existsb_exists. split.
  - intros [x [Hx E]]. apply AggregationFacts.jsstring_eqb_eq in E. now subst.
  - intro H. exists k. split; auto. now apply AggregationFacts.jsstring_eqb_eq.
Qed.

Lemma projectNameOf_cases (f : jsstring) :
  projectNameOf f = lit "validator.js" \/ projectNameOf f = lit "moment.js"
  \/ projectNameOf f = lit "chalk".
Proof.
  unfold projectNameOf.
  destruct (includes f (lit "validator")); auto.
  destruct (includes f (lit "moment")); auto.
Qed.

Section Detector.

Variable RegExp : Type.
Variable RegExp_new : jsstring -> jsstring -> completion RegExp.
Variable isSafe : RegExp -> completion Detector.analysisResult.
Variable fs : filesystem.

#[local] Abbreviation visit := (visit RegExp_new isSafe fs).

#[local] Abbreviation productive := (Projects.productive fs).

Lemma keys_visit (acc : allResults) (f : jsstring) :
  List.map fst (visit acc f)
  = if existsSync fs f && Nat.ltb 0 (List.length (quickExtract fs f))
       && negb (existsb (jsstring_eqb (projectNameOf f)) (List.map fst acc))
    then List.map fst acc ++ [projectNameOf f]
    else List.map fst acc.
Proof.
  unfold Quick.visit. destruct (existsSync fs f); simpl; auto.
  destruct (Nat.ltb 0 (List.length (quickExtract fs f))); simpl; auto.
  rewrite keys_extend.
  destruct (existsb (jsstring_eqb (projectNameOf f)) (List.map fst acc)); auto.
Qed.

Lemma productive_iff (f : jsstring) :
  existsSync fs f && Nat.ltb 0 (List.length (quickExtract fs f)) = true
  <-> productive f.
Proof.
  unfold productive. rewrite andb_true_iff, Nat.ltb_lt.
  destruct (quickExtract fs f); simpl; split; intros [H1 H2]; split; auto;
    try lia; try congruence.
Qed.

Lemma keys_fold (files : list jsstring) (acc : allResults) :
  NoDup (List.map fst acc) ->
  let m := fold_left visit files acc in
  NoDup (List.map fst m) /\
  forall k, In k (List.map fst m) <->
            In k (List.map fst acc) \/
            exists f, In f files /\ productive f /\ projectNameOf f = k.
Proof.
  revert acc. induction files as [|f files IH]; intros acc Hnd; simpl.
  - split; auto. intro k. split; auto. intros [H|[f [[] _]]]. exact H.
  - assert (Hnd' : NoDup (List.map fst (visit acc f))).
    { rewrite keys_visit.
      destruct (existsSync fs f && Nat.ltb 0 (List.length (quickExtract fs f)));
        simpl; auto.
      destruct (existsb (jsstring_eqb (projectNameOf f)) (List.map fst acc))
        eqn:E; simpl; auto.
      apply NoDup_app; auto.
      - constructor; [intros []|constructor].
      - intros x Hx [Hx'|[]]. subst x.
        apply existsb_key in Hx. congruence. }
    destruct (IH (visit acc f) Hnd') as [H1 H2]. split; auto.
    intro k. rewrite H2, keys_visit. clear H1 H2 IH.
    destruct (existsSync fs f && Nat.ltb 0 (List.length (quickExtract fs f)))
      eqn:Ep; simpl.
    + apply productive_iff in Ep.
      destruct (existsb (jsstring_eqb (projectNameOf f)) (List.map fst acc))
        eqn:E; simpl.
      * apply existsb_key in E. split.
        -- intros [H|[g [Hg H]]]; auto. right. exists g. auto.
        -- intros [H|[g [[Hg|Hg] [Hp Hk]]]]; auto.
           ++ subst g. left. now rewrite <- Hk.
           ++ right. exists g. auto.
      * rewrite in_app_iff. simpl. split.
        -- intros [[H|[H|[]]]|[g [Hg H]]]; auto.
           ++ right. exists f. auto.
           ++ right. exists g. auto.
        -- intros [H|[g [[Hg|Hg] [Hp Hk]]]]; auto.
           ++ subst g. left. right. left. exact Hk.
           ++ right. exists g. auto.
    + assert (Hn : ~ productive f).
      { intro H. apply productive_iff in H. congruence. }
      split.
      * intros [H|[g [Hg H]]]; auto. right. exists g. auto.
      * intros [H|[g [[Hg|Hg] [Hp Hk]]]]; auto.
        -- subst g. contradiction.
        -- right. exists g. auto.
Qed.

(** X9: the object [allResults] of the quick analysis holds each project
    once, and only the projects validator.js, moment.js and chalk; a
    project is in it exactly when one of its target files exists and yields
    at least one pattern, so a project whose files hold no pattern is absent
    from the report rather than listed with empty sequences. *)
Theorem aggregate_projects (targetFiles : list jsstring) :
  let m := aggregate RegExp_new isSafe fs targetFiles in
  NoDup (List.map fst m) /\
  List.length m <= 3 /\
  Forall (fun k => k = lit "validator.js" \/ k = lit "moment.js"
                   \/ k = lit "chalk") (List.map fst m) /\
  forall k, In k (List.map fst m) <->
            exists f, In f targetFiles /\ productive f /\ projectNameOf f = k.
Proof.
  intro m.
  destruct (keys_fold targetFiles [] (NoDup_nil _)) as [Hnd Hk].
  fold (aggregate RegExp_new isSafe fs targetFiles) in Hnd, Hk. fold m in Hnd, Hk.
  assert (Hnames : Forall (fun k => k = lit "validator.js"
                                    \/ k = lit "moment.js" \/ k = lit "chalk")
                          (List.map fst m)).
  { apply Forall_forall. intros k Hin. apply Hk in Hin.
    destruct Hin as [[]|[f [_ [_ Hf]]]]. subst k. apply projectNameOf_cases. }
  split; [exact Hnd|]. split; [|split; [exact Hnames|]].
  - rewrite <- (List.length_map fst).
    assert (Hincl : incl (List.map fst m)
                         [lit "validator.js"; lit "moment.js"; lit "chalk"]).
    { intros k Hin. rewrite Forall_forall in Hnames.
      destruct (Hnames k Hin) as [H|[H|H]]; subst; simpl; auto. }
    apply (NoDup_incl_length Hnd) in Hincl. exact Hincl.
  - intro k. rewrite Hk. split.
    + intros [[]|H]. exact H.
    + intro H. now right.
Qed.

End Detector.

End ProjectFacts.

(** ** The comparison of the tools *)

Module ToolFacts.
Import Tools.

Section Tools.

Variable RegExp : Type.
Variable safeRegex : jsstring -> completion bool.
Variable RegExp_new : jsstring -> completion RegExp.
Variable isSafe : RegExp + jsstring -> completion Detector.analysisResult.

#[local] Abbreviation evaluate := (evaluate safeRegex RegExp_new isSafe).
#[local] Abbreviation withSafeRegex := (withSafeRegex safeRegex).
#[local] Abbreviation withRedosDetector := (withRedosDetector RegExp_new isSafe).

Lemma marked_app (ds : list detail) (d : detail) :
  marked (ds ++ [d]) = if correct_ d then S (marked ds) else marked ds.
Proof.
  unfold marked. rewrite filter_app, List.length_app. simpl.
  destruct (correct_ d); simpl; lia.
Qed.

Lemma evaluate_fold (cases : list testCase) (r : results) :
  let r' := fold_left
      (fun r testCase =>
         {| safe_regex := count (safe_regex r) (withSafeRegex testCase);
            redos_detector :=
              count (redos_detector r) (withRedosDetector testCase) |})
      cases r in
  details (safe_regex r')
    = details (safe_regex r) ++ List.map withSafeRegex cases /\
  details (redos_detector r')
    = details (redos_detector r) ++ List.map withRedosDetector cases /\
  total (safe_regex r') = total (safe_regex r) + List.length cases /\
  total (redos_detector r') = total (redos_detector r) + List.length cases /\
  correct (safe_regex r')
    = correct (safe_regex r) + marked (List.map withSafeRegex cases) /\
  correct (redos_detector r')
    = correct (redos_detector r) + marked (List.map withRedosDetector cases).
Proof.
  revert r. induction cases as [|c cases IH]; intro r; simpl.
  - rewrite !app_nil_r. unfold marked. simpl. repeat split; lia.
  - destruct (IH {| safe_regex := count (safe_regex r) (withSafeRegex c);
                    redos_detector :=
                      count (redos_detector r) (withRedosDetector c) |})
      as [H1 [H2 [H3 [H4 [H5 H6]]]]].
    rewrite H1, H2, H3, H4, H5, H6. simpl.
    rewrite <- !app_assoc. simpl.
    change (withSafeRegex c :: List.map withSafeRegex cases)
      with ([withSafeRegex c] ++ List.map withSafeRegex cases).
    change (withRedosDetector c :: List.map withRedosDetector cases)
      with ([withRedosDetector c] ++ List.map withRedosDetector cases).
    unfold marked. rewrite !filter_app, !List.length_app. simpl.
    destruct (correct_ (withSafeRegex c)), (correct_ (withRedosDetector c));
      simpl; repeat split; lia.
Qed.

Lemma marked_le (ds : list detail) : marked ds <= List.length ds.
Proof. apply List.filter_length_le. Qed.

(** X10: whatever the two tools answer or throw, [evaluateTools] counts
    every test case once for each tool: the total of a tool is the number
    of test cases, its details hold one record per test case in order, its
    count of correct answers is the number of details marked correct, and a
    detail whose actual status is ERROR is never marked correct. *)
Theorem evaluate_tallies (cases : list testCase) :
  let r := evaluate cases in
  total (safe_regex r) = List.length cases /\
  total (redos_detector r) = List.length cases /\
  List.map pattern_ (details (safe_regex r)) = List.map pattern cases /\
  List.map pattern_ (details (redos_detector r)) = List.map pattern cases /\
  List.map expected_ (details (safe_regex r)) = List.map expected cases /\
  List.map expected_ (details (redos_detector r)) = List.map expected cases /\
  correct (safe_regex r) = marked (details (safe_regex r)) /\
  correct (redos_detector r) = marked (details (redos_detector r)) /\
  correct (safe_regex r) <= total (safe_regex r) /\
  correct (redos_detector r) <= total (redos_detector r) /\
  Forall (fun d => actual d = ERROR -> correct_ d = false)
         (details (safe_regex r) ++ details (redos_detector r)).
Proof.
  intro r.
  destruct (evaluate_fold cases
              {| safe_regex := {| correct := 0; total := 0; details := [] |};
                 redos_detector :=
                   {| correct := 0; total := 0; details := [] |} |})
    as [H1 [H2 [H3 [H4 [H5 H6]]]]].
  fold (evaluate cases) in H1, H2, H3, H4, H5, H6. fold r in H1, H2, H3, H4, H5, H6.
  simpl in H1, H2, H3, H4, H5, H6.
  rewrite H1, H2, H3, H4, H5, H6, !List.map_map.
  assert (Hs : forall c, pattern_ (withSafeRegex c) = pattern c
                         /\ expected_ (withSafeRegex c) = expected c
                         /\ (actual (withSafeRegex c) = ERROR ->
                             correct_ (withSafeRegex c) = false)).
  { intro c. unfold Tools.withSafeRegex.
    destruct (safeRegex (pattern c)) as [[|]|]; simpl; repeat split; auto;
      intro H; vm_compute in H; discriminate. }
  assert (Hd : forall c, pattern_ (withRedosDetector c) = pattern c
                         /\ expected_ (withRedosDetector c) = expected c
                         /\ (actual (withRedosDetector c) = ERROR ->
                             correct_ (withRedosDetector c) = false)).
  { intro c. unfold Tools.withRedosDetector.
    destruct (isSafe _) as [a|]; simpl; repeat split; auto.
    destruct (Detector.safe a); intro H; vm_compute in H; discriminate. }
  repeat split; auto.
  - apply List.map_ext. intro c. apply Hs.
  - apply List.map_ext. intro c. apply Hd.
  - apply List.map_ext. intro c. apply Hs.
  - apply List.map_ext. intro c. apply Hd.
  - rewrite <- (List.length_map withSafeRegex cases). apply marked_le.
  - rewrite <- (List.length_map withRedosDetector cases). apply marked_le.
  - apply Forall_app. split; apply Forall_forall; intros d Hin;
      apply in_map_iff in Hin; destruct Hin as [c [Hc _]]; subst d.
    + apply Hs.
    + apply Hd.
Qed.

(** X11: the tool that [evaluateTools] recommends is redos-detector
    exactly when it has strictly more correct answers than safe-regex; on a
    tie, and when there is no test case, it is safe-regex. *)
Theorem bestTool_most_correct (cases : list testCase) :
  let r := evaluate cases in
  (bestTool r = lit "redos-detector" <->
   correct (safe_regex r) < correct (redos_detector r)) /\
  (bestTool r = lit "safe-regex" <->
   correct (redos_detector r) <= correct (safe_regex r)).
Proof.
  intro r.
  destruct (evaluate_fold cases
              {| safe_regex := {| correct := 0; total := 0; details := [] |};
                 redos_detector :=
                   {| correct := 0; total := 0; details := [] |} |})
    as [_ [_ [T1 [T2 [C1 C2]]]]].
  fold (evaluate cases) in T1, T2, C1, C2. fold r in T1, T2, C1, C2.
  simpl in T1, T2, C1, C2.
  assert (L1 : correct (safe_regex r) <= List.length cases).
  { rewrite C1, <- (List.length_map withSafeRegex cases). apply marked_le. }
  assert (L2 : correct (redos_detector r) <= List.length cases).
  { rewrite C2, <- (List.length_map withRedosDetector cases). apply marked_le. }
  assert (Hcmp : negb (Qle_bool (accuracy (redos_detector r))
                                (accuracy (safe_regex r))) = true
                 <-> correct (safe_regex r) < correct (redos_detector r)).
  { rewrite SeverityFacts.gt_iff. unfold accuracy. rewrite T1, T2.
    destruct (Nat.ltb 0 (List.length cases)) eqn:E.
    - unfold Qlt. simpl. apply Nat.ltb_lt in E.
      split; intro H; nia.
    - apply Nat.ltb_ge in E.
      unfold Qlt. simpl. split; intro H; lia. }
  unfold bestTool.
  destruct (negb (Qle_bool (accuracy (redos_detector r))
                           (accuracy (safe_regex r)))) eqn:E.
  - assert (H : correct (safe_regex r) < correct (redos_detector r))
      by now apply Hcmp.
    split; split; auto; try lia.
    intro H'. vm_compute in H'. discriminate.
  - assert (H : ~ correct (safe_regex r) < correct (redos_detector r)).
    { intro H. apply Hcmp in H. congruence. }
    split; split; auto; try lia.
    intro H'. vm_compute in H'. discriminate.
Qed.

End Tools.

End ToolFacts.

(** ** The directory walk *)

Module WalkFacts.
Import Walk.

Lemma node_induction (P : node -> Prop) :
  P File -> P Other ->
  (forall items, Forall (fun kv => P (snd kv)) items -> P (Directory items)) ->
  forall n, P n.
Proof.
  intros HF HO HD.
  refine (fix IH (n : node) : P n :=
            match n with
            | File => HF
            | Other => HO
            | Directory items =>
                HD items
                  ((fix aux (l : list (jsstring * node))
                      : Forall (fun kv => P (snd kv)) l :=
                      match l with
                      | [] => Forall_nil _
                      | kv :: l' => Forall_cons kv (IH (snd kv)) (aux l')
                      end) items)
            end).
Qed.

Section Path.

Variable join : jsstring -> jsstring -> jsstring.
Variable extname : jsstring -> jsstring.
Variable extensions : list jsstring.

#[local] Abbreviation walkItem := (walkItem join extname extensions).
#[local] Abbreviation walkDir := (walkDir join extname extensions).
#[local] Abbreviation kept := (kept extname extensions).

Lemma walkItem_directory (fullPath item : jsstring)
    (items : list (jsstring * node)) (files : list jsstring) :
  walkItem fullPath item (Directory items) files
  = if negb (includesName skippedNames item)
    then walkDir fullPath items files else files.
Proof.
  simpl.
  match goal with |- (if ?c then _ else _) = _ => destruct c end;
    [|reflexivity].
  revert files. induction items as [|[it n] rest IH]; intro files;
    [reflexivity|].
  cbn [Walk.walkDir]. apply IH.
Qed.

#[local] Abbreviation contribution :=
  (Walk.contribution join extname extensions).
#[local] Abbreviation faithful := (Walk.faithful join extname extensions).

Lemma walkDir_faithful (items : list (jsstring * node)) :
  Forall (fun kv => faithful (snd kv)) items ->
  forall currentDir,
    (forall files,
       walkDir currentDir items files = files ++ walkDir currentDir items [])
    /\ forall p, In p (walkDir currentDir items [])
                 <-> exists names f,
                       located items names f /\ kept names f /\
                       p = fold_left join (names ++ [f]) currentDir.
Proof.
  induction 1 as [|[it n] rest Hn _ IH]; intro currentDir; simpl.
  - split; [intro; now rewrite app_nil_r|].
    intro p. split; [intros []|].
    intros [names [f [Hloc _]]]. destruct names as [|d names]; simpl in Hloc.
    + exact Hloc.
    + destruct Hloc as [sub [[] _]].
  - simpl in Hn. destruct (Hn (join currentDir it) it) as [Hacc Hin].
    destruct (IH currentDir) as [IHacc IHin].
    assert (Hsplit : forall files,
              walkDir currentDir rest (walkItem (join currentDir it) it n files)
              = files ++ walkItem (join currentDir it) it n []
                ++ walkDir currentDir rest []).
    { intro files. rewrite IHacc, Hacc, <- app_assoc. reflexivity. }
    split.
    + intro files. rewrite Hsplit, (Hsplit []). reflexivity.
    + intro p. rewrite (Hsplit []). simpl. rewrite in_app_iff, Hin, IHin.
      clear Hacc Hin IHacc IHin Hsplit. split.
      * intros [Hc|[names [f [Hloc [Hk Hp]]]]].
        -- destruct n as [|sub|]; simpl in Hc.
           ++ destruct Hc as [He Hp]. exists [], it.
              split; [simpl; now left|].
              split; [split; [constructor|exact He]|]. simpl. exact Hp.
           ++ destruct Hc as [Hs [names [f [Hloc [[Hk He] Hp]]]]].
              exists (it :: names), f.
              split; [simpl; exists sub; split; [now left|exact Hloc]|].
              split; [split; [now constructor|exact He]|]. simpl. exact Hp.
           ++ contradiction.
        -- exists names, f. split; [|split; [exact Hk|exact Hp]].
           destruct names as [|d names]; simpl in *.
           ++ now right.
           ++ destruct Hloc as [sub [Hsub Hl]]. exists sub. split; auto.
      * intros [names [f [Hloc [[Hk He] Hp]]]].
        destruct names as [|d names]; simpl in Hloc.
        -- destruct Hloc as [Heq|Hin].
           ++ inversion Heq; subst. left. simpl. split; auto.
           ++ right. exists [], f.
              split; [exact Hin|]. split; [split; auto|first [exact Hp|reflexivity]].
        -- destruct Hloc as [sub [[Heq|Hin] Hl]].
           ++ inversion Heq; subst. left. simpl.
              inversion Hk; subst. split; [assumption|].
              exists names, f. split; [exact Hl|].
              split; [split; assumption|first [exact Hp|reflexivity]].
           ++ right. exists (d :: names), f.
              split; [simpl; exists sub; split; assumption|].
              split; [split; assumption|first [exact Hp|reflexivity]].
Qed.

Lemma walkItem_faithful (n : node) : faithful n.
Proof.
  induction n as [| |items IH] using node_induction; intros fullPath item.
  - simpl. destruct (includesName extensions (extname item)); simpl.
    + split; auto. intro p. split.
      * intros [H|[]]. auto.
      * intros [_ H]. now left.
    + split; [intro; now rewrite app_nil_r|].
      intro p. split; [intros []|intros [H _]; discriminate].
  - simpl. split; [intro; now rewrite app_nil_r|]. intro p. tauto.
  - destruct (walkDir_faithful IH fullPath) as [Hacc Hin].
    split.
    + intro files. rewrite !walkItem_directory.
      destruct (negb (includesName skippedNames item)).
      * apply Hacc.
      * now rewrite app_nil_r.
    + intro p. rewrite walkItem_directory. unfold contribution.
      destruct (includesName skippedNames item); cbn [negb].
      * split; [intros []|intros [H _]; discriminate].
      * rewrite Hin. split; [intro H; split; auto|intros [_ H]; exact H].
Qed.

(** X12: [findJavaScriptFiles] returns exactly the paths of the files of
    the tree whose extension is one of those looked for and that lie under
    no directory named node_modules, .git, coverage, dist, build, test,
    tests or __tests__ (below the directory it is given); each path is the
    directory joined with the names on the way. *)
Theorem findJavaScriptFiles_exact (dir : jsstring)
    (items : list (jsstring * node)) (p : jsstring) :
  In p (findJavaScriptFiles join extname extensions dir items)
  <-> exists names f,
        located items names f /\
        Forall (fun d => includesName skippedNames d = false) names /\
        includesName extensions (extname f) = true /\
        p = fold_left join (names ++ [f]) dir.
Proof.
  unfold findJavaScriptFiles.
  assert (HF : Forall (fun kv => faithful (snd kv)) items).
  { apply Forall_forall. intros kv _. apply walkItem_faithful. }
  destruct (walkDir_faithful HF dir) as [_ Hin]. rewrite Hin.
  unfold Walk.kept. split; intros [names [f H]]; exists names, f; tauto.
Qed.

End Path.

End WalkFacts.

(** ** Where a match lies and what its groups hold *)

Module CaptureFacts.
Import RegexFacts Shapes.

Lemma star_loop_steady (step : matcher) (L : jsstring -> Prop) :
  steady step L ->
  forall fuel,
    steady (star_loop step fuel)
           (fun w => exists ws, w = List.concat ws /\ Forall L ws).
Proof.
  intros Hstep fuel. induction fuel as [|fuel IH]; intros b s c k res H.
  - simpl in H. exists [], s, b. repeat split; auto. exists []. split; auto.
  - simpl in H.
    destruct (step b s c _) as [r0|] eqn:E.
    + inversion H; subst r0; clear H.
      apply Hstep in E. destruct E as [w1 [s1 [b1 [Hs [Hw Hk]]]]].
      destruct (Nat.ltb (List.length s1) (List.length s)); [|discriminate].
      apply IH in Hk. destruct Hk as [w2 [s2 [b2 [Hs2 [[ws [Hw2 Hws]] Hk]]]]].
      exists (w1 ++ w2), s2, b2. repeat split; auto.
      * rewrite Hs, Hs2. now rewrite app_assoc.
      * exists (w1 :: ws). split; [simpl; now rewrite Hw2 | now constructor].
    + exists [], s, b. repeat split; auto. exists []. split; auto.
Qed.

Lemma rmatch_steady (r : regex) :
  groupless r = true -> steady (rmatch r) (denote r).
Proof.
  induction r as [|p|r1 IH1 r2 IH2|r1 IH1 r2 IH2|r1 IH1|i r1 IH1|r1 IH1| |];
    intros Hg b s c k res H; simpl in H, Hg.
  - exists [], s, b. simpl. auto.
  - destruct s as [|x s']; [discriminate|].
    destruct (p x) eqn:Hp; [|discriminate].
    exists [x], s', false. simpl. repeat split; auto. now exists x.
  - apply andb_true_iff in Hg. destruct Hg as [Hg1 Hg2].
    apply (IH1 Hg1) in H. destruct H as [w1 [s1 [b1 [Hs [Hw H]]]]].
    apply (IH2 Hg2) in H. destruct H as [w2 [s2 [b2 [Hs2 [Hw2 H]]]]].
    exists (w1 ++ w2), s2, b2. repeat split; auto.
    + rewrite Hs, Hs2. now rewrite app_assoc.
    + simpl. now exists w1, w2.
  - apply andb_true_iff in Hg. destruct Hg as [Hg1 Hg2].
    destruct (rmatch r1 b s c k) as [r0|] eqn:E.
    + inversion H; subst r0. apply (IH1 Hg1) in E.
      destruct E as [w [s' [b' [Hs [Hw Hk]]]]].
      exists w, s', b'. simpl. auto.
    + apply (IH2 Hg2) in H. destruct H as [w [s' [b' [Hs [Hw Hk]]]]].
      exists w, s', b'. simpl. auto.
  - apply (star_loop_steady (IH1 Hg)) in H. exact H.
  - discriminate.
  - destruct (rmatch r1 b s c accept); [discriminate|].
    exists [], s, b. simpl. auto.
  - destruct b; [|discriminate]. exists [], s, true. simpl. auto.
  - destruct s; [|discriminate]. exists [], [], b. simpl. auto.
Qed.

(** A group around an expression without groups binds the text the
    expression consumed. *)
Lemma rmatch_group (i : nat) (r : regex) (b : bool) (s : jsstring)
    (c : caps) (k : cont) (res : result) :
  groupless r = true ->
  rmatch (Group i r) b s c k = Some res ->
  exists w s' b', s = w ++ s' /\ denote r w /\ k b' s' ((i, w) :: c) = Some res.
Proof.
  intros Hg H. simpl in H. apply (rmatch_steady r Hg) in H.
  destruct H as [w [s' [b' [Hs [Hw Hk]]]]]. subst s.
  rewrite firstn_consumed in Hk. exists w, s', b'. auto.
Qed.

Lemma rmatch_chr (p : N -> bool) (b : bool) (s : jsstring) (c : caps)
    (k : cont) (res : result) :
  rmatch (Chr p) b s c k = Some res ->
  exists x s', s = x :: s' /\ p x = true /\ k false s' c = Some res.
Proof.
  simpl. destruct s as [|x s']; [discriminate|].
  destruct (p x) eqn:E; [|discriminate]. intro H. exists x, s'. auto.
Qed.

Lemma search_here (r : regex) (s : jsstring) :
  forall b f, search r b s = Some f ->
  exists pre b' s0, s = pre ++ s0 /\ match_here r b' s0 = Some f /\
                    (b' = true -> pre = [] /\ b = true).
Proof.
  induction s as [|x s IH]; intros b f H; simpl in H.
  - destruct (match_here r b []) eqn:E; [|discriminate].
    inversion H; subst. exists [], b, []. auto.
  - destruct (match_here r b (x :: s)) eqn:E.
    + inversion H; subst. exists [], b, (x :: s). auto.
    + apply IH in H. destruct H as [pre [b' [s0 [Hs [Hm Hb]]]]].
      exists (x :: pre), b', s0. subst s.
      split; [reflexivity|split; [exact Hm|]].
      intro Hb'. destruct (Hb Hb') as [_ Hf]. discriminate.
Qed.

(** A match lies in the text searched. *)
Lemma search_slice (r : regex) (s : jsstring) (b : bool) (f : found) :
  search r b s = Some f -> exists pre, s = pre ++ matched f ++ rest f.
Proof.
  intro H. apply search_here in H. destruct H as [pre [b' [s0 [Hs [Hm _]]]]].
  apply match_here_denote in Hm. destruct Hm as [_ Hm].
  exists pre. now rewrite <- Hm.
Qed.

(** A property of every match found at some position holds of all the
    texts of a global match; each of them lies in the text searched. *)
Lemma match_all_Forall (r : regex) (P : jsstring -> Prop) :
  (forall b s f, match_here r b s = Some f -> P (matched f)) ->
  forall s, Forall (fun m => P m /\ slice s m) (match_all r s).
Proof.
  intros HP s. unfold match_all.
  assert (G : forall fuel b t pre,
            s = pre ++ t ->
            Forall (fun m => P m /\ slice s m) (match_all_from r fuel b t)).
  { induction fuel as [|fuel IH]; intros b t pre Hs; simpl; [constructor|].
    destruct (search r b t) as [f|] eqn:E; [|constructor].
    pose proof (search_slice _ _ _ E) as [pre' Ht].
    assert (Hsl : slice s (matched f)).
    { exists (pre ++ pre'), (rest f). rewrite Hs, Ht, <- app_assoc. reflexivity. }
    assert (HPf : P (matched f)).
    { apply search_here in E. destruct E as [p0 [b' [s0 [_ [Hm _]]]]].
      eapply HP; eauto. }
    constructor; [split; assumption|].
    destruct (matched f) as [|y w] eqn:Em; destruct (rest f) as [|z t'] eqn:Er;
      try constructor.
    - apply (IH false t' (pre ++ pre' ++ [z])).
      rewrite Hs, Ht. simpl. rewrite <- !app_assoc. reflexivity.
    - apply (IH false [] (pre ++ pre' ++ y :: w)).
      rewrite Hs, Ht. rewrite <- !app_assoc. reflexivity.
    - apply (IH false (z :: t') (pre ++ pre' ++ y :: w)).
      rewrite Hs, Ht. rewrite <- !app_assoc. reflexivity. }
  apply (G _ true s []). reflexivity.
Qed.

End CaptureFacts.

(** ** What the recorded texts are *)

Module ShapeFacts.
Import Extractor RegexFacts Shapes CaptureFacts ExtractionFacts.

Lemma rmatch_seq (a b : regex) (bb : bool) (s : jsstring) (c : caps) (k : cont) :
  rmatch (Seq a b) bb s c k
  = rmatch a bb s c (fun b' s' c' => rmatch b b' s' c' k).
Proof. reflexivity. Qed.

Lemma flagChar_not_slash (y : N) : flagChar y = true -> y <> 47%N.
Proof. intros H E. subst y. vm_compute in H. discriminate. Qed.

Lemma dot_oneLine (w : jsstring) : denote (Star dot) w -> oneLine w.
Proof.
  intro H. apply denote_star_chr in H. unfold oneLine.
  eapply Forall_impl; [|exact H]. simpl. intros a Ha.
  now apply negb_true_iff in Ha.
Qed.

(** What a successful run of the expression that splits a literal
    binds. *)
Lemma splitLiteral_groups (m : jsstring) (f : found) :
  match_first splitLiteral m = Some f ->
  exists pat fl,
    m = 47%N :: pat ++ 47%N :: fl /\
    capture 1 (groups f) = Some pat /\ capture 2 (groups f) = Some fl /\
    oneLine pat /\ flagText fl.
Proof.
  unfold match_first. intro H. apply search_here in H.
  destruct H as [pre [b' [s0 [Hs [Hm Hb]]]]].
  unfold match_here in Hm.
  destruct (rmatch splitLiteral b' s0 [] accept) as [[s' c]|] eqn:E;
    [|discriminate].
  inversion Hm; subst f; clear Hm. simpl.
  unfold splitLiteral in E. rewrite rmatch_seq in E.
  destruct b'; [|discriminate E].
  destruct (Hb eq_refl) as [Hpre _]. subst pre. simpl in Hs. subst s0.
  cbn [rmatch] in E. cbv beta in E. fold (rmatch (Star dot)) in E.
  change (rmatch (Seq (c1 "/") (Seq (Group 1 (Star dot)) (Seq (c1 "/")
            (Seq (Group 2 (Star (Chr flagChar))) Eol)))) true m [] accept
          = Some (s', c)) in E.
  rewrite rmatch_seq in E. apply rmatch_chr in E.
  destruct E as [x [s1 [Hm [Hx E]]]]. apply N.eqb_eq in Hx. subst x m.
  rewrite rmatch_seq in E. apply rmatch_group in E; [|reflexivity].
  destruct E as [pat [s2 [b2 [Hs1 [Hpat E]]]]].
  rewrite rmatch_seq in E. apply rmatch_chr in E.
  destruct E as [y [s3 [Hs2 [Hy E]]]]. apply N.eqb_eq in Hy. subst y.
  rewrite rmatch_seq in E. apply rmatch_group in E; [|reflexivity].
  destruct E as [fl [s4 [b4 [Hs3 [Hfl E]]]]].
  simpl in E. destruct s4; [|discriminate]. inversion E; subst s' c; clear E.
  exists pat, fl. subst s1 s2 s3. rewrite app_nil_r. simpl.
  repeat split; auto.
  - now apply dot_oneLine.
  - now apply denote_star_chr.
Qed.


Lemma rmatch_notahead_chr (p : N -> bool) (b : bool) (s : jsstring)
    (c : caps) (k : cont) (res : result) :
  rmatch (NotAhead (Chr p)) b s c k = Some res ->
  k b s c = Some res /\ forall x t, s = x :: t -> p x = false.
Proof.
  simpl. destruct s as [|y s']; [intro H; split; [exact H|discriminate]|].
  destruct (p y) eqn:E; [discriminate|].
  intro H. split; [exact H|]. intros x t Hx. inversion Hx; subst. exact E.
Qed.

(** A match of [regexPatterns[0]] has, after its opening slash, a code
    unit that is neither a star nor a slash. *)
Lemma literalRegex_opening (b : bool) (s : jsstring) (f : found) :
  match_here literalRegex b s = Some f ->
  exists x t, matched f = 47%N :: x :: t /\ x <> 42%N /\ x <> 47%N.
Proof.
  intro Hm. unfold match_here in Hm.
  destruct (rmatch literalRegex b s [] accept) as [[s' c]|] eqn:E;
    [|discriminate].
  inversion Hm; subst f; clear Hm. simpl.
  unfold literalRegex in E. rewrite rmatch_seq in E. apply rmatch_chr in E.
  destruct E as [y [s1 [Hy [Hy47 E]]]]. apply N.eqb_eq in Hy47. subst y.
  rewrite rmatch_seq in E. apply rmatch_notahead_chr in E.
  destruct E as [E Hx]. apply rmatch_sound in E.
  destruct E as [w [s2 [b2 [c2 [Hw [Hd Hk]]]]]].
  inversion Hk; subst s2 c2; clear Hk.
  destruct Hd as [u [v [Huv [_ [u' [v' [Hv [[z [Hz _]] _]]]]]]]].
  destruct w as [|x w']; [subst; destruct u; discriminate|].
  exists x, w'.
  assert (Hs : s = (47%N :: x :: w') ++ s') by (subst s s1; reflexivity).
  rewrite Hs, firstn_consumed. subst s1.
  specialize (Hx x (w' ++ s') eq_refl).
  repeat split; intro; subst x; vm_compute in Hx; discriminate.
Qed.


Lemma literal_matches (content : jsstring) :
  Forall (fun m => (exists x t, m = 47%N :: x :: t /\ x <> 42%N /\ x <> 47%N)
                   /\ slice content m)
         (match_all literalRegex content).
Proof.
  apply match_all_Forall. intros b s f H.
  now apply literalRegex_opening in H.
Qed.

Lemma literal_split (m pat fl : jsstring) (f : found) :
  (exists x t, m = 47%N :: x :: t /\ x <> 42%N /\ x <> 47%N) ->
  match_first splitLiteral m = Some f ->
  capture 1 (groups f) = Some pat -> capture 2 (groups f) = Some fl ->
  literalText m pat fl.
Proof.
  intros [x [t [Hm [Hx1 Hx2]]]] Hf H1 H2.
  apply splitLiteral_groups in Hf.
  destruct Hf as [pat' [fl' [Hm' [Hc1 [Hc2 [Hp Hfl]]]]]].
  rewrite H1 in Hc1. rewrite H2 in Hc2.
  inversion Hc1; inversion Hc2; subst pat' fl'; clear Hc1 Hc2.
  repeat split; auto.
  rewrite Hm in Hm'. destruct pat as [|x' t'].
  - simpl in Hm'. inversion Hm'. contradiction.
  - inversion Hm'; subst x'. exists x, t'. auto.
Qed.

Lemma quote_isQuote (q : N) :
  (N.eqb q 39 || N.eqb q 34)%bool = true -> isQuote q.
Proof.
  intro H. apply orb_true_iff in H. unfold isQuote.
  destruct H as [H|H]; apply N.eqb_eq in H; auto.
Qed.

(** The head of the constructor expressions consumes the keyword, the
    name and the parenthesis, and binds nothing. *)
Lemma rmatch_constructorHead (r : regex) (b : bool) (s : jsstring) (c : caps)
    (k : cont) (res : result) :
  rmatch (constructorHead r) b s c k = Some res ->
  exists sp1 sp2 sp3 s' b',
    s = lit "new" ++ sp1 ++ lit "RegExp" ++ sp2 ++ lit "(" ++ sp3 ++ s' /\
    spaces sp1 /\ spaces sp2 /\ spaces sp3 /\
    rmatch r b' s' c k = Some res.
Proof.
  intro H.
  change (rmatch (constructorHead Empty) b s c
            (fun b' s' c' => rmatch r b' s' c' k) = Some res) in H.
  apply rmatch_steady in H; [|reflexivity].
  destruct H as [w [s' [b' [Hs [Hw Hk]]]]].
  apply denote_constructorHead in Hw.
  destruct Hw as [sp1 [sp2 [sp3 [t [Hw [H1 [H2 [H3 Ht]]]]]]]].
  simpl in Ht. subst t. exists sp1, sp2, sp3, s', b'.
  repeat split; auto. subst s w. rewrite app_nil_r.
  repeat rewrite <- app_assoc. reflexivity.
Qed.

(** What a successful run of the expression that reads a constructor
    call binds. *)
Lemma splitConstructor_groups (m : jsstring) (f : found) :
  match_first splitConstructor m = Some f ->
  exists pat, capture 1 (groups f) = Some pat /\ constructorText m pat.
Proof.
  unfold match_first. intro H. apply search_here in H.
  destruct H as [pre [b' [s0 [Hs [Hm _]]]]].
  unfold match_here in Hm.
  destruct (rmatch splitConstructor b' s0 [] accept) as [[s' c]|] eqn:E;
    [|discriminate].
  inversion Hm; subst f; clear Hm. simpl.
  unfold splitConstructor in E. apply rmatch_constructorHead in E.
  destruct E as [sp1 [sp2 [sp3 [s1 [b1 [Hs0 [H1 [H2 [H3 E]]]]]]]]].
  rewrite rmatch_seq in E. apply rmatch_chr in E.
  destruct E as [q [s2 [Hs1 [Hq E]]]].
  rewrite rmatch_seq in E. apply rmatch_group in E; [|reflexivity].
  destruct E as [pat [s3 [b3 [Hs2 [Hpat E]]]]].
  apply rmatch_chr in E. destruct E as [q' [s4 [Hs3 [Hq' E]]]].
  inversion E; subst s' c; clear E.
  exists pat. split; [simpl; reflexivity|].
  exists pre, sp1, sp2, sp3, q, q', s4.
  subst m s0 s1 s2 s3. repeat split; auto using quote_isQuote.
  apply denote_star_chr in Hpat. unfold quoteFree.
  eapply Forall_impl; [|exact Hpat]. simpl. intros a Ha.
  apply negb_true_iff, orb_false_iff in Ha. destruct Ha as [Ha1 Ha2].
  apply N.eqb_neq in Ha1, Ha2. auto.
Qed.


Lemma constructor_matches (content : jsstring) :
  Forall (slice content) (match_all constructorRegex content).
Proof.
  pose proof (@match_all_Forall constructorRegex (fun _ => True)
                (fun _ _ _ _ => I) content) as H.
  eapply Forall_impl; [|exact H]. simpl. tauto.
Qed.

Section Texts.
Variable fs : filesystem.
Variable f : jsstring.

(** X13: every entry the extractor records was read off the file.  Its
    [full] text occurs in the content; for a literal it is a slash, the
    pattern, a slash and the flags, where the flags are letters of gimsuvy
    and the pattern holds no line terminator and opens with neither a star nor
    a slash; for a constructor call the flags are empty whatever the call
    passes, and the pattern is the text between the first quote character
    after the parenthesis and the next quote character of either kind. *)
Theorem extractRegexFromFile_texts (p : patternInfo) :
  In p (extractRegexFromFile fs f) ->
  exists content,
    readFileSync fs f = Normal content /\ slice content (full p) /\
    ((type p = literal /\ literalText (full p) (pattern p) (flags p)) \/
     (type p = constructor /\ flags p = [] /\
      constructorText (full p) (pattern p))).
Proof.
  unfold extractRegexFromFile.
  destruct (readFileSync fs f) as [content|]; [|intros []].
  intro H. exists content. split; [reflexivity|].
  apply in_app_or in H. destruct H as [H|H];
    apply in_flat_map in H; destruct H as [m [Hm Hp]].
  - pose proof (literal_matches content) as HF.
    rewrite Forall_forall in HF. destruct (HF m Hm) as [Hopen Hsl].
    unfold literalEntry in Hp.
    destruct (match_first splitLiteral m) as [fd|] eqn:Ef; [|destruct Hp].
    destruct (capture 1 (groups fd)) as [pat|] eqn:E1; [|destruct Hp].
    destruct (capture 2 (groups fd)) as [fl|] eqn:E2; [|destruct Hp].
    destruct (meaningful pat); [|destruct Hp].
    destruct Hp as [Hp|[]]. subst p. simpl. split; [exact Hsl|].
    left. split; [reflexivity|]. eapply literal_split; eauto.
  - pose proof (constructor_matches content) as HF.
    rewrite Forall_forall in HF. pose proof (HF m Hm) as Hsl.
    unfold constructorEntry in Hp.
    destruct (match_first splitConstructor m) as [fd|] eqn:Ef; [|destruct Hp].
    apply splitConstructor_groups in Ef. destruct Ef as [pat' [Hc Ht]].
    rewrite Hc in Hp.
    destruct (meaningful pat'); [|destruct Hp].
    destruct Hp as [Hp|[]]. subst p. simpl. split; [exact Hsl|].
    right. auto.
Qed.

(** X14: every entry of the extractor that does not filter was read off
    the file as well: its [full] text occurs in the content; a literal is a
    slash, the pattern, a slash and the flags, with flags of gimsuvy and a
    pattern of one line that opens with neither a star nor a slash; a
    constructor call has empty flags and as pattern the text between two
    quote characters, itself free of quote characters. *)
Theorem unfiltered_extractRegexFromFile_texts (p : patternInfo) :
  In p (Unfiltered.extractRegexFromFile fs f) ->
  exists content,
    readFileSync fs f = Normal content /\ slice content (full p) /\
    ((type p = literal /\ literalText (full p) (pattern p) (flags p)) \/
     (type p = constructor /\ flags p = [] /\
      constructorText (full p) (pattern p))).
Proof.
  unfold Unfiltered.extractRegexFromFile.
  destruct (readFileSync fs f) as [content|]; [|intros []].
  intro H. exists content. split; [reflexivity|].
  apply in_app_or in H. destruct H as [H|H];
    apply in_flat_map in H; destruct H as [m [Hm Hp]].
  - pose proof (literal_matches content) as HF.
    rewrite Forall_forall in HF. destruct (HF m Hm) as [Hopen Hsl].
    unfold Unfiltered.literalEntry in Hp.
    destruct (match_first splitLiteral m) as [fd|] eqn:Ef; [|destruct Hp].
    destruct (capture 1 (groups fd)) as [pat|] eqn:E1; [|destruct Hp].
    destruct (capture 2 (groups fd)) as [fl|] eqn:E2; [|destruct Hp].
    destruct Hp as [Hp|[]]. subst p. simpl. split; [exact Hsl|].
    left. split; [reflexivity|]. eapply literal_split; eauto.
  - pose proof (constructor_matches content) as HF.
    rewrite Forall_forall in HF. pose proof (HF m Hm) as Hsl.
    unfold Unfiltered.constructorEntry in Hp.
    destruct (match_first splitConstructor m) as [fd|] eqn:Ef; [|destruct Hp].
    apply splitConstructor_groups in Ef. destruct Ef as [pat' [Hc Ht]].
    rewrite Hc in Hp.
    destruct Hp as [Hp|[]]. subst p. simpl. split; [exact Hsl|].
    right. auto.
Qed.

(** X15: every entry of the quick extraction is a literal of the file: a
    text of the content made of a slash, the pattern, a slash and the flags,
    with a pattern of more than five code units; it carries the path, and no
    score yet. *)
Theorem quickExtract_texts (e : Quick.entry) :
  In e (Quick.quickExtract fs f) ->
  Quick.file e = f /\ 5 < List.length (Quick.pattern e) /\
  Quick.score e = None /\ Quick.infinite e = None /\
  exists content m,
    readFileSync fs f = Normal content /\ slice content m /\
    literalText m (Quick.pattern e) (Quick.flags e).
Proof.
  unfold Quick.quickExtract.
  destruct (readFileSync fs f) as [content|]; [|intros []].
  intro H. apply in_flat_map in H. destruct H as [m [Hm Hp]].
  pose proof (literal_matches content) as HF.
  rewrite Forall_forall in HF. destruct (HF m Hm) as [Hopen Hsl].
  unfold Quick.literalEntry in Hp.
  destruct (match_first splitLiteral m) as [fd|] eqn:Ef; [|destruct Hp].
  destruct (capture 1 (groups fd)) as [pat|] eqn:E1; [|destruct Hp].
  destruct (capture 2 (groups fd)) as [fl|] eqn:E2; [|destruct Hp].
  destruct (Nat.ltb 5 (List.length pat)) eqn:El; [|destruct Hp].
  destruct Hp as [Hp|[]]. subst e. simpl.
  apply Nat.ltb_lt in El.
  split; [reflexivity|split; [exact El|split; [reflexivity|split;
    [reflexivity|]]]].
  exists content, m.
  split; [reflexivity|split; [exact Hsl|eapply literal_split; eauto]].
Qed.

End Texts.

Lemma extractRegexFromFile_texts_witness :
  In ShapeCases.hexEntry
     (extractRegexFromFile ShapeCases.mixed (lit "src/lib/isHex.js")) /\
  exists content,
    readFileSync ShapeCases.mixed (lit "src/lib/isHex.js") = Normal content /\
    slice content (full ShapeCases.hexEntry) /\
    ((type ShapeCases.hexEntry = literal /\
      literalText (full ShapeCases.hexEntry) (pattern ShapeCases.hexEntry)
                  (flags ShapeCases.hexEntry)) \/
     (type ShapeCases.hexEntry = constructor /\
      flags ShapeCases.hexEntry = [] /\
      constructorText (full ShapeCases.hexEntry)
                      (pattern ShapeCases.hexEntry))).
Proof.
  assert (H : In ShapeCases.hexEntry
                 (extractRegexFromFile ShapeCases.mixed
                    (lit "src/lib/isHex.js")))
    by (vm_compute; auto).
  split; [exact H|].
  exact (extractRegexFromFile_texts ShapeCases.mixed (lit "src/lib/isHex.js")
           ShapeCases.hexEntry H).
Defined.

Lemma unfiltered_extractRegexFromFile_texts_witness :
  In ShapeCases.abEntry
     (Unfiltered.extractRegexFromFile ShapeCases.mixed
        (lit "src/lib/isHex.js")) /\
  exists content,
    readFileSync ShapeCases.mixed (lit "src/lib/isHex.js") = Normal content /\
    slice content (full ShapeCases.abEntry) /\
    ((type ShapeCases.abEntry = literal /\
      literalText (full ShapeCases.abEntry) (pattern ShapeCases.abEntry)
                  (flags ShapeCases.abEntry)) \/
     (type ShapeCases.abEntry = constructor /\
      flags ShapeCases.abEntry = [] /\
      constructorText (full ShapeCases.abEntry)
                      (pattern ShapeCases.abEntry))).
Proof.
  assert (H : In ShapeCases.abEntry
                 (Unfiltered.extractRegexFromFile ShapeCases.mixed
                    (lit "src/lib/isHex.js")))
    by (vm_compute; auto).
  split; [exact H|].
  exact (unfiltered_extractRegexFromFile_texts ShapeCases.mixed
           (lit "src/lib/isHex.js") ShapeCases.abEntry H).
Defined.

Lemma quickExtract_texts_witness :
  In ShapeCases.hexQuick
     (Quick.quickExtract ShapeCases.mixed (lit "src/lib/isHex.js")) /\
  (Quick.file ShapeCases.hexQuick = lit "src/lib/isHex.js" /\
   5 < List.length (Quick.pattern ShapeCases.hexQuick) /\
   Quick.score ShapeCases.hexQuick = None /\
   Quick.infinite ShapeCases.hexQuick = None /\
   exists content m,
     readFileSync ShapeCases.mixed (lit "src/lib/isHex.js") = Normal content /\
     slice content m /\
     literalText m (Quick.pattern ShapeCases.hexQuick)
                 (Quick.flags ShapeCases.hexQuick)).
Proof.
  assert (H : In ShapeCases.hexQuick
                 (Quick.quickExtract ShapeCases.mixed (lit "src/lib/isHex.js")))
    by (vm_compute; auto).
  split; [exact H|].
  exact (quickExtract_texts ShapeCases.mixed (lit "src/lib/isHex.js")
           ShapeCases.hexQuick H).
Defined.

End ShapeFacts.

(** ** A literal of the file is found again *)

Module FoundFacts.
Import Extractor RegexFacts Shapes CaptureFacts ShapeFacts.

Lemma star_loop_stop (step : matcher) (n : nat) (b : bool) (s : jsstring)
    (c : caps) (k : cont) :
  (forall K, step b s c K = None) -> star_loop step n b s c k = k b s c.
Proof. intro H. destruct n; simpl; [reflexivity|]. now rewrite H. Qed.

(** The loop follows the first path: if every unit of the text is taken
    by the step, and the run after the text succeeds, that is the result. *)
Lemma star_loop_greedy (step : matcher) (U : jsstring -> Prop)
    (g : jsstring -> caps -> caps) :
  (forall tok, U tok -> tok <> []) ->
  (forall tok b s c K r,
      U tok -> K false s (g tok c) = Some r -> step b (tok ++ s) c K = Some r) ->
  forall toks s' k r n b c,
    Forall U toks ->
    List.length (List.concat toks) <= n ->
    (forall bb n',
        star_loop step n' bb s' (fold_left (fun c t => g t c) toks c) k
        = Some r) ->
    star_loop step n b (List.concat toks ++ s') c k = Some r.
Proof.
  intros Hne Hstep toks s' k r.
  induction toks as [|tok toks IH]; intros n b c HU Hn Hend.
  - simpl. apply Hend.
  - inversion HU as [|? ? Htok HU']; subst.
    assert (Hl : 1 <= List.length tok).
    { destruct tok; [now apply Hne in Htok|simpl; lia]. }
    simpl in Hn. rewrite length_app in Hn.
    destruct n as [|n]; [lia|].
    simpl List.concat. rewrite <- app_assoc. cbn [star_loop].
    erewrite Hstep; [reflexivity|exact Htok|].
    cbv beta.
    replace (Nat.ltb (List.length (List.concat toks ++ s'))
               (List.length (tok ++ List.concat toks ++ s'))) with true
      by (symmetry; apply Nat.ltb_lt; rewrite (length_app tok); lia).
    apply IH; [exact HU'|lia|exact Hend].
Qed.

Lemma star_chr_greedy (p : N -> bool) (w s' : jsstring) (k : cont)
    (r : result) (n : nat) (b : bool) (c : caps) :
  forallb p w = true ->
  List.length w <= n ->
  (forall bb n', star_loop (rmatch (Chr p)) n' bb s' c k = Some r) ->
  star_loop (rmatch (Chr p)) n b (w ++ s') c k = Some r.
Proof.
  intros Hp Hn Hend.
  assert (Hc : List.concat (map (fun x => [x]) w) = w).
  { clear. induction w; simpl; congruence. }
  rewrite <- Hc.
  apply (@star_loop_greedy (rmatch (Chr p))
           (fun tok => exists x, tok = [x] /\ p x = true) (fun _ c => c)).
  - intros tok [x [Ht _]]. subst. discriminate.
  - intros tok b0 s c0 K r0 [x [Ht Hx]] HK. subst tok. simpl.
    now rewrite Hx.
  - rewrite forallb_forall in Hp. apply Forall_forall.
    intros tok Hin. apply in_map_iff in Hin. destruct Hin as [x [Hx Hin]].
    exists x. auto.
  - now rewrite Hc.
  - intros bb n'.
    assert (Hf : forall (l : list jsstring) (c0 : caps),
               fold_left (fun c1 _ => c1) l c0 = c0)
      by (induction l; simpl; auto).
    rewrite Hf. apply Hend.
Qed.

Section Backoff.
Variable step : matcher.
Variable p : N -> bool.
Hypothesis step_chr :
  forall b s c K,
    step b s c K
    = match s with
      | x :: s' => if p x then K false s' c else None
      | [] => None
      end.

(** The loop over one class gives up what it took until the rest can
    match. *)
Lemma star_chr_none (k : cont) (c : caps) :
  forall n v,
    (forall u v', v = u ++ v' -> k false v' c = None) ->
    star_loop step n false v c k = None.
Proof.
  induction n as [|n IH]; intros v Hk.
  - simpl. apply (Hk [] v). reflexivity.
  - cbn [star_loop]. rewrite step_chr. destruct v as [|x v'].
    + apply (Hk [] []). reflexivity.
    + destruct (p x).
      * destruct (Nat.ltb _ _).
        -- rewrite IH; [apply (Hk [] (x :: v')); reflexivity|].
           intros u v'' Hv. apply (Hk (x :: u) v''). now rewrite Hv.
        -- apply (Hk [] (x :: v')). reflexivity.
      * apply (Hk [] (x :: v')). reflexivity.
Qed.

Lemma star_chr_backoff (k : cont) (c : caps) (r : result) (w2 : jsstring) :
  (forall bb, k bb w2 c = Some r) ->
  (forall u v', w2 = u ++ v' -> u <> [] -> k false v' c = None) ->
  forall w1 n b,
    forallb p w1 = true -> List.length w1 <= n ->
    star_loop step n b (w1 ++ w2) c k = Some r.
Proof.
  intros Hok Hfail. induction w1 as [|x w1 IH]; intros n b Hp Hn.
  - simpl. destruct n as [|n]; cbn [star_loop]; [apply Hok|].
    rewrite step_chr.
    destruct w2 as [|y w2']; [apply Hok|].
    destruct (p y); [|apply Hok].
    destruct (Nat.ltb _ _); [|apply Hok].
    rewrite star_chr_none; [apply Hok|].
    intros u v' Hv. apply (Hfail (y :: u) v'); [now rewrite Hv|discriminate].
  - simpl in Hp. apply andb_true_iff in Hp. destruct Hp as [Hx Hp].
    destruct n as [|n]; [simpl in Hn; lia|].
    cbn [star_loop]. rewrite step_chr. simpl app. cbv iota. rewrite Hx.
    replace (Nat.ltb (List.length (w1 ++ w2)) (List.length (x :: w1 ++ w2)))
      with true by (symmetry; apply Nat.ltb_lt; simpl; lia).
    rewrite IH; [reflexivity|exact Hp|simpl in Hn; lia].
Qed.

End Backoff.

Lemma rmatch_chr_ok (p : N -> bool) (x : N) (b : bool) (s : jsstring)
    (c : caps) (k : cont) :
  p x = true -> rmatch (Chr p) b (x :: s) c k = k false s c.
Proof. intro H. simpl. now rewrite H. Qed.

Lemma rmatch_chr_fail (p : N -> bool) (b : bool) (s : jsstring) (c : caps)
    (k : cont) :
  (forall x t, s = x :: t -> p x = false) -> rmatch (Chr p) b s c k = None.
Proof.
  intro H. destruct s as [|x t]; [reflexivity|].
  simpl. now rewrite (H x t eq_refl).
Qed.

Lemma rmatch_notahead_ok (p : N -> bool) (b : bool) (s : jsstring)
    (c : caps) (k : cont) :
  (forall x t, s = x :: t -> p x = false) ->
  rmatch (NotAhead (Chr p)) b s c k = k b s c.
Proof.
  intro H. destruct s as [|x t]; [reflexivity|].
  simpl. now rewrite (H x t eq_refl).
Qed.

Lemma rmatch_star (r : regex) (b : bool) (s : jsstring) (c : caps) (k : cont) :
  rmatch (Star r) b s c k = star_loop (rmatch r) (List.length s) b s c k.
Proof. reflexivity. Qed.

Lemma rmatch_group_eq (i : nat) (r : regex) (b : bool) (s : jsstring)
    (c : caps) (k : cont) :
  rmatch (Group i r) b s c k
  = rmatch r b s c
      (fun b' s' c' =>
         k b' s' ((i, firstn (List.length s - List.length s') s) :: c')).
Proof. reflexivity. Qed.

Lemma wellEscaped_units (pat : jsstring) :
  wellEscaped pat = true ->
  exists toks, pat = List.concat toks /\ Forall bodyUnit toks.
Proof.
  assert (G : forall n pat, List.length pat <= n -> wellEscaped pat = true ->
              exists toks, pat = List.concat toks /\ Forall bodyUnit toks).
  { induction n as [|n IH]; intros [|x t] Hn H;
      try (exists []; split; [reflexivity|constructor]).
    - simpl in Hn. lia.
    - simpl in H, Hn. destruct (N.eqb x 92) eqn:Ex.
      + apply N.eqb_eq in Ex. subst x. destruct t as [|y t']; [discriminate|].
        destruct (IH t') as [toks [Ht Hu]]; [simpl in Hn; lia|exact H|].
        exists ([92%N; y] :: toks). split; [simpl; now rewrite <- Ht|].
        constructor; [right; now exists y|exact Hu].
      + apply andb_true_iff in H. destruct H as [Hx H].
        destruct (IH t) as [toks [Ht Hu]]; [lia|exact H|].
        exists ([x] :: toks). split; [simpl; now rewrite <- Ht|].
        constructor; [|exact Hu]. left. exists x. split; [reflexivity|].
        apply negb_true_iff in Hx. apply negb_true_iff.
        rewrite !orb_false_iff in *. tauto. }
  intro H. apply (G (List.length pat) pat); auto.
Qed.

(** One iteration of the body of [regexPatterns[0]] takes one unit. *)
Lemma literal_unit (tok : jsstring) (b : bool) (s : jsstring) (c : caps)
    (K : cont) (r : result) :
  bodyUnit tok ->
  K false s ((1, tok) :: c) = Some r ->
  rmatch (Group 1
           (Alt (Chr (fun c => negb (N.eqb c 47 || N.eqb c 10 || N.eqb c 13
                                     || N.eqb c 92)))
           (Alt (Seq (c1 "\") (Chr (fun c => negb (N.eqb c 42))))
                (Seq (c1 "\") dot)))) b (tok ++ s) c K = Some r.
Proof.
  intros Hu HK. rewrite rmatch_group_eq.
  match goal with
  | |- rmatch _ _ _ _ ?k = _ =>
      assert (Hk : k false s c = Some r)
        by (cbv beta; rewrite firstn_consumed; exact HK);
      generalize dependent k
  end.
  intros k Hk. destruct Hu as [[x [Ht Hx]]|[y Ht]]; subst tok.
  - simpl. simpl in Hx. rewrite Hx. now rewrite Hk.
  - simpl. destruct (N.eqb y 42) eqn:Ey; simpl.
    + apply N.eqb_eq in Ey. subst y. simpl. exact Hk.
    + now rewrite Hk.
Qed.

Lemma readable_parts (pat : jsstring) :
  readable pat = true ->
  (exists x t, pat = x :: t /\ oneOf "*/" x = false) /\
  wellEscaped pat = true /\
  forallb (fun c => negb (isLineTerminator c)) pat = true.
Proof.
  unfold readable. intro H.
  apply andb_true_iff in H. destruct H as [H H3].
  apply andb_true_iff in H. destruct H as [H1 H2].
  repeat split; auto.
  destruct pat as [|x t]; [discriminate|]. exists x, t. split; auto.
  simpl in H2. destruct (N.eqb x 92) eqn:E92.
  - apply N.eqb_eq in E92. subst x. reflexivity.
  - apply andb_true_iff in H2. destruct H2 as [H2 _].
    apply negb_true_iff in H1, H2. rewrite !orb_false_iff in H2.
    destruct H2 as [[H47 _] _].
    unfold oneOf. simpl. now rewrite H1, H47.
Qed.

(** A readable literal that no flag letter follows is matched whole by
    [regexPatterns[0]] where it starts. *)
Lemma literalRegex_here (pat fl post : jsstring) :
  readable pat = true -> forallb flagChar fl = true -> stops post = true ->
  exists c, forall b,
    match_here literalRegex b ((47%N :: pat ++ 47%N :: fl) ++ post)
    = Some {| matched := 47%N :: pat ++ 47%N :: fl; rest := post;
              groups := c |}.
Proof.
  intros Hr Hfl Hpost.
  apply readable_parts in Hr. destruct Hr as [[x [t [Hpat Hx]]] [Hw _]].
  apply wellEscaped_units in Hw. destruct Hw as [toks [Htoks Hu]].
  exists (fold_left (fun c t => (1, t) :: c) toks []). intro b.
  unfold match_here.
  assert (E : rmatch literalRegex b ((47%N :: pat ++ 47%N :: fl) ++ post) []
                accept
              = Some (post, fold_left (fun c t => (1, t) :: c) toks [])).
  { unfold literalRegex, c1. simpl app.
    rewrite rmatch_seq, rmatch_chr_ok by reflexivity. cbv beta.
    rewrite rmatch_seq, rmatch_notahead_ok.
    2:{ intros y t' Hy. rewrite Hpat in Hy. inversion Hy; subst. exact Hx. }
    cbv beta. rewrite rmatch_seq, rmatch_star.
    rewrite <- app_assoc. rewrite Htoks at 2.
    apply (@star_loop_greedy _ bodyUnit (fun t c => (1, t) :: c)).
    - intros tok [[y [Ht _]]|[y Ht]]; subst; discriminate.
    - intros tok b0 s c K r Hu0 HK. now apply literal_unit.
    - exact Hu.
    - rewrite <- Htoks, length_app. lia.
    - intros bb n'. rewrite star_loop_stop by (intro K; reflexivity).
      simpl app.
      rewrite rmatch_seq, rmatch_chr_ok by reflexivity. cbv beta.
      rewrite rmatch_star.
      apply star_chr_greedy; [exact Hfl|rewrite length_app; lia|].
      intros bb' n''. rewrite star_loop_stop; [reflexivity|].
      intro K. apply rmatch_chr_fail. intros y t' Hy. subst post.
      simpl in Hpost. now apply negb_true_iff in Hpost. }
  rewrite E. rewrite firstn_consumed. reflexivity.
Qed.

Lemma search_start (r : regex) (b : bool) (s : jsstring) (f : found) :
  match_here r b s = Some f -> search r b s = Some f.
Proof. intro H. destruct s; simpl; now rewrite H. Qed.

(** No match of [regexPatterns[0]] starts before the first slash. *)
Lemma search_literal_skip (pre s : jsstring) (f : found) :
  slashFree pre = true ->
  (forall b, match_here literalRegex b s = Some f) ->
  forall b, search literalRegex b (pre ++ s) = Some f.
Proof.
  intros Hpre Hs. induction pre as [|y pre IH]; intro b.
  - simpl. now apply search_start.
  - simpl in Hpre. apply andb_true_iff in Hpre. destruct Hpre as [Hy Hpre].
    simpl.
    assert (E : match_here literalRegex b (y :: pre ++ s) = None).
    { unfold match_here, literalRegex, c1. rewrite rmatch_seq.
      rewrite rmatch_chr_fail; [reflexivity|].
      intros x t Hx. inversion Hx; subst.
      apply negb_true_iff in Hy. rewrite N.eqb_sym. exact Hy. }
    rewrite E. now apply IH.
Qed.

Lemma match_all_first (r : regex) (s : jsstring) (f : found) :
  search r true s = Some f -> exists l, match_all r s = matched f :: l.
Proof.
  intro H. unfold match_all. simpl. rewrite H. eexists. reflexivity.
Qed.

(** The first match of [regexPatterns[0]] in a text with a readable
    literal after a part without slash is that literal. *)
Lemma literal_first (pre pat fl post : jsstring) :
  slashFree pre = true -> readable pat = true ->
  forallb flagChar fl = true -> stops post = true ->
  exists l,
    match_all literalRegex (pre ++ (47%N :: pat ++ 47%N :: fl) ++ post)
    = (47%N :: pat ++ 47%N :: fl) :: l.
Proof.
  intros Hpre Hr Hfl Hpost.
  destruct (@literalRegex_here pat fl post Hr Hfl Hpost) as [c Hall].
  pose proof (@search_literal_skip pre _ _ Hpre Hall true) as Hs.
  apply match_all_first in Hs. exact Hs.
Qed.

Lemma flagChar_slash (fl : jsstring) (z : N) :
  forallb flagChar fl = true -> In z fl -> N.eqb 47 z = false.
Proof.
  intros Hfl Hin. rewrite forallb_forall in Hfl. apply Hfl in Hin.
  apply N.eqb_neq. intro E. subst z. vm_compute in Hin. discriminate.
Qed.

(** The expression that splits a literal cuts it at its last slash. *)
Lemma splitLiteral_here (pat fl : jsstring) :
  forallb (fun c => negb (isLineTerminator c)) pat = true ->
  forallb flagChar fl = true ->
  match_first splitLiteral (47%N :: pat ++ 47%N :: fl)
  = Some {| matched := 47%N :: pat ++ 47%N :: fl; rest := [];
            groups := [(2, fl); (1, pat)] |}.
Proof.
  intros Hpat Hfl. unfold match_first. apply search_start.
  unfold match_here.
  assert (E : rmatch splitLiteral true (47%N :: pat ++ 47%N :: fl) [] accept
              = Some ([], [(2, fl); (1, pat)])).
  { unfold splitLiteral, c1, dot. rewrite rmatch_seq.
    change (rmatch Bol true ?s ?c ?k) with (k true s c). cbv beta.
    rewrite rmatch_seq, rmatch_chr_ok by reflexivity. cbv beta.
    rewrite rmatch_seq, rmatch_group_eq, rmatch_star.
    apply (@star_chr_backoff (rmatch (Chr (fun c => negb (isLineTerminator c))))
             (fun c => negb (isLineTerminator c))).
    - reflexivity.
    - intro bb. rewrite firstn_consumed.
      rewrite rmatch_seq, rmatch_chr_ok by reflexivity. cbv beta.
      rewrite rmatch_seq, rmatch_group_eq, rmatch_star.
      rewrite <- (app_nil_r fl) at 2.
      apply star_chr_greedy; [exact Hfl|lia|].
      intros bb' n'. rewrite star_loop_stop by (intro K; reflexivity).
      cbv beta. simpl. rewrite Nat.sub_0_r, firstn_all. reflexivity.
    - intros u v' Hv Hu. destruct u as [|y u]; [contradiction|].
      inversion Hv; subst y fl. rewrite rmatch_seq.
      apply rmatch_chr_fail. intros z t Hz. subst v'.
      apply (@flagChar_slash _ z Hfl). apply in_or_app. right. now left.
    - exact Hpat.
    - rewrite length_app. lia. }
  rewrite E. simpl List.length. rewrite Nat.sub_0_r.
  change (S (List.length (pat ++ 47%N :: fl)))
    with (List.length (47%N :: pat ++ 47%N :: fl)).
  rewrite firstn_all. reflexivity.
Qed.

(** What is left after a match is no longer than the text searched, and
    shorter when the match is not empty. *)
Lemma search_rest (r : regex) (b : bool) (s : jsstring) (f : found) :
  search r b s = Some f ->
  List.length (matched f) + List.length (rest f) <= List.length s.
Proof.
  intro H. apply search_slice in H. destruct H as [pre H].
  apply (f_equal (@List.length N)) in H. rewrite !length_app in H. lia.
Qed.

(** Fuel beyond the length of the text changes nothing. *)
Lemma match_all_from_enough (r : regex) :
  forall n m s b,
    List.length s < n -> List.length s < m ->
    match_all_from r n b s = match_all_from r m b s.
Proof.
  induction n as [|n IH]; intros m s b Hn Hm; [lia|].
  destruct m as [|m]; [lia|]. simpl.
  destruct (search r b s) as [f|] eqn:E; [|reflexivity].
  pose proof (@search_rest _ _ _ _ E) as Hr. f_equal.
  destruct (matched f) as [|y w]; destruct (rest f) as [|z t];
    try reflexivity; simpl in Hr; apply IH; simpl; lia.
Qed.

(** [regexPatterns[0]] has no anchor: where the search starts does not
    matter. *)
Lemma literal_here_flag (b : bool) (s : jsstring) :
  match_here literalRegex b s = match_here literalRegex false s.
Proof.
  unfold match_here, literalRegex, c1. rewrite !rmatch_seq.
  destruct s as [|x s]; [reflexivity|]. simpl rmatch at 1 3.
  reflexivity.
Qed.

Lemma literal_search_flag (b : bool) (s : jsstring) :
  search literalRegex b s = search literalRegex false s.
Proof. destruct s; cbn [search]; now rewrite literal_here_flag. Qed.

Lemma literal_all_flag (n : nat) (b : bool) (s : jsstring) :
  match_all_from literalRegex n b s = match_all_from literalRegex n false s.
Proof.
  destruct n; cbn [match_all_from]; [reflexivity|].
  now rewrite literal_search_flag.
Qed.

(** After a readable literal the global match goes on in the text that
    follows it. *)
Lemma literal_then (pre pat fl post : jsstring) :
  slashFree pre = true -> readable pat = true ->
  forallb flagChar fl = true -> stops post = true ->
  match_all literalRegex (pre ++ (47%N :: pat ++ 47%N :: fl) ++ post)
  = (47%N :: pat ++ 47%N :: fl) :: match_all literalRegex post.
Proof.
  intros Hpre Hr Hfl Hpost.
  destruct (@literalRegex_here pat fl post Hr Hfl Hpost) as [c Hall].
  pose proof (@search_literal_skip pre _ _ Hpre Hall true) as Hs.
  unfold match_all at 1. cbn [match_all_from]. rewrite Hs.
  cbn [matched rest]. f_equal. unfold match_all.
  rewrite (literal_all_flag _ true).
  apply match_all_from_enough; [|lia].
  rewrite !length_app. simpl. lia.
Qed.

(** Without a slash there is no literal. *)
Lemma literal_none (s : jsstring) :
  slashFree s = true -> match_all literalRegex s = [].
Proof.
  intro H. unfold match_all. simpl.
  assert (G : forall b, search literalRegex b s = None).
  { induction s as [|y s IH]; intro b.
    - reflexivity.
    - simpl in H. apply andb_true_iff in H. destruct H as [Hy H].
      simpl.
      assert (E : match_here literalRegex b (y :: s) = None).
      { unfold match_here, literalRegex, c1. rewrite rmatch_seq.
        rewrite rmatch_chr_fail; [reflexivity|].
        intros x t Hx. inversion Hx; subst.
        apply negb_true_iff in Hy. rewrite N.eqb_sym. exact Hy. }
      rewrite E. now apply IH. }
  now rewrite G.
Qed.

Section Found.
Variable fs : filesystem.
Variable f : jsstring.
Variables pre pat fl post : jsstring.
Hypothesis content :
  readFileSync fs f = Normal (pre ++ (47%N :: pat ++ 47%N :: fl) ++ post).
Hypothesis before : slashFree pre = true.
Hypothesis body : readable pat = true.
Hypothesis letters : forallb flagChar fl = true.
Hypothesis after : stops post = true.

Lemma readable_oneLine :
  forallb (fun c => negb (isLineTerminator c)) pat = true.
Proof. apply readable_parts in body. tauto. Qed.

(** X16: the first literal of a file is recorded as written.  When no slash
    comes before it, its pattern is readable (it opens with no star, holds no
    line terminator, and no slash or backslash outside a backslash pair), its
    flags are letters of gimsuvy with no such letter after them, and the
    pattern passes the filter, the extraction begins with the entry that
    has this pattern, these flags and the literal as [full]. *)
Theorem extractRegexFromFile_finds_literal :
  meaningful pat = true ->
  exists l, extractRegexFromFile fs f = literalOf f pat fl :: l.
Proof.
  intro Hm. unfold extractRegexFromFile. rewrite content.
  change (nth 0 regexPatterns Empty) with literalRegex.
  destruct (@literal_first pre pat fl post before body letters after)
    as [l Hl].
  rewrite Hl. cbn [flat_map]. unfold literalEntry at 1.
  rewrite (splitLiteral_here pat fl readable_oneLine letters).
  cbn [groups capture Nat.eqb]. rewrite Hm. eexists. reflexivity.
Qed.

(** X17: the extractor that does not filter records the first literal of
    a file as written, whatever the length of its pattern: when no slash
    comes before the literal, its pattern is readable and its flags are
    letters of gimsuvy with no such letter after them, the extraction begins
    with the entry of this pattern and these flags. *)
Theorem unfiltered_extractRegexFromFile_finds_literal :
  exists l, Unfiltered.extractRegexFromFile fs f = literalOf f pat fl :: l.
Proof.
  unfold Unfiltered.extractRegexFromFile. rewrite content.
  change (nth 0 regexPatterns Empty) with literalRegex.
  destruct (@literal_first pre pat fl post before body letters after)
    as [l Hl].
  rewrite Hl. cbn [flat_map]. unfold Unfiltered.literalEntry at 1.
  rewrite (splitLiteral_here pat fl readable_oneLine letters).
  cbn [groups capture Nat.eqb]. eexists. reflexivity.
Qed.

(** X18: under the same conditions on the first literal of a file, the
    quick extraction returns the entry of its pattern and flags when the
    pattern has more than five code units, followed by what the literals of
    the text after it yield; when the pattern is shorter it returns only
    the latter: the literal is passed over.  With no slash after the
    literal the result is that one entry, or nothing. *)
Theorem quickExtract_finds_literal :
  Quick.quickExtract fs f
  = (if Nat.ltb 5 (List.length pat) then [quickOf f pat fl] else [])
    ++ flat_map (Quick.literalEntry f) (match_all literalRegex post) /\
  (slashFree post = true ->
   Quick.quickExtract fs f
   = if Nat.ltb 5 (List.length pat) then [quickOf f pat fl] else []).
Proof.
  assert (E : Quick.quickExtract fs f
              = (if Nat.ltb 5 (List.length pat) then [quickOf f pat fl] else [])
                ++ flat_map (Quick.literalEntry f)
                     (match_all literalRegex post)).
  { unfold Quick.quickExtract. rewrite content.
    rewrite (@literal_then pre pat fl post before body letters after).
    cbn [flat_map]. unfold Quick.literalEntry at 1.
    rewrite (splitLiteral_here pat fl readable_oneLine letters).
    cbn [groups capture Nat.eqb]. reflexivity. }
  split; [exact E|].
  intro Hpost. rewrite E, (literal_none _ Hpost). cbn [flat_map].
  apply app_nil_r.
Qed.
End Found.

Lemma extractRegexFromFile_finds_literal_witness :
  (readFileSync ShapeCases.mixed (lit "src/lib/isHex.js")
   = Normal (ShapeCases.hexBefore
             ++ (47%N :: ShapeCases.hexPattern ++ 47%N :: ShapeCases.hexFlags)
             ++ ShapeCases.hexAfter) /\
   slashFree ShapeCases.hexBefore = true /\
   readable ShapeCases.hexPattern = true /\
   forallb flagChar ShapeCases.hexFlags = true /\
   stops ShapeCases.hexAfter = true /\
   meaningful ShapeCases.hexPattern = true) /\
  exists l,
    extractRegexFromFile ShapeCases.mixed (lit "src/lib/isHex.js")
    = literalOf (lit "src/lib/isHex.js") ShapeCases.hexPattern
                ShapeCases.hexFlags :: l.
Proof.
  split; [repeat split; vm_compute; reflexivity|].
  apply (@extractRegexFromFile_finds_literal ShapeCases.mixed
           (lit "src/lib/isHex.js") ShapeCases.hexBefore ShapeCases.hexPattern
           ShapeCases.hexFlags ShapeCases.hexAfter);
    vm_compute; reflexivity.
Defined.

Lemma unfiltered_extractRegexFromFile_finds_literal_witness :
  (readFileSync ShapeCases.decimal (lit "src/lib/isDecimal.js")
   = Normal (ShapeCases.decimalBefore
             ++ (47%N :: ShapeCases.decimalPattern
                 ++ 47%N :: ShapeCases.decimalFlags)
             ++ ShapeCases.decimalAfter) /\
   slashFree ShapeCases.decimalBefore = true /\
   readable ShapeCases.decimalPattern = true /\
   forallb flagChar ShapeCases.decimalFlags = true /\
   stops ShapeCases.decimalAfter = true) /\
  exists l,
    Unfiltered.extractRegexFromFile ShapeCases.decimal
      (lit "src/lib/isDecimal.js")
    = literalOf (lit "src/lib/isDecimal.js") ShapeCases.decimalPattern
                ShapeCases.decimalFlags :: l.
Proof.
  split; [repeat split; vm_compute; reflexivity|].
  apply (@unfiltered_extractRegexFromFile_finds_literal ShapeCases.decimal
           (lit "src/lib/isDecimal.js") ShapeCases.decimalBefore
           ShapeCases.decimalPattern ShapeCases.decimalFlags
           ShapeCases.decimalAfter);
    vm_compute; reflexivity.
Defined.

Lemma quickExtract_finds_literal_witness :
  (readFileSync ShapeCases.decimal (lit "src/lib/isDecimal.js")
   = Normal (ShapeCases.decimalBefore
             ++ (47%N :: ShapeCases.decimalPattern
                 ++ 47%N :: ShapeCases.decimalFlags)
             ++ ShapeCases.decimalAfter) /\
   slashFree ShapeCases.decimalBefore = true /\
   readable ShapeCases.decimalPattern = true /\
   forallb flagChar ShapeCases.decimalFlags = true /\
   stops ShapeCases.decimalAfter = true) /\
  (Quick.quickExtract ShapeCases.decimal (lit "src/lib/isDecimal.js")
   = (if Nat.ltb 5 (List.length ShapeCases.decimalPattern)
      then [quickOf (lit "src/lib/isDecimal.js") ShapeCases.decimalPattern
                    ShapeCases.decimalFlags]
      else [])
     ++ flat_map (Quick.literalEntry (lit "src/lib/isDecimal.js"))
          (match_all literalRegex ShapeCases.decimalAfter) /\
   (slashFree ShapeCases.decimalAfter = true ->
    Quick.quickExtract ShapeCases.decimal (lit "src/lib/isDecimal.js")
    = if Nat.ltb 5 (List.length ShapeCases.decimalPattern)
      then [quickOf (lit "src/lib/isDecimal.js") ShapeCases.decimalPattern
                    ShapeCases.decimalFlags]
      else [])).
Proof.
  split; [repeat split; vm_compute; reflexivity|].
  apply (@quickExtract_finds_literal ShapeCases.decimal
           (lit "src/lib/isDecimal.js") ShapeCases.decimalBefore
           ShapeCases.decimalPattern ShapeCases.decimalFlags
           ShapeCases.decimalAfter);
    vm_compute; reflexivity.
Defined.

End FoundFacts.

(** ** The inputs of the generated test cases *)

Module ProbeFacts.

Ltac settle_probe :=
  split;
  [ let H := fresh in
    intro H; vm_compute in H;
    repeat (destruct H as [H|H]; [try discriminate H|]);
    try contradiction; try reflexivity
  | let H := fresh in
    intro H; try discriminate H; vm_compute; tauto ].

(** X19: the inputs for a test case.  The list always ends with the default
    input of a hundred letters a and an x.  Each other input is there exactly
    when its trigger occurs in the pattern; for the input of twenty letters a
    the trigger is a plus sign alone, whether or not the pattern holds a
    star. *)
Theorem generateTestInputs_probes (pat : jsstring) :
  (exists l, Quick.generateTestInputs pat
             = l ++ [JS.repeat (lit "a") 100 ++ lit "x"]) /\
  (In (JS.repeat (lit "a") 20 ++ lit "x") (Quick.generateTestInputs pat)
   <-> includes pat (lit "+") = true) /\
  (In (JS.repeat (lit "a") 10 ++ JS.repeat (lit "b") 10 ++ lit "x")
      (Quick.generateTestInputs pat)
   <-> includes pat (lit "|") = true) /\
  (In (JS.repeat (lit "a") 50 ++ lit "@" ++ JS.repeat (lit "b") 50 ++ lit ".com")
      (Quick.generateTestInputs pat)
   <-> includes pat (lit "@") || includes pat (lit "\.") = true) /\
  (In (lit "http://" ++ JS.repeat (lit "a") 100 ++ lit ".com")
      (Quick.generateTestInputs pat)
   <-> includes pat (lit "http") || includes pat (lit "://") = true).
Proof.
  unfold Quick.generateTestInputs.
  split; [eexists; reflexivity|].
  destruct (includes pat (lit "+")), (includes pat (lit "*")),
    (includes pat (lit "|")),
    (includes pat (lit "@") || includes pat (lit "\.")),
    (includes pat (lit "http") || includes pat (lit "://"));
    cbn [andb orb app];
    (split; [settle_probe|split; [settle_probe|split; settle_probe]]).
Qed.

End ProbeFacts.

(** ** The length window of the extractors *)

Module WindowFacts.
Import Extractor RegexFacts Shapes CaptureFacts ShapeFacts FoundFacts.

Lemma quick_literalEntry_filter (f m : jsstring) :
  Quick.literalEntry f m
  = List.map quickEntry
      (filter (fun p => isLiteral p && Nat.ltb 5 (List.length (pattern p)))
              (Unfiltered.literalEntry f m)).
Proof.
  unfold Quick.literalEntry, Unfiltered.literalEntry.
  destruct (match_first splitLiteral m) as [fd|]; [|reflexivity].
  destruct (capture 1 (groups fd)) as [pat|]; [|reflexivity].
  destruct (capture 2 (groups fd)) as [fl|]; [|reflexivity].
  simpl. destruct (Nat.ltb 5 (List.length pat)); reflexivity.
Qed.

Lemma constructorEntry_not_literal (f m : jsstring) :
  filter (fun p => isLiteral p && Nat.ltb 5 (List.length (pattern p)))
         (Unfiltered.constructorEntry f m) = [].
Proof.
  unfold Unfiltered.constructorEntry.
  destruct (match_first splitConstructor m) as [fd|]; [|reflexivity].
  destruct (capture 1 (groups fd)) as [pat|]; reflexivity.
Qed.

(** The quick extraction keeps, in order, the literals that the unfiltered
    extractor recognises and whose pattern has more than five code units. *)
Lemma quickExtract_filter (fs : filesystem) (f : jsstring) :
  Quick.quickExtract fs f
  = List.map quickEntry
      (filter (fun p => isLiteral p && Nat.ltb 5 (List.length (pattern p)))
              (Unfiltered.extractRegexFromFile fs f)).
Proof.
  unfold Quick.quickExtract, Unfiltered.extractRegexFromFile.
  destruct (readFileSync fs f) as [content|]; [|reflexivity].
  change (nth 0 regexPatterns Empty) with literalRegex.
  rewrite filter_app, List.map_app, !FilterFacts.filter_flat_map.
  replace (flat_map
             (fun x => filter
                (fun p => isLiteral p && Nat.ltb 5 (List.length (pattern p)))
                (Unfiltered.constructorEntry f x))
             (match_all (nth 1 regexPatterns Empty) content))
    with (@nil patternInfo).
  2:{ symmetry. induction (match_all (nth 1 regexPatterns Empty) content)
        as [|m l IH]; simpl; [reflexivity|].
      now rewrite constructorEntry_not_literal, IH. }
  rewrite app_nil_r.
  induction (match_all literalRegex content) as [|m l IH];
    simpl; [reflexivity|].
  now rewrite List.map_app, IH, quick_literalEntry_filter.
Qed.

(** The text of a hundred letters, or of any number. *)
Lemma repeat_a_length (n : nat) : List.length (JS.repeat (lit "a") n) = n.
Proof.
  induction n as [|n IH]; [reflexivity|].
  change (JS.repeat (lit "a") (S n)) with (97%N :: JS.repeat (lit "a") n).
  simpl. now rewrite IH.
Qed.

Lemma repeat_a_all (p : N -> bool) (n : nat) :
  p 97%N = true -> forallb p (JS.repeat (lit "a") n) = true.
Proof.
  intro H. induction n as [|n IH]; [reflexivity|].
  change (JS.repeat (lit "a") (S n)) with (97%N :: JS.repeat (lit "a") n).
  simpl. now rewrite H, IH.
Qed.

Lemma repeat_a_wellEscaped (n : nat) :
  wellEscaped (JS.repeat (lit "a") n) = true.
Proof.
  induction n as [|n IH]; [reflexivity|].
  change (JS.repeat (lit "a") (S n)) with (97%N :: JS.repeat (lit "a") n).
  simpl. exact IH.
Qed.

Lemma repeat_a_readable (n : nat) :
  readable (JS.repeat (lit "a") (S n)) = true.
Proof.
  unfold readable.
  rewrite repeat_a_wellEscaped, repeat_a_all by reflexivity.
  reflexivity.
Qed.

Lemma repeat_a_no_escape (n : nat) (c : N) :
  includes (JS.repeat (lit "a") n) [92%N; c] = false.
Proof.
  induction n as [|n IH]; [reflexivity|].
  change (JS.repeat (lit "a") (S n)) with (97%N :: JS.repeat (lit "a") n).
  simpl. exact IH.
Qed.

Lemma repeat_a_meaningful (n : nat) :
  meaningful (JS.repeat (lit "a") n) = Nat.leb 6 n && Nat.leb n 499.
Proof.
  unfold meaningful. rewrite repeat_a_length.
  change (lit "\n") with [92%N; 110%N]. change (lit "\r") with [92%N; 114%N].
  rewrite !repeat_a_no_escape. simpl negb. rewrite !andb_true_r.
  destruct (Nat.leb_spec 6 n), (Nat.leb_spec n 499),
           (Nat.ltb_spec 5 n), (Nat.ltb_spec n 500); simpl;
    try reflexivity; lia.
Qed.

(** A text without the letter n holds no constructor call. *)
Lemma constructor_none (s : jsstring) :
  forallb (fun c => negb (N.eqb c 110)) s = true ->
  match_all constructorRegex s = [].
Proof.
  intro H. unfold match_all. simpl.
  assert (G : forall b, search constructorRegex b s = None).
  { induction s as [|y s IH]; intro b.
    - reflexivity.
    - simpl in H. apply andb_true_iff in H. destruct H as [Hy H].
      cbn [search].
      assert (E : match_here constructorRegex b (y :: s) = None).
      { unfold match_here, constructorRegex, constructorHead.
        rewrite rmatch_seq.
        change (word (lit "new"))
          with (Seq (Chr (N.eqb 110))
                    (Seq (Chr (N.eqb 101)) (Seq (Chr (N.eqb 119)) Empty))).
        rewrite rmatch_seq, rmatch_chr_fail; [reflexivity|].
        intros x t Hx. inversion Hx; subst.
        apply negb_true_iff in Hy. rewrite N.eqb_sym. exact Hy. }
      rewrite E. now apply IH. }
  now rewrite G.
Qed.

(** The global matches in the file that holds one literal of [n] letters. *)
Lemma literalOf_matches (n : nat) :
  let content := lit "/" ++ JS.repeat (lit "a") (S n) ++ lit "/" in
  match_all literalRegex content
  = [47%N :: JS.repeat (lit "a") (S n) ++ [47%N]] /\
  match_all constructorRegex content = [].
Proof.
  intro content. split.
  - pose proof (@literal_then [] (JS.repeat (lit "a") (S n)) [] []
                  eq_refl (repeat_a_readable n) eq_refl eq_refl) as H.
    rewrite app_nil_r in H. exact H.
  - apply constructor_none. unfold content.
    rewrite !forallb_app, repeat_a_all by reflexivity. reflexivity.
Qed.

Lemma literalOf_window (n : nat) (f : jsstring) :
  extractRegexFromFile (ExtractionCases.literalOf n) f
  = (if Nat.leb 6 n && Nat.leb n 499
     then [literalOf f (JS.repeat (lit "a") n) []] else []) /\
  Quick.quickExtract (ExtractionCases.literalOf n) f
  = (if Nat.leb 6 n then [quickOf f (JS.repeat (lit "a") n) []] else []).
Proof.
  destruct n as [|n]; [split; vm_compute; reflexivity|].
  destruct (literalOf_matches n) as [Hl Hc].
  unfold extractRegexFromFile, Quick.quickExtract.
  cbn [ExtractionCases.literalOf readFileSync].
  change (nth 0 regexPatterns Empty) with literalRegex.
  change (nth 1 regexPatterns Empty) with constructorRegex.
  rewrite Hl, Hc. cbn [flat_map]. rewrite !app_nil_r.
  unfold literalEntry, Quick.literalEntry.
  rewrite (@splitLiteral_here (JS.repeat (lit "a") (S n)) [])
    by (try apply repeat_a_all; reflexivity).
  cbn [groups capture Nat.eqb].
  rewrite repeat_a_meaningful, repeat_a_length. split; [reflexivity|].
  destruct (Nat.leb_spec 6 (S n)), (Nat.ltb_spec 5 (S n));
    try reflexivity; lia.
Qed.

(** C8 (amended): [extractRegexFromFile] returns exactly the recognised
    occurrences whose raw pattern has at least 6 and at most 499 characters
    and holds neither of the escapes backslash-n and backslash-r: a pattern
    of 6 or of 499 characters is retained, one of 5 or of 500 is dropped.
    [quickExtract] returns exactly the recognised literals whose pattern has
    at least 6 characters: it applies the minimum only and has no maximum.
    For the file that holds one literal of [n] letters, the first keeps it
    exactly when [n] is between 6 and 499, the second exactly when [n] is at
    least 6. *)
Theorem C8_length_window (fs : filesystem) (f : jsstring) :
  extractRegexFromFile fs f
  = filter (fun p => meaningful (pattern p))
           (Unfiltered.extractRegexFromFile fs f) /\
  (forall pat,
     meaningful pat = true <->
     6 <= List.length pat <= 499 /\
     includes pat (lit "\n") = false /\ includes pat (lit "\r") = false) /\
  Forall (fun p => 6 <= List.length (pattern p) <= 499)
         (extractRegexFromFile fs f) /\
  Quick.quickExtract fs f
  = List.map quickEntry
      (filter (fun p => isLiteral p && Nat.ltb 5 (List.length (pattern p)))
              (Unfiltered.extractRegexFromFile fs f)) /\
  Forall (fun e => 6 <= List.length (Quick.pattern e))
         (Quick.quickExtract fs f) /\
  (forall n,
     extractRegexFromFile (ExtractionCases.literalOf n) f
     = if Nat.leb 6 n && Nat.leb n 499
       then [literalOf f (JS.repeat (lit "a") n) []] else []) /\
  (forall n,
     Quick.quickExtract (ExtractionCases.literalOf n) f
     = if Nat.leb 6 n then [quickOf f (JS.repeat (lit "a") n) []] else []).
Proof.
  split; [apply FilterFacts.extract_filter|].
  split; [apply FilterFacts.meaningful_iff|].
  split.
  { eapply Forall_impl; [|apply FilterFacts.extract_meaningful].
    intros p H. now apply FilterFacts.meaningful_iff in H. }
  split; [apply quickExtract_filter|].
  split; [apply FilterFacts.quickExtract_min|].
  split; intro n; apply literalOf_window.
Qed.

End WindowFacts.

(** ** The schedule of the benchmark inputs *)

Module ScheduleFacts.
Import Benchmark Calls BenchmarkCases.

Section Samples.

Variable RegExp : Type.
Variable RegExp_new : jsstring -> jsstring -> completion RegExp.
Variable test : RegExp -> jsstring -> testRun RegExp.

(** The calls are made on the inputs, in order. *)
Lemma trace_inputs (regex : RegExp) (inputs : list jsstring) :
  List.map fst (trace test regex inputs) = inputs.
Proof.
  revert regex. induction inputs as [|i l IH]; intro regex; simpl;
    [reflexivity|]. now rewrite IH.
Qed.

Lemma sampleOf_inputLength (calls : list (jsstring * testRun RegExp)) :
  List.map inputLength (List.map (@sampleOf RegExp) calls)
  = List.map (fun c => List.length (fst c)) calls.
Proof.
  induction calls as [|[input run] l IH]; simpl; [reflexivity|].
  rewrite IH. unfold sampleOf. destruct (answer run); reflexivity.
Qed.

End Samples.

(** The generator yields one to six triples. *)
Lemma generateReDoSInputs_triples (pat : jsstring) :
  exists k, 1 <= k <= 6 /\ List.length (generateReDoSInputs pat) = 3 * k.
Proof.
  unfold generateReDoSInputs.
  destruct (includes pat (lit "5[1-5]") || includes pat (lit "222"));
  destruct (includes pat (lit "a-z") && includes pat (lit "{2,}"));
  destruct (includes pat (lit "hsla?"));
  destruct (includes pat (lit "Mon|Tue|Wed"));
  destruct (includes pat (lit "\[") && includes pat (lit "MM?M?M?"));
  destruct (includes pat (lit "\s\s*"));
  cbn [andb orb app triple List.length Nat.eqb];
  first [ exists 1; split; [lia|reflexivity]
        | exists 2; split; [lia|reflexivity]
        | exists 3; split; [lia|reflexivity]
        | exists 4; split; [lia|reflexivity]
        | exists 5; split; [lia|reflexivity]
        | exists 6; split; [lia|reflexivity] ].
Qed.

(** C9 (amended): for every pattern the generator produces between one
    and six triples of inputs, so at least three inputs, whose lengths are
    strictly ascending within each triple; the whole sequence is strictly
    ascending when one triple is produced.  Once the pattern compiles,
    [benchmarkPattern] on the inputs of the generator records exactly one
    sample per input, in the order of the generator: the samples are those
    of the successive calls of [test] on these inputs, and their input
    lengths are the lengths of the inputs.  [generateTestInputs] of
    quick-analysis.js, which feeds no benchmark, produces between one and
    five inputs. *)
Theorem C9_inputs_in_ascending_triples
    (RegExp : Type) (RegExp_new : jsstring -> jsstring -> completion RegExp)
    (test : RegExp -> jsstring -> testRun RegExp)
    (pat fl : jsstring) (rt : runtime) (regex : RegExp) :
  RegExp_new pat fl = Normal regex ->
  let inputs := generateReDoSInputs pat in
  (exists k, 1 <= k <= 6 /\ List.length inputs = 3 * k) /\
  ascendingTriples (List.map (@List.length N) inputs) /\
  exists rs rt',
    benchmarkPattern RegExp_new test pat fl inputs rt = Normal (rs, rt') /\
    rs = List.map (@sampleOf RegExp) (trace test regex inputs) /\
    List.map fst (trace test regex inputs) = inputs /\
    List.length rs = List.length inputs /\
    List.map inputLength rs = List.map (@List.length N) inputs /\
    3 <= List.length rs /\
    ascendingTriples (List.map inputLength rs) /\
    (List.length rs = 3 ->
     exists a b c, List.map inputLength rs = [a; b; c] /\ a < b /\ b < c) /\
    1 <= List.length (Quick.generateTestInputs pat) <= 5.
Proof.
  intros Hnew inputs.
  destruct (InputFacts.generateReDoSInputs_lengths pat) as [Hne Hasc].
  fold inputs in Hne, Hasc.
  split; [apply generateReDoSInputs_triples|]. split; [exact Hasc|].
  destruct (@RunFacts.benchmarkPattern_samples _ RegExp_new test pat fl
              inputs rt regex Hnew) as [rt' Hrun].
  exists (List.map (@sampleOf RegExp) (trace test regex inputs)), rt'.
  assert (Hlen : List.map inputLength
                   (List.map (@sampleOf RegExp) (trace test regex inputs))
                 = List.map (@List.length N) inputs).
  { rewrite sampleOf_inputLength.
    transitivity (List.map (@List.length N)
                    (List.map fst (trace test regex inputs)));
      [now rewrite List.map_map|now rewrite trace_inputs]. }
  assert (Hn : List.length
                 (List.map (@sampleOf RegExp) (trace test regex inputs))
               = List.length inputs)
    by (rewrite List.length_map; apply RunFacts.trace_length).
  split; [exact Hrun|]. split; [reflexivity|].
  split; [apply trace_inputs|]. split; [exact Hn|]. split; [exact Hlen|].
  rewrite Hlen, Hn.
  assert (H3 : 3 <= List.length inputs).
  { rewrite <- (List.length_map (@List.length N)).
    now apply InputFacts.ascendingTriples_ge3. }
  split; [exact H3|]. split; [exact Hasc|]. split.
  - intro E3. rewrite <- (List.length_map (@List.length N)) in E3.
    destruct (List.map (@List.length N) inputs) as [|a [|b [|c [|d l]]]];
      simpl in *; try discriminate; try contradiction.
    exists a, b, c. repeat split; tauto.
  - apply InputFacts.generateTestInputs_length.
Qed.

(** The theorem of C9 at the nested-quantifier pattern, on an engine that
    compiles it. *)
Lemma C9_witness :
  Fixtures.RegExp_new (lit "^(a+)+$") []
  = Normal {| Fixtures.source := lit "^(a+)+$"; Fixtures.flagsOf := [];
              Fixtures.lastIndex := 0 |} /\
  let inputs := generateReDoSInputs (lit "^(a+)+$") in
  let regex := {| Fixtures.source := lit "^(a+)+$"; Fixtures.flagsOf := [];
                  Fixtures.lastIndex := 0 |} in
  (exists k, 1 <= k <= 6 /\ List.length inputs = 3 * k) /\
  ascendingTriples (List.map (@List.length N) inputs) /\
  exists rs rt',
    benchmarkPattern Fixtures.RegExp_new (Fixtures.testTaking 1)
      (lit "^(a+)+$") [] inputs startRuntime = Normal (rs, rt') /\
    rs = List.map (@sampleOf Fixtures.regexObject)
           (trace (Fixtures.testTaking 1) regex inputs) /\
    List.map fst (trace (Fixtures.testTaking 1) regex inputs) = inputs /\
    List.length rs = List.length inputs /\
    List.map inputLength rs = List.map (@List.length N) inputs /\
    3 <= List.length rs /\
    ascendingTriples (List.map inputLength rs) /\
    (List.length rs = 3 ->
     exists a b c, List.map inputLength rs = [a; b; c] /\ a < b /\ b < c) /\
    1 <= List.length (Quick.generateTestInputs (lit "^(a+)+$")) <= 5.
Proof.
  split; [reflexivity|].
  apply (@C9_inputs_in_ascending_triples Fixtures.regexObject
           Fixtures.RegExp_new (Fixtures.testTaking 1) (lit "^(a+)+$") []
           startRuntime
           {| Fixtures.source := lit "^(a+)+$"; Fixtures.flagsOf := [];
              Fixtures.lastIndex := 0 |}).
  reflexivity.
Defined.

End ScheduleFacts.

(** ** Engine errors in the benchmark *)

Module EngineErrorFacts.
Import Benchmark Calls BenchmarkCases.

Section Engine.

Variable RegExp : Type.
Variable RegExp_new : jsstring -> jsstring -> completion RegExp.
Variable isSafe : RegExp -> completion Detector.analysisResult.
Variable test : RegExp -> jsstring -> testRun RegExp.

#[local] Abbreviation compiles := (compiles RegExp_new).









End Engine.

End EngineErrorFacts.
